(** * Shape inference engine of torch_glow: a shallow embedding

    Source: [torch_glow/src/ShapeInferenceEngine.cpp].

    The engine walks a TorchScript graph and records, for every value, a
    [VariableMeta]: the shape(s) of the value and, for scalars and integer
    lists, the integers themselves.  The embedding follows the C++ text
    function by function and keeps its names.

    Conventions.
    - [int64_t] is [Z]; additions, subtractions and products are reduced
      by [wrap64] (two's complement, as the compiled code behaves), [/] and
      [%] are the truncating [Z.quot] and [Z.rem].
    - [std::vector<T>] is [list T]; [v[i]] is [vec_at v i].  No vector has
      2^63 elements, so an index is in range exactly when it lies in
      [[0, v.size())]: a negative [int64_t], or a [size_t] difference that
      went below zero, reaches [operator[]] as an index of 2^63 or more.
    - Loop counters are plain integers: no loop here runs 2^31 times.
    - A function returning [Expected<T>] or [Error] returns [Expected T]:
      [Ok] for success, [Err msg] for [MAKE_ERR] and
      [RETURN_ERR_IF_NOT], and [Crash] where the C++ leaves the typed error
      channel: an out-of-range [operator[]], a failed [CHECK], a
      [boost::get] on the wrong alternative, an exception of the torch
      library, an integer division trap. *)

From Stdlib Require Import ZArith Lia DecimalString.
From stdpp Require Import base option list strings gmap.

Local Open Scope Z_scope.

(** ** Results *)

Inductive Fault : Type :=
| OutOfRange      (* operator[] past the end of a vector *)
| BadGet          (* boost::get on the other alternative of the variant *)
| CheckFailed     (* CHECK / CHECK_EQ of glog *)
| TorchError      (* exception thrown inside the torch library *)
| ArithTrap.      (* x / 0, x % 0, INT64_MIN / -1 *)

Inductive Expected (A : Type) : Type :=
| Ok (a : A)
| Err (msg : string)
| Crash (f : Fault).
Arguments Ok {A} a.
Arguments Err {A} msg.
Arguments Crash {A} f.

#[global] Instance Expected_ret : MRet Expected := fun _ a => Ok a.
#[global] Instance Expected_bind : MBind Expected := fun _ _ k e =>
  match e with
  | Ok a => k a
  | Err msg => Err msg
  | Crash f => Crash f
  end.

(** [RETURN_ERR_IF_NOT(cond, msg)]. *)
Definition RETURN_ERR_IF_NOT (cond : bool) (msg : string) : Expected unit :=
  if cond then Ok tt else Err msg.

(** A [for] loop whose body may return early with an error. *)
Fixpoint forM {A S : Type} (body : A -> S -> Expected S) (l : list A) (s : S)
  : Expected S :=
  match l with
  | [] => Ok s
  | a :: l' => s' ← body a s; forM body l' s'
  end.

(** The loop counters [0, 1, ..., n-1]. *)
Definition upto (n : Z) : list Z := Z.of_nat <$> seq 0 (Z.to_nat n).

(** ** Machine integers *)

Definition wrap64 (z : Z) : Z := (z + 2 ^ 63) mod 2 ^ 64 - 2 ^ 63.
Definition add64 (a b : Z) : Z := wrap64 (a + b).
Definition sub64 (a b : Z) : Z := wrap64 (a - b).
Definition mul64 (a b : Z) : Z := wrap64 (a * b).
Definition neg64 (a : Z) : Z := wrap64 (- a).

Definition div64 (a b : Z) : Expected Z :=
  if (b =? 0) || ((a =? - 2 ^ 63) && (b =? -1)) then Crash ArithTrap
  else Ok (Z.quot a b).

Definition rem64 (a b : Z) : Expected Z :=
  if (b =? 0) || ((a =? - 2 ^ 63) && (b =? -1)) then Crash ArithTrap
  else Ok (Z.rem a b).

(** [v.size()]. *)
Definition vsize {A : Type} (v : list A) : Z := Z.of_nat (length v).

(** Is [i] an index of [v]? *)
Definition in_range {A : Type} (v : list A) (i : Z) : bool :=
  (0 <=? i) && (i <? vsize v).

(** [v[i]], read. *)
Definition vec_at {A : Type} (v : list A) (i : Z) : Expected A :=
  if in_range v i then
    match v !! Z.to_nat i with
    | Some x => Ok x
    | None => Crash OutOfRange
    end
  else Crash OutOfRange.

(** [v[i] = x]. *)
Definition vec_set {A : Type} (v : list A) (i : Z) (x : A) : Expected (list A) :=
  if in_range v i then Ok (<[Z.to_nat i := x]> v) else Crash OutOfRange.

(** [%zu] of [strFormat]: the 64 bits of the argument, printed unsigned. *)
Definition fmt_zu (z : Z) : string :=
  NilZero.string_of_uint (N.to_uint (Z.to_N (z mod 2 ^ 64))).

(** ** Shape and value records *)

Definition TensorShape : Type := list Z.
Definition TensorListShape : Type := list TensorShape.

(** Modelled from the spec: the header [ShapeInferenceEngine.h] is not
    part of the sources.  A shape entry is either one shape or a list of
    shapes (a [boost::variant]); a record holds the shape entries, the
    integer payload and the element type that [runRecursively] hands to
    [torch::empty]. *)
Inductive ElemShape : Type :=
| ETensor (s : TensorShape)
| EList (l : TensorListShape).

Inductive ScalarType : Type := Float | Int | Bool | OtherScalar (code : nat).

Record VariableMeta : Type := mkMeta {
  listOfShape : list ElemShape;
  intValue : list Z;
  dtype : ScalarType
}.

Definition MetaStack : Type := list VariableMeta.

(** A default-constructed record, as [shapeMap_[v]] creates for a new key. *)
Definition emptyMeta : VariableMeta := mkMeta [] [] Float.

(** [meta.shape<TensorShape>()] and [meta.shape<TensorListShape>()]:
    [boost::get] on [listOfShape[0]]. *)
Definition shapeT (meta : VariableMeta) : Expected TensorShape :=
  match listOfShape meta with
  | [] => Crash OutOfRange
  | ETensor s :: _ => Ok s
  | EList _ :: _ => Crash BadGet
  end.

Definition shapeL (meta : VariableMeta) : Expected TensorListShape :=
  match listOfShape meta with
  | [] => Crash OutOfRange
  | EList l :: _ => Ok l
  | ETensor _ :: _ => Crash BadGet
  end.

(** Modelled from the spec: [at::maybe_wrap_dim] belongs to the torch
    library.  It wraps an axis into [[0, rank)] with Python's rule for
    negative indices and throws when the axis is outside [[-rank, rank)];
    a rank of 0 is treated as rank 1. *)
Definition maybe_wrap_dim (dim rank : Z) : Expected Z :=
  let n := if rank <=? 0 then 1 else rank in
  if (dim <? - n) || (n <=? dim) then Crash TorchError
  else Ok (if dim <? 0 then dim + n else dim).

(** ** Shape functions *)

Definition binaryOp_mismatch (a b : Z) : string :=
  "The size of tensor a (" +:+ fmt_zu a +:+
  ") must match the size of tensor b (" +:+ fmt_zu b +:+
  ")at non-singleton dimension 1.".

(** Body of the loop of [binaryOp] for counter [i]. *)
Definition binaryOp_body (t0 t1 : TensorShape) (i : Z) (shape : TensorShape)
  : Expected TensorShape :=
  let d0 := vsize t0 in
  let d1 := vsize t1 in
  let dim := Z.max d0 d1 in
  let j := -1 - i in
  c0 ← (if d0 <=? i then Ok true
        else x ← vec_at t0 (d0 + j); Ok (x =? 1));
  if c0 : bool then
    y ← vec_at t1 (d1 + j); vec_set shape (dim + j) y
  else
    c1 ← (if d1 <=? i then Ok true
          else y ← vec_at t1 (d1 + j); Ok (y =? 1));
    if c1 : bool then
      x ← vec_at t0 (d0 + j); vec_set shape (dim + j) x
    else
      y ← vec_at t1 (d1 + j);
      x ← vec_at t0 (d0 + j);
      if negb (y =? x) then Err (binaryOp_mismatch x y)
      else vec_set shape (dim + j) y.

Definition binaryOp (variableMetas : MetaStack) : Expected TensorShape :=
  if negb (vsize variableMetas =? 2) && negb (vsize variableMetas =? 3) then
    Err "Expected two or three inputs shapes of this operation."
  else
    m0 ← vec_at variableMetas 0;
    t0 ← shapeT m0;
    m1 ← vec_at variableMetas 1;
    t1 ← shapeT m1;
    let d0 := vsize t0 in
    let d1 := vsize t1 in
    if d1 =? 1 then Ok t0
    else
      let dim := Z.max d0 d1 in
      forM (binaryOp_body t0 t1) (upto dim) (replicate (Z.to_nat dim) 0).

(** [aten::mm]. *)
Definition mm (variableMetas : MetaStack) : Expected TensorShape :=
  _ ← RETURN_ERR_IF_NOT (vsize variableMetas =? 2)
        "Expected two inputs shapes of this operation.";
  m0 ← vec_at variableMetas 0;
  t0 ← shapeT m0;
  m1 ← vec_at variableMetas 1;
  t1 ← shapeT m1;
  if negb ((vsize t1 =? 2) && (vsize t0 =? 2)) then
    Err "Expected 2-dimensional tensor."
  else
    a1 ← vec_at t0 1;
    b0 ← vec_at t1 0;
    if negb (a1 =? b0) then
      Err ("The size of tensor a (" +:+ fmt_zu a1 +:+
               ") at dimension 1 must match the size of tensor b (" +:+
               fmt_zu b0 +:+ ") at dimension 0.")
    else
      a0 ← vec_at t0 0;
      b1 ← vec_at t1 1;
      Ok [a0; b1].

(** [aten::bmm]. *)
Definition bmm (variableMetas : MetaStack) : Expected TensorShape :=
  if negb (vsize variableMetas =? 2) then
    Err "Expected two inputs shapes of this operation."
  else
    m0 ← vec_at variableMetas 0;
    t0 ← shapeT m0;
    m1 ← vec_at variableMetas 1;
    t1 ← shapeT m1;
    if negb ((vsize t0 =? 3) && (vsize t1 =? 3)) then
      Err "Expected 3-dimensional tensor."
    else
      a0 ← vec_at t0 0;
      b0 ← vec_at t1 0;
      if negb (a0 =? b0) then
        Err "Expected tensors to have same size at dimension 0"
      else
        a2 ← vec_at t0 2;
        b1 ← vec_at t1 1;
        if negb (a2 =? b1) then
          Err ("The size of tensor a (" +:+ fmt_zu a2 +:+
                   ") at dimension 2 mustmatch the size of tensor b (" +:+
                   fmt_zu b1 +:+ ") at dimension 1")
        else
          a1 ← vec_at t0 1;
          b2 ← vec_at t1 2;
          Ok [a0; a1; b2].

(** [aten::addmm]. *)
Definition addmm (variableMetas : MetaStack) : Expected TensorShape :=
  _ ← RETURN_ERR_IF_NOT (3 <=? vsize variableMetas)
        ("Expected at least three inputs shapes, got " +:+
         fmt_zu (vsize variableMetas) +:+ ".");
  t0 ← vec_at variableMetas 0;
  t1 ← vec_at variableMetas 1;
  t2 ← vec_at variableMetas 2;
  s2 ← shapeT t2;
  t ← (if vsize s2 =? 1 then Ok t1
       else s ← mm [t1; t2]; Ok (mkMeta [ETensor s] [] Float));
  binaryOp [t0; t].

(** [aten::t]. *)
Definition t (variableMetas : MetaStack) : Expected TensorShape :=
  _ ← RETURN_ERR_IF_NOT (vsize variableMetas =? 1)
        ("Expected one input, got " +:+ fmt_zu (vsize variableMetas) +:+ ".");
  m0 ← vec_at variableMetas 0;
  t0 ← shapeT m0;
  let d0 := vsize t0 in
  if d0 =? 1 then Ok t0
  else if d0 =? 2 then
    a1 ← vec_at t0 1;
    a0 ← vec_at t0 0;
    Ok [a1; a0]
  else Err ("Expected tensor <= 2-D, got " +:+ fmt_zu d0 +:+ "-D.").

(** [aten::transpose]. *)
Definition transpose (variableMetas : MetaStack) : Expected TensorShape :=
  if negb (vsize variableMetas =? 3) then
    Err ("Expect 3 inputs, get " +:+ fmt_zu (vsize variableMetas))
  else
    m1 ← vec_at variableMetas 1;
    _ ← RETURN_ERR_IF_NOT (vsize (intValue m1) =? 1) "Expect 1 int dimension";
    m2 ← vec_at variableMetas 2;
    _ ← RETURN_ERR_IF_NOT (vsize (intValue m2) =? 1) "Expect 1 int dimension";
    m0 ← vec_at variableMetas 0;
    shape ← shapeT m0;
    let inDims := vsize shape in
    dim0 ← vec_at (intValue m1) 0;
    dim1 ← vec_at (intValue m2) 0;
    dim0 ← maybe_wrap_dim dim0 inDims;
    dim1 ← maybe_wrap_dim dim1 inDims;
    (* std::swap(shape[dim0], shape[dim1]) *)
    a ← vec_at shape dim0;
    b ← vec_at shape dim1;
    shape ← vec_set shape dim0 b;
    vec_set shape dim1 a.

Definition cat_mismatch (dim : Z) : string :=
  "Sizes of tensors must match except in dimension " +:+ fmt_zu dim +:+ ".".

(** [aten::cat]. *)
Definition cat (variableMetas : MetaStack) : Expected TensorShape :=
  _ ← RETURN_ERR_IF_NOT (vsize variableMetas =? 2)
        ("Expected 2 inputs, got " +:+ fmt_zu (vsize variableMetas) +:+ ".");
  m0 ← vec_at variableMetas 0;
  tensorListShapes ← shapeL m0;
  shape ← vec_at tensorListShapes 0;
  if vsize tensorListShapes =? 1 then Ok shape
  else
    m1 ← vec_at variableMetas 1;
    dim ← vec_at (intValue m1) 0;
    let inDims := vsize shape in
    dim ← maybe_wrap_dim dim inDims;
    _ ← forM (fun i (_ : unit) =>
           ti ← vec_at tensorListShapes i;
           _ ← RETURN_ERR_IF_NOT (inDims =? vsize ti)
                 "All inputs must have the same number of dimensions.";
           forM (fun j (_ : unit) =>
             if j =? dim then Ok tt
             else
               a ← vec_at shape j;
               b ← vec_at ti j;
               RETURN_ERR_IF_NOT (a =? b) (cat_mismatch dim))
             (upto inDims) tt)
         (tail (upto (vsize tensorListShapes))) tt;
    forM (fun i shape =>
        ti ← vec_at tensorListShapes i;
        a ← vec_at shape dim;
        b ← vec_at ti dim;
        vec_set shape dim (add64 a b))
      (tail (upto (vsize tensorListShapes))) shape.

(** [aten::flatten]. *)
Definition flatten (variableMetas : MetaStack) : Expected TensorShape :=
  if negb (vsize variableMetas =? 3) then
    Err ("Expect 3 inputs, get " +:+ fmt_zu (vsize variableMetas))
  else
    m1 ← vec_at variableMetas 1;
    _ ← RETURN_ERR_IF_NOT (vsize (intValue m1) =? 1) "Expect 1 int dimension";
    m2 ← vec_at variableMetas 2;
    _ ← RETURN_ERR_IF_NOT (vsize (intValue m2) =? 1) "Expect 1 int dimension";
    m0 ← vec_at variableMetas 0;
    t ← shapeT m0;
    let inDims := vsize t in
    startDim ← vec_at (intValue m1) 0;
    endDim ← vec_at (intValue m2) 0;
    startDim ← maybe_wrap_dim startDim inDims;
    endDim ← maybe_wrap_dim endDim inDims;
    if endDim <? startDim then
      Err "start dimension should not be larger than end dimension"
    else
      shape ← forM (fun i shape => x ← vec_at t i; Ok (shape ++ [x]))
                (upto startDim) [];
      flattenDim ← forM (fun i acc => x ← vec_at t i; Ok (mul64 acc x))
                     ((fun i => startDim + i) <$> upto (endDim - startDim + 1)) 1;
      let shape := shape ++ [flattenDim] in
      forM (fun i shape => x ← vec_at t i; Ok (shape ++ [x]))
        ((fun i => endDim + 1 + i) <$> upto (inDims - (endDim + 1))) shape.

(** The splitting arithmetic of [constantChunk], written once more in
    [chunk] in the source. *)
Definition constantChunk (variableMetas : MetaStack) (chunks dim : Z)
  : Expected TensorListShape :=
  _ ← RETURN_ERR_IF_NOT (vsize variableMetas =? 1)
        ("Expected one input, got " +:+ fmt_zu (vsize variableMetas) +:+ ".");
  m0 ← vec_at variableMetas 0;
  t ← shapeT m0;
  let inDims := vsize t in
  dim ← maybe_wrap_dim dim inDims;
  e ← vec_at t dim;
  c ← div64 (sub64 (add64 e chunks) 1) chunks;
  e' ← vec_at t dim;
  let r := sub64 e' (mul64 c (sub64 chunks 1)) in
  forM (fun i resShapes =>
      shape ← vec_set t dim (if i =? sub64 chunks 1 then r else c);
      Ok (resShapes ++ [shape]))
    (upto chunks) [].

(** [prim::FusedConcat]. *)
Definition fusedConcat (variableMetas : MetaStack) (dim : Z)
  : Expected TensorShape :=
  _ ← RETURN_ERR_IF_NOT (1 <=? vsize variableMetas)
        ("Expected at least 1 inputs, got " +:+ fmt_zu (vsize variableMetas) +:+ ".");
  m0 ← vec_at variableMetas 0;
  if vsize variableMetas =? 1 then shapeT m0
  else
    shape ← shapeT m0;
    let inDims := vsize shape in
    dim ← maybe_wrap_dim dim inDims;
    forM (fun i shape =>
        mi ← vec_at variableMetas i;
        ti ← shapeT mi;
        _ ← RETURN_ERR_IF_NOT (inDims =? vsize ti)
              "All inputs must have the same number of dimensions.";
        forM (fun j shape =>
            if j =? dim then
              a ← vec_at shape dim;
              b ← vec_at ti dim;
              vec_set shape dim (add64 a b)
            else
              a ← vec_at shape j;
              b ← vec_at ti j;
              _ ← RETURN_ERR_IF_NOT (a =? b) (cat_mismatch dim);
              Ok shape)
          (upto inDims) shape)
      (tail (upto (vsize variableMetas))) shape.

(** [aten::slice]. *)
Definition slice (variableMetas : MetaStack) : Expected TensorShape :=
  _ ← RETURN_ERR_IF_NOT (vsize variableMetas =? 5)
        ("Expected 5 inputs, got " +:+ fmt_zu (vsize variableMetas) +:+ ".");
  _ ← forM (fun i (_ : unit) =>
         mi ← vec_at variableMetas i;
         RETURN_ERR_IF_NOT (vsize (intValue mi) =? 1) "Expected int in Slice.")
       [1; 2; 3; 4] tt;
  m1 ← vec_at variableMetas 1;
  dim ← vec_at (intValue m1) 0;
  m2 ← vec_at variableMetas 2;
  start ← vec_at (intValue m2) 0;
  m3 ← vec_at variableMetas 3;
  end_ ← vec_at (intValue m3) 0;
  m4 ← vec_at variableMetas 4;
  step ← vec_at (intValue m4) 0;
  m0 ← vec_at variableMetas 0;
  shape ← shapeT m0;
  inDims ← vec_at shape dim;
  if (inDims <=? start) || (end_ <=? neg64 inDims) then vec_set shape dim 0
  else
    let start :=
      if start <=? neg64 inDims then 0
      else if (neg64 inDims <? start) && (start <? 0) then add64 start inDims
      else start in
    let end_ :=
      if inDims <? end_ then inDims
      else if (neg64 inDims <? end_) && (end_ <? 0) then add64 end_ inDims
      else end_ in
    if end_ <=? start then vec_set shape dim 0
    else
      q ← div64 (sub64 end_ start) step;
      shape ← vec_set shape dim q;
      r ← rem64 (sub64 end_ start) step;
      if negb (r =? 0) then
        x ← vec_at shape dim; vec_set shape dim (add64 x 1)
      else Ok shape.

(** State of the second loop of [reshape]: the running product [s1] and the
    flag [negIndex]. *)
Definition reshape_body (target : list Z) (i : Z) (st : Z * Z) : Expected (Z * Z) :=
  let '(s1, negIndex) := st in
  v ← vec_at target i;
  let s1 := mul64 s1 v in
  v' ← vec_at target i;
  if v' =? -1 then
    if negIndex =? -1 then Ok (s1, i)
    else Err "Unable to infer undetermined dimension"
  else Ok (s1, negIndex).

(** [aten::reshape]. *)
Definition reshape (variableMetas : MetaStack) : Expected TensorShape :=
  _ ← RETURN_ERR_IF_NOT (vsize variableMetas =? 2)
        ("Expected two inputs shapes, got " +:+ fmt_zu (vsize variableMetas) +:+ ".");
  m0 ← vec_at variableMetas 0;
  t ← shapeT m0;
  let s0 := foldl mul64 1 t in
  m1 ← vec_at variableMetas 1;
  '(s1, negIndex) ← forM (reshape_body (intValue m1)) (upto (vsize (intValue m1))) (1, -1);
  r ← rem64 s0 s1;
  _ ← RETURN_ERR_IF_NOT (r =? 0) "Reshape size is invalid for input size.";
  let shape := intValue m1 in
  if negb (negIndex =? -1) then
    q ← div64 (neg64 s0) s1;
    vec_set shape negIndex q
  else Ok shape.

(** [aten::permute]. *)
Definition permute (variableMetas : MetaStack) : Expected TensorShape :=
  _ ← RETURN_ERR_IF_NOT (vsize variableMetas =? 2)
        ("Expected two inputs shapes, got " +:+ fmt_zu (vsize variableMetas) +:+ ".");
  m0 ← vec_at variableMetas 0;
  t ← shapeT m0;
  let inDims := vsize t in
  m1 ← vec_at variableMetas 1;
  _ ← RETURN_ERR_IF_NOT (inDims =? vsize (intValue m1))
        "Shuffle for permute must has the same number of dimensions as the input tensor.";
  forM (fun dim shape =>
      _ ← RETURN_ERR_IF_NOT (0 <=? dim)
            "Negative shuffle dimensions not supported by Glow yet.";
      _ ← RETURN_ERR_IF_NOT (dim <? inDims)
            "All shuffle dimensions must be less than the rank of the input.";
      x ← vec_at t dim;
      Ok (shape ++ [x]))
    (intValue m1) [].

(** [prim::ListConstruct]. *)
Definition listConstruct (variableMetas : MetaStack) : Expected TensorListShape :=
  _ ← RETURN_ERR_IF_NOT (1 <=? vsize variableMetas)
        ("Expected at least 1 inputs, got " +:+ fmt_zu (vsize variableMetas) +:+ ".");
  m0 ← vec_at variableMetas 0;
  if vsize (intValue m0) =? 1 then
    vals ← forM (fun ele vals =>
               _ ← RETURN_ERR_IF_NOT (vsize (intValue ele) =? 1)
                     "Expected int type input in listConstruct.";
               x ← vec_at (intValue ele) 0;
               Ok (vals ++ [x]))
             variableMetas [];
    Ok [vals]
  else
    forM (fun i listValueOrShape =>
        mi ← vec_at variableMetas i;
        s ← shapeT mi;
        vec_set listValueOrShape i s)
      (upto (vsize variableMetas))
      (replicate (length variableMetas) []).

(** [shape.insert(shape.begin() + dim, x)]. *)
Definition vec_insert {A : Type} (v : list A) (dim : Z) (x : A) : Expected (list A) :=
  if (0 <=? dim) && (dim <=? vsize v)
  then Ok (take (Z.to_nat dim) v ++ x :: drop (Z.to_nat dim) v)
  else Crash OutOfRange.

(** [glow::fused_stack]. *)
Definition fusedStack (variableMetas : MetaStack) (dim : Z) : Expected TensorShape :=
  _ ← RETURN_ERR_IF_NOT (1 <=? vsize variableMetas)
        ("Expected at least 1 inputs, got " +:+ fmt_zu (vsize variableMetas) +:+ ".");
  m0 ← vec_at variableMetas 0;
  shape ← shapeT m0;
  if vsize variableMetas =? 1 then Ok shape
  else
    let inDims := vsize shape in
    dim ← maybe_wrap_dim dim (add64 inDims 1);
    _ ← forM (fun eleShape (_ : unit) =>
           s ← shapeT eleShape;
           RETURN_ERR_IF_NOT (bool_decide (s = shape))
             "All inputs must have same shape")
         variableMetas tt;
    vec_insert shape dim (vsize variableMetas).

(** [hasEndOffset_ ? 1 : 0]. *)
Definition endOffset (hasEndOffset_ : bool) : Z := if hasEndOffset_ then 1 else 0.

(** [aten::embedding_bag]. *)
Definition embeddingBag (hasEndOffset_ : bool) (variableMetas : MetaStack)
  : Expected TensorShape :=
  _ ← RETURN_ERR_IF_NOT (vsize variableMetas =? 8)
        ("Expected 8 inputs, got " +:+ fmt_zu (vsize variableMetas) +:+ ".");
  m0 ← vec_at variableMetas 0;
  t0 ← shapeT m0;
  m1 ← vec_at variableMetas 1;
  t1 ← shapeT m1;
  m2 ← vec_at variableMetas 2;
  t2 ← shapeT m2;
  if vsize t1 =? 1 then
    _ ← RETURN_ERR_IF_NOT (vsize t2 =? 1)
          ("Expected 1D offset, got " +:+ fmt_zu (vsize t2) +:+ ".");
    o ← vec_at t2 0;
    w ← vec_at t0 1;
    Ok [sub64 o (endOffset hasEndOffset_); w]
  else if vsize t1 =? 2 then
    n ← vec_at t1 0;
    w ← vec_at t0 1;
    Ok [n; w]
  else Err "Only support 1D and 2D Input in Embedding bag.".

(** [fb::embedding_bag_byte_rowwise_offsets]. *)
Definition embeddingBagByteRowwiseOffsets (hasEndOffset_ : bool)
    (variableMetas : MetaStack) : Expected TensorShape :=
  _ ← RETURN_ERR_IF_NOT (vsize variableMetas =? 8)
        ("Expected 8 inputs, got " +:+ fmt_zu (vsize variableMetas) +:+ ".");
  m0 ← vec_at variableMetas 0;
  t0 ← shapeT m0;
  m2 ← vec_at variableMetas 2;
  t2 ← shapeT m2;
  o ← vec_at t2 0;
  w ← vec_at t0 1;
  Ok [sub64 o (endOffset hasEndOffset_); sub64 w 8].

(** [aten::chunk]: the chunk count and the axis are operands. *)
Definition chunk (variableMetas : MetaStack) : Expected TensorListShape :=
  _ ← RETURN_ERR_IF_NOT (vsize variableMetas =? 3)
        ("Expected one input, got " +:+ fmt_zu (vsize variableMetas) +:+ ".");
  m0 ← vec_at variableMetas 0;
  t ← shapeT m0;
  m1 ← vec_at variableMetas 1;
  chunks ← vec_at (intValue m1) 0;
  m2 ← vec_at variableMetas 2;
  dim ← vec_at (intValue m2) 0;
  let inDims := vsize t in
  dim ← maybe_wrap_dim dim inDims;
  e ← vec_at t dim;
  c ← div64 (sub64 (add64 e chunks) 1) chunks;
  e' ← vec_at t dim;
  let r := sub64 e' (mul64 c (sub64 chunks 1)) in
  forM (fun i resShapes =>
      shape ← vec_set t dim (if i =? sub64 chunks 1 then r else c);
      Ok (resShapes ++ [shape]))
    (upto chunks) [].

(** [quantized::embedding_bag_4bit_rowwise_offsets]. *)
Definition embeddingBag4BitRowwiseOffsets (hasEndOffset_ : bool)
    (variableMetas : MetaStack) : Expected TensorShape :=
  _ ← RETURN_ERR_IF_NOT (vsize variableMetas =? 9)
        ("Expected 9 inputs, got " +:+ fmt_zu (vsize variableMetas) +:+ ".");
  m0 ← vec_at variableMetas 0;
  weightShape ← shapeT m0;
  m2 ← vec_at variableMetas 2;
  offsetsShape ← shapeT m2;
  o ← vec_at offsetsShape 0;
  w ← vec_at weightShape 1;
  Ok [sub64 o (endOffset hasEndOffset_); mul64 (sub64 w 4) 2].

(** [aten::stack]. *)
Definition stack (variableMetas : MetaStack) : Expected TensorShape :=
  _ ← RETURN_ERR_IF_NOT (vsize variableMetas =? 2)
        ("Expected 2 input, got " +:+ fmt_zu (vsize variableMetas) +:+ ".");
  m0 ← vec_at variableMetas 0;
  shapes ← shapeL m0;
  shape ← vec_at shapes 0;
  m1 ← vec_at variableMetas 1;
  dim ← vec_at (intValue m1) 0;
  let inDims := vsize shape in
  dim ← maybe_wrap_dim dim inDims;
  _ ← forM (fun i (_ : unit) =>
         si ← vec_at shapes i;
         RETURN_ERR_IF_NOT (bool_decide (shape = si))
           "All tensors need to be of the same shape.")
       (tail (upto (vsize shapes))) tt;
  vec_insert shape dim (vsize shapes).

(** [prim::ListUnpack]. *)
Definition listUnpack (variableMetas : MetaStack) : Expected (list TensorShape) :=
  _ ← RETURN_ERR_IF_NOT (vsize variableMetas =? 1)
        ("Expected 1 input, got " +:+ fmt_zu (vsize variableMetas) +:+ ".");
  m0 ← vec_at variableMetas 0;
  t ← shapeL m0;
  forM (fun i shapes => ti ← vec_at t i; Ok (shapes ++ [ti]))
    (upto (vsize t)) [].

(** ** Graphs

    Modelled from the spec: graphs, nodes, values and example inputs are
    torch's ([torch::jit::Graph], [Node], [Value], [at::IValue]).  A value is
    known by its identity only; a node has a kind (its qualified name),
    ordered inputs and outputs, the declared type of its output, integer or
    tensor attributes by name, and possibly a subgraph. *)

Definition Value : Type := nat.

Inductive JitType : Type :=
| FloatType | IntType | BoolType | NoneType | TensorType | StringType
| ListType (elem : JitType)
| OptionalType (elem : JitType)
| OtherType.

#[global] Instance JitType_eq_dec : EqDecision JitType.
Proof. solve_decision. Defined.

Inductive AttrValue : Type :=
| AInt (i : Z)
| ATensor (sizes : list Z)
| AOther.

Inductive Graph : Type :=
| mkGraph (inputs : list Value) (nodes : list Node) (outputs : list Value)
with Node : Type :=
| mkNode (kind : string) (inputs outputs : list Value) (type : JitType)
         (attrs : gmap string AttrValue) (subgraph : option Graph).

Definition g_inputs (g : Graph) : list Value :=
  match g with mkGraph i _ _ => i end.
Definition g_nodes (g : Graph) : list Node :=
  match g with mkGraph _ n _ => n end.
Definition g_outputs (g : Graph) : list Value :=
  match g with mkGraph _ _ o => o end.

Definition n_kind (n : Node) : string :=
  match n with mkNode k _ _ _ _ _ => k end.
Definition n_inputs (n : Node) : list Value :=
  match n with mkNode _ i _ _ _ _ => i end.
Definition n_outputs (n : Node) : list Value :=
  match n with mkNode _ _ o _ _ _ => o end.
Definition n_type (n : Node) : JitType :=
  match n with mkNode _ _ _ ty _ _ => ty end.
Definition n_attrs (n : Node) : gmap string AttrValue :=
  match n with mkNode _ _ _ _ a _ => a end.
Definition n_subgraph (n : Node) : option Graph :=
  match n with mkNode _ _ _ _ _ g => g end.

(** [node->output()]: the node must have exactly one output. *)
Definition n_output (n : Node) : Expected Value :=
  match n_outputs n with
  | [v] => Ok v
  | _ => Crash TorchError
  end.

(** [node->i(name)] and [node->t(name).sizes()]. *)
Definition n_i (n : Node) (name : string) : Expected Z :=
  match n_attrs n !! name with
  | Some (AInt i) => Ok i
  | _ => Crash TorchError
  end.

Definition n_t_sizes (n : Node) (name : string) : Expected (list Z) :=
  match n_attrs n !! name with
  | Some (ATensor sizes) => Ok sizes
  | _ => Crash TorchError
  end.

(** Modelled from the spec: an example input ([at::IValue]) is a tensor
    with concrete dimensions, a boolean, an integer, a list of integers, or
    something else. *)
Inductive IValue : Type :=
| ITensor (sizes : list Z) (dt : ScalarType)
| IBool (b : bool)
| IInt (i : Z)
| IIntList (l : list Z)
| IOther.

(** Modelled from the spec: [IValue::toInt] belongs to the torch library.
    The example inputs keep boolean scalars apart from integer scalars, and
    torch's [toInt] asserts [isInt()]: it returns the value of an integer
    and throws on every other kind, a boolean included. *)
Definition toInt (input : IValue) : Expected Z :=
  match input with
  | IInt v => Ok v
  | _ => Crash TorchError
  end.

(** [torch::empty(sizes, dtype)]. *)
Definition torch_empty (sizes : list Z) (dt : ScalarType) : Expected IValue :=
  if forallb (fun s => 0 <=? s) sizes then Ok (ITensor sizes dt)
  else Crash TorchError.

(** [CHECK(cond)]. *)
Definition CHECK (cond : bool) : Expected unit :=
  if cond then Ok tt else Crash CheckFailed.

(** ** The value map *)

Abbreviation ShapeMap := (gmap Value VariableMeta).

(** [shapeMap_[v]], which default-constructs a missing entry. *)
Definition entry (shapeMap_ : ShapeMap) (v : Value) : VariableMeta :=
  default emptyMeta (shapeMap_ !! v).

(** [shapeMap_[v].listOfShape.emplace_back(e)]. *)
Definition emplace_shape (shapeMap_ : ShapeMap) (v : Value) (e : ElemShape)
  : ShapeMap :=
  let r := entry shapeMap_ v in
  <[v := mkMeta (listOfShape r ++ [e]) (intValue r) (dtype r)]> shapeMap_.

(** [shapeMap_[v].intValue = l]. *)
Definition set_intValue (shapeMap_ : ShapeMap) (v : Value) (l : list Z)
  : ShapeMap :=
  let r := entry shapeMap_ v in
  <[v := mkMeta (listOfShape r) l (dtype r)]> shapeMap_.

(** [shapeMap_[a] = shapeMap_[b]]. *)
Definition copy_entry (shapeMap_ : ShapeMap) (a b : Value) : ShapeMap :=
  let r := entry shapeMap_ b in
  <[a := r]> (<[b := r]> shapeMap_).

(** ** Constants *)

(** [prim::Constant]: shape of a tensor literal, or the value of a scalar. *)
Definition primConstant (node : Node) : Expected TensorShape :=
  _ ← n_output node;
  let type := n_type node in
  if bool_decide (type = FloatType) then Ok [1]
  else if bool_decide (type = IntType) then
    v ← n_i node "value"; Ok [v]
  else if bool_decide (type = BoolType) then
    v ← n_i node "value"; Ok [v]
  else if bool_decide (type = NoneType) then Ok []
  else if bool_decide (type = TensorType) then
    n_t_sizes node "value"
  else Ok [].

(** ** The dispatcher *)

(** [getNodeInputShape]: the records of the inputs of a node, in order. *)
Definition getNodeInputShape (node : Node) (shapeMap_ : ShapeMap)
  : Expected MetaStack :=
  forM (fun input inputMetas =>
      _ ← CHECK (bool_decide (is_Some (shapeMap_ !! input)));
      Ok (inputMetas ++ [entry shapeMap_ input]))
    (n_inputs node) [].

(** [outputShapesOrValues[0] = f(...)] on the one-element vector. *)
Definition single (e : Expected TensorShape) : Expected (list TensorShape) :=
  s ← e; Ok [s].

(** The case of [aten::tanh], [aten::relu] and [aten::sigmoid], written
    inline in [shapeOnNode]. *)
Definition unary (inputMetas : MetaStack) : Expected TensorShape :=
  _ ← RETURN_ERR_IF_NOT (vsize inputMetas =? 1)
        "Expected 1 input shape for operators.";
  m0 ← vec_at inputMetas 0;
  shapeT m0.

(** The first half of [shapeOnNode]: choosing the shape function. *)
Definition dispatch (hasEndOffset_ : bool) (node : Node) (inputMetas : MetaStack)
  : Expected (list TensorShape) :=
  let symbol := n_kind node in
  let is_ (name : string) : bool := String.eqb symbol name in
  if is_ "glow::fused_stack" then
    dim ← n_i node "dim"; single (fusedStack inputMetas dim)
  else if is_ "fb::embedding_bag_byte_rowwise_offsets"
       || is_ "quantized::embedding_bag_byte_rowwise_offsets" then
    single (embeddingBagByteRowwiseOffsets hasEndOffset_ inputMetas)
  else if is_ "quantized::embedding_bag_4bit_rowwise_offsets" then
    single (embeddingBag4BitRowwiseOffsets hasEndOffset_ inputMetas)
  else if is_ "prim::Constant" then single (primConstant node)
  else if is_ "aten::tanh" || is_ "aten::relu" || is_ "aten::sigmoid" then
    single (unary inputMetas)
  else if is_ "aten::sub" || is_ "aten::pow" || is_ "aten::mul" || is_ "aten::add" then
    single (binaryOp inputMetas)
  else if is_ "aten::mm" then single (mm inputMetas)
  else if is_ "aten::addmm" then single (addmm inputMetas)
  else if is_ "aten::bmm" then single (bmm inputMetas)
  else if is_ "aten::t" then single (t inputMetas)
  else if is_ "aten::transpose" then single (transpose inputMetas)
  else if is_ "aten::flatten" then single (flatten inputMetas)
  else if is_ "prim::FusedConcat" then
    dim ← n_i node "dim"; single (fusedConcat inputMetas dim)
  else if is_ "prim::ConstantChunk" then
    chunks ← n_i node "chunks";
    dim ← n_i node "dim";
    constantChunk inputMetas chunks dim
  else if is_ "aten::chunk" then chunk inputMetas
  else if is_ "prim::ListConstruct" then listConstruct inputMetas
  else if is_ "aten::slice" then single (slice inputMetas)
  else if is_ "aten::reshape" then single (reshape inputMetas)
  else if is_ "aten::cat" then single (cat inputMetas)
  else if is_ "aten::permute" then single (permute inputMetas)
  else if is_ "aten::embedding_bag" then
    single (embeddingBag hasEndOffset_ inputMetas)
  else if is_ "aten::stack" then single (stack inputMetas)
  else if is_ "prim::ListUnpack" then listUnpack inputMetas
  else Err ("Node's operator " +:+ symbol +:+ " is not supported").

(** Is a list element type a tensor, or an optional tensor? *)
Definition tensorElem (ty : JitType) : Expected bool :=
  match ty with
  | ListType TensorType => Ok true
  | ListType (OptionalType TensorType) => Ok true
  | ListType _ => Ok false
  | _ => Crash TorchError   (* cast<ListType>() is null *)
  end.

(** The second half of [shapeOnNode]: storing the result. *)
Definition package (node : Node) (outputShapesOrValues : list TensorShape)
    (shapeMap_ : ShapeMap) : Expected ShapeMap :=
  let symbol := n_kind node in
  let is_ (name : string) : bool := String.eqb symbol name in
  if is_ "prim::Constant" then
    out ← n_output node;
    if bool_decide (n_type node = TensorType) then
      s ← vec_at outputShapesOrValues 0;
      Ok (emplace_shape shapeMap_ out (ETensor s))
    else
      let shapeMap_ := emplace_shape shapeMap_ out (ETensor [1]) in
      s ← vec_at outputShapesOrValues 0;
      Ok (set_intValue shapeMap_ out s)
  else if is_ "prim::ListConstruct" then
    out ← n_output node;
    tens ← tensorElem (n_type node);
    if tens : bool then
      Ok (emplace_shape shapeMap_ out (EList outputShapesOrValues))
    else
      s ← vec_at outputShapesOrValues 0;
      let shapeMap_ := emplace_shape shapeMap_ out (ETensor [vsize s; 1]) in
      Ok (set_intValue shapeMap_ out s)
  else if is_ "aten::embedding_bag" then
    out ← vec_at (n_outputs node) 0;
    s ← vec_at outputShapesOrValues 0;
    Ok (emplace_shape shapeMap_ out (ETensor s))
  else if is_ "aten::chunk" then
    out ← n_output node;
    Ok (emplace_shape shapeMap_ out (EList outputShapesOrValues))
  else
    forM (fun i shapeMap_ =>
        out ← vec_at (n_outputs node) i;
        s ← vec_at outputShapesOrValues i;
        Ok (emplace_shape shapeMap_ out (ETensor s)))
      (upto (vsize (n_outputs node))) shapeMap_.

Definition shapeOnNode (hasEndOffset_ : bool) (node : Node) (shapeMap_ : ShapeMap)
  : Expected ShapeMap :=
  inputMetas ← getNodeInputShape node shapeMap_;
  outputShapesOrValues ← dispatch hasEndOffset_ node inputMetas;
  package node outputShapesOrValues shapeMap_.

(** ** Input seeding *)

(** The chain of tests on the kind of one example input, with the shape
    and the integers it gives. *)
Definition classifyInput (input : IValue) : Expected (TensorShape * list Z) :=
  match input with
  | ITensor sizes _ => Ok (sizes, [])
  | IBool _ | IInt _ => v ← toInt input; Ok ([1], [v])
  | IIntList l => Ok ([vsize l; 1], l)
  | IOther => Err "Input type doesn't support yet."
  end.

Definition getGraphInputShape (graphInputs : list Value) (inputs : list IValue)
    (shapeMap_ : ShapeMap) : Expected ShapeMap :=
  forM (fun i shapeMap_ =>
      gInName ← vec_at graphInputs i;
      input ← vec_at inputs i;
      '(shape, intValue) ← classifyInput input;
      let shapeMap_ := emplace_shape shapeMap_ gInName (ETensor shape) in
      Ok (set_intValue shapeMap_ gInName intValue))
    (upto (vsize inputs)) shapeMap_.

(** ** The graph walker *)

(** The example inputs of a subgraph: an empty tensor of the recorded shape
    for each input of the fusion node. *)
Definition subgraphInputs (node : Node) (shapeMap_ : ShapeMap)
  : Expected (list IValue) :=
  forM (fun i subgraphInputs =>
      _ ← CHECK (bool_decide (is_Some (shapeMap_ !! i)));
      s ← shapeT (entry shapeMap_ i);
      x ← torch_empty s (dtype (entry shapeMap_ i));
      Ok (subgraphInputs ++ [x]))
    (n_inputs node) [].

(** The branch of [runRecursively] for a node with a subgraph; [recurse] is
    the walk of that subgraph and [subOutputs] its outputs. *)
Definition fusionNode (fusionNodeSymbol_ : string)
    (recurse : list IValue -> ShapeMap -> Expected ShapeMap)
    (subOutputs : list Value) (node : Node) (shapeMap_ : ShapeMap)
  : Expected ShapeMap :=
  _ ← CHECK (String.prefix fusionNodeSymbol_ (n_kind node));
  subgraphInputs ← subgraphInputs node shapeMap_;
  shapeMap_ ← recurse subgraphInputs shapeMap_;
  _ ← CHECK (vsize subOutputs =? vsize (n_outputs node));
  forM (fun i shapeMap_ =>
      o ← vec_at (n_outputs node) i;
      so ← vec_at subOutputs i;
      Ok (copy_entry shapeMap_ o so))
    (upto (vsize subOutputs)) shapeMap_.

Fixpoint runRecursively (fusionNodeSymbol_ : string) (hasEndOffset_ : bool)
    (graph : Graph) (inputs : list IValue) (shapeMap_ : ShapeMap) {struct graph}
  : Expected ShapeMap :=
  match graph with
  | mkGraph graphInputs nodes _ =>
    shapeMap_ ← getGraphInputShape graphInputs inputs shapeMap_;
    (fix walk (nodes : list Node) (shapeMap_ : ShapeMap) {struct nodes}
       : Expected ShapeMap :=
       match nodes with
       | [] => Ok shapeMap_
       | node :: rest =>
         shapeMap_ ←
           match node with
           | mkNode _ _ _ _ _ (Some subgraph) =>
             fusionNode fusionNodeSymbol_
               (runRecursively fusionNodeSymbol_ hasEndOffset_ subgraph)
               (g_outputs subgraph) node shapeMap_
           | mkNode _ _ _ _ _ None => shapeOnNode hasEndOffset_ node shapeMap_
           end;
         walk rest shapeMap_
       end) nodes shapeMap_
  end.

(** One iteration of the loop of [runRecursively]. *)
Definition visitNode (fusionNodeSymbol_ : string) (hasEndOffset_ : bool)
    (node : Node) (shapeMap_ : ShapeMap) : Expected ShapeMap :=
  match n_subgraph node with
  | Some subgraph =>
    fusionNode fusionNodeSymbol_
      (runRecursively fusionNodeSymbol_ hasEndOffset_ subgraph)
      (g_outputs subgraph) node shapeMap_
  | None => shapeOnNode hasEndOffset_ node shapeMap_
  end.

(** ** The engine *)

Record ShapeInferenceEngine : Type := mkEngine {
  graph_ : Graph;
  inputs_ : list IValue;
  fusionNodeSymbol_ : string;
  hasEndOffset_ : bool;
  shapeMap_ : ShapeMap;
  outputShape_ : MetaStack
}.

Definition generateGraphOutputShape (graphOutputs : list Value)
    (shapeMap_ : ShapeMap) (outputShape_ : MetaStack) : Expected MetaStack :=
  forM (fun output outputShape_ =>
      _ ← CHECK (bool_decide (is_Some (shapeMap_ !! output)));
      Ok (outputShape_ ++ [entry shapeMap_ output]))
    graphOutputs outputShape_.

Definition run (e : ShapeInferenceEngine) : Expected ShapeInferenceEngine :=
  _ ← RETURN_ERR_IF_NOT (vsize (inputs_ e) =? vsize (g_inputs (graph_ e)))
        "Number of inputs mismatch between Graph and actual inputs";
  m ← runRecursively (fusionNodeSymbol_ e) (hasEndOffset_ e) (graph_ e)
        (inputs_ e) (shapeMap_ e);
  out ← generateGraphOutputShape (g_outputs (graph_ e)) m (outputShape_ e);
  Ok (mkEngine (graph_ e) (inputs_ e) (fusionNodeSymbol_ e) (hasEndOffset_ e)
        m out).

Definition getGraphOutputShape (e : ShapeInferenceEngine) : MetaStack :=
  outputShape_ e.

Definition getVariableMap (e : ShapeInferenceEngine) : ShapeMap :=
  shapeMap_ e.

(** ** Reference definitions

    The notions the specification compares the code with, written from
    its words. *)

(** Standard broadcasting of two shapes given trailing extent first. *)
Fixpoint broadcast_rev (a b : list Z) : option (list Z) :=
  match a, b with
  | [], _ => Some b
  | _, [] => Some a
  | x :: a', y :: b' =>
    r ← broadcast_rev a' b';
    if x =? y then Some (x :: r)
    else if x =? 1 then Some (y :: r)
    else if y =? 1 then Some (x :: r)
    else None
  end.

(** Standard trailing-dimension broadcast of two shapes. *)
Definition broadcast_shape (a b : TensorShape) : option TensorShape :=
  reverse <$> broadcast_rev (reverse a) (reverse b).

(** Ceiling of [a / b] for a positive [b]. *)
Definition ceil_div (a b : Z) : Z := - ((- a) / b).

(** Product of the extents of a shape. *)
Definition product (l : list Z) : Z := foldr Z.mul 1 l.

(** The records the engine stores: for a tensor of a given shape, for an
    integer scalar, for a list of integers. *)
Definition tensor (s : TensorShape) : VariableMeta := mkMeta [ETensor s] [] Float.
Definition scalar (v : Z) : VariableMeta := mkMeta [ETensor [1]] [v] Float.
Definition intList (l : list Z) : VariableMeta :=
  mkMeta [ETensor [vsize l; 1]] l Float.

(** Python's rule for a negative index into a sequence of length [n]. *)
Definition wrap_axis (d n : Z) : Z := if d <? 0 then d + n else d.

(** Exchange of the entries [i] and [j] of a list. *)
Definition swap {A : Type} (l : list A) (i j : nat) : list A :=
  match l !! i, l !! j with
  | Some a, Some b => <[j := a]> (<[i := b]> l)
  | _, _ => l
  end.

(** Number of elements of Python's [range(e)[start:end:step]] for a
    positive [step]: both bounds wrap when negative and are clamped into
    [[0, e]]. *)
Definition py_slice_len (e start end_ step : Z) : Z :=
  let lo := if start <? 0 then Z.max 0 (start + e) else Z.min start e in
  let hi := if end_ <? 0 then Z.max 0 (end_ + e) else Z.min end_ e in
  if hi <=? lo then 0 else ceil_div (hi - lo) step.

(** Number of [-1] entries of a target shape, the position of the first
    one, the product of the other entries, and the target with every [-1]
    replaced by [q]. *)
Definition unknowns (target : list Z) : nat := count_occ Z.eq_dec target (-1).

Fixpoint find_neg (target : list Z) : nat :=
  match target with
  | [] => 0
  | v :: l' => if v =? -1 then 0 else S (find_neg l')
  end.

Definition known_product (target : list Z) : Z :=
  product (filter (fun v => v ≠ -1) target).

Definition resolve (target : list Z) (q : Z) : list Z :=
  (fun v => if v =? -1 then q else v) <$> target.

(** What the specification asks of the record seeded for an example
    input. *)
Definition seeded (input : IValue) (r : VariableMeta) : Prop :=
  match input with
  | ITensor sizes _ => listOfShape r = [ETensor sizes] ∧ intValue r = []
  | IBool b => listOfShape r = [ETensor [1]] ∧ intValue r = [Z.b2z b]
  | IInt v => listOfShape r = [ETensor [1]] ∧ intValue r = [v]
  | IIntList l => listOfShape r = [ETensor [vsize l; 1]] ∧ intValue r = l
  | IOther => False
  end.

(** ** Loops as recursions

    Four loops of the source run over an index range and read their
    vectors by index.  Each is restated here as a structural recursion
    over the vectors themselves; the lemmas below prove the restatement
    equal to the loop of the embedding. *)

(** The loop of [binaryOp] read on the reversed shapes: what it does with
    the extents it meets, trailing extent first, pushing each result in
    front of [acc]. *)
Fixpoint binaryOp_rev (r0 r1 acc : list Z) {struct r0} : Expected (list Z) :=
  match r0, r1 with
  | [], _ => Ok (reverse r1 ++ acc)
  | x :: r0', [] =>
    if x =? 1 then Crash OutOfRange else binaryOp_rev r0' [] (x :: acc)
  | x :: r0', y :: r1' =>
    if x =? 1 then binaryOp_rev r0' r1' (y :: acc)
    else if y =? 1 then binaryOp_rev r0' r1' (x :: acc)
    else if negb (y =? x) then Err (binaryOp_mismatch x y)
    else binaryOp_rev r0' r1' (y :: acc)
  end.

(** The second loop of [reshape] as a scan of the target from position
    [i]: the running product and the position of the [-1] seen so far. *)
Fixpoint reshape_scan (l : list Z) (i s1 negIndex : Z) : Expected (Z * Z) :=
  match l with
  | [] => Ok (s1, negIndex)
  | v :: l' =>
    if v =? -1 then
      if negIndex =? -1 then reshape_scan l' (i + 1) (mul64 s1 v) i
      else Err "Unable to infer undetermined dimension"
    else reshape_scan l' (i + 1) (mul64 s1 v) negIndex
  end.

(** The kinds of example input that seeding gets through: tensors,
    integers and lists of integers. *)
Definition supported (input : IValue) : Prop :=
  match input with
  | ITensor _ _ | IInt _ | IIntList _ => True
  | IBool _ | IOther => False
  end.

(** The loop of [getGraphInputShape] on the graph inputs and example
    inputs still to be visited. *)
Fixpoint seed_inputs (graphInputs : list Value) (inputs : list IValue)
    (shapeMap_ : ShapeMap) {struct inputs} : Expected ShapeMap :=
  match inputs, graphInputs with
  | [], _ => Ok shapeMap_
  | _ :: _, [] => Crash OutOfRange
  | input :: inputs', gInName :: graphInputs' =>
    '(shape, intValue) ← classifyInput input;
    seed_inputs graphInputs' inputs'
      (set_intValue (emplace_shape shapeMap_ gInName (ETensor shape))
         gInName intValue)
  end.

(** The loop that copies the records of the subgraph outputs to the
    outputs of the fusion node, on the outputs still to be visited. *)
Fixpoint copy_outputs (outs subs : list Value) (shapeMap_ : ShapeMap)
  : ShapeMap :=
  match outs, subs with
  | o :: outs', so :: subs' => copy_outputs outs' subs' (copy_entry shapeMap_ o so)
  | _, _ => shapeMap_
  end.

(** ** Examples *)

(** The fusion example of the specification: a fusion node around the
    subgraph [x, y -> mm(x, y)], run on tensors of shapes [[4, 5]] and
    [[5, 6]]. *)
Definition mm_subgraph : Graph :=
  mkGraph [4; 5]%nat [mkNode "aten::mm" [4; 5]%nat [6]%nat TensorType ∅ None]
          [6]%nat.

Definition mm_fusion_node : Node :=
  mkNode "glow::FusionGroup" [1; 2]%nat [3]%nat TensorType ∅ (Some mm_subgraph).

Definition mm_fusion_engine : ShapeInferenceEngine :=
  mkEngine (mkGraph [1; 2]%nat [mm_fusion_node] [3]%nat)
           [ITensor [4; 5] Float; ITensor [5; 6] Float]
           "glow::FusionGroup" true ∅ [].

(** The value map of the fusion example before the fusion node is visited
    and after the walk of its subgraph. *)
Definition mm_outer_map : ShapeMap :=
  <[1%nat := tensor [4; 5]]> (<[2%nat := tensor [5; 6]]> ∅).

Definition mm_inner_map : ShapeMap :=
  <[4%nat := tensor [4; 5]]> (<[5%nat := tensor [5; 6]]>
    (<[6%nat := tensor [4; 6]]> mm_outer_map)).

(** Engines for the cases of input seeding. *)
Definition one_input_graph : Graph :=
  mkGraph [1]%nat [mkNode "aten::relu" [1]%nat [2]%nat TensorType ∅ None] [2]%nat.

Definition engine_on (inputs : list IValue) : ShapeInferenceEngine :=
  mkEngine one_input_graph inputs "glow::FusionGroup" true ∅ [].

(** A graph adding a tensor of rank 0 to a tensor of shape [[1]]. *)
Definition add_rank0_engine : ShapeInferenceEngine :=
  mkEngine
    (mkGraph [1; 2]%nat [mkNode "aten::add" [1; 2]%nat [3]%nat TensorType ∅ None]
             [3]%nat)
    [ITensor [1] Float; ITensor [] Float] "glow::FusionGroup" true ∅ [].

(** The end-to-end example of the specification:
    [input -> add(const 1) -> relu -> output]. *)
Definition add_relu_engine : ShapeInferenceEngine :=
  mkEngine
    (mkGraph [1]%nat
       [mkNode "prim::Constant" [] [2]%nat IntType {["value" := AInt 1]} None;
        mkNode "aten::add" [1; 2; 2]%nat [3]%nat TensorType ∅ None;
        mkNode "aten::relu" [3]%nat [4]%nat TensorType ∅ None]
       [4]%nat)
    [ITensor [3; 4] Float] "glow::FusionGroup" true ∅ [].

(** ** Notions for the further properties *)

(** Sum of a list of integers, the extent of a shape at an axis (0 where
    the shape has none), and agreement of a shape with another one
    everywhere but at one axis. *)
Definition zsum (l : list Z) : Z := foldr Z.add 0 l.

Definition extent_at (w : nat) (s : list Z) : Z := default 0 (s !! w).

Definition agree (w : nat) (s0 s : list Z) : Prop :=
  length s = length s0 ∧ ∀ j : nat, j ≠ w -> s !! j = s0 !! j.

(** A shape with one more extent [x] put in at position [w]. *)
Definition insert_at (w : nat) (x : Z) (s : list Z) : list Z :=
  take w s ++ x :: drop w s.

(** The names that [shapeOnNode] knows. *)
Definition catalog : list string :=
  ["glow::fused_stack"; "fb::embedding_bag_byte_rowwise_offsets";
   "quantized::embedding_bag_byte_rowwise_offsets";
   "quantized::embedding_bag_4bit_rowwise_offsets"; "prim::Constant";
   "aten::tanh"; "aten::relu"; "aten::sigmoid"; "aten::sub"; "aten::pow";
   "aten::mul"; "aten::add"; "aten::mm"; "aten::addmm"; "aten::bmm";
   "aten::t"; "aten::transpose"; "aten::flatten"; "prim::FusedConcat";
   "prim::ConstantChunk"; "aten::chunk"; "prim::ListConstruct";
   "aten::slice"; "aten::reshape"; "aten::cat"; "aten::permute";
   "aten::embedding_bag"; "aten::stack"; "prim::ListUnpack"].

(** The test that [cat] makes of one further shape [ti] against the first
    shape [s0], for the wrapped axis [w]. *)
Definition cat_test (s0 : list Z) (w : nat) (ti : list Z) (_ : unit)
  : Expected unit :=
  _ ← RETURN_ERR_IF_NOT (vsize s0 =? vsize ti)
        "All inputs must have the same number of dimensions.";
  forM (fun j (_ : unit) =>
          if j =? Z.of_nat w then Ok tt
          else
            a ← vec_at s0 j;
            b ← vec_at ti j;
            RETURN_ERR_IF_NOT (a =? b) (cat_mismatch (Z.of_nat w)))
    (upto (vsize s0)) tt.


(** The addition that [cat] makes for one further shape [ti] on the running
    shape, at the wrapped axis [w]. *)
Definition cat_add (w : nat) (ti shape : list Z) : Expected (list Z) :=
  a ← vec_at shape (Z.of_nat w);
  b ← vec_at ti (Z.of_nat w);
  vec_set shape (Z.of_nat w) (add64 a b).

(** The step that [fusedConcat] makes for one further shape [ti] on the
    running shape: test and addition in one pass over the axes. *)
Definition fused_step (s0 : list Z) (w : nat) (ti shape : list Z)
  : Expected (list Z) :=
  _ ← RETURN_ERR_IF_NOT (vsize s0 =? vsize ti)
        "All inputs must have the same number of dimensions.";
  forM (fun j shape =>
          if j =? Z.of_nat w then
            a ← vec_at shape (Z.of_nat w);
            b ← vec_at ti (Z.of_nat w);
            vec_set shape (Z.of_nat w) (add64 a b)
          else
            a ← vec_at shape j;
            b ← vec_at ti j;
            _ ← RETURN_ERR_IF_NOT (a =? b) (cat_mismatch (Z.of_nat w));
            Ok shape)
    (upto (vsize s0)) shape.

(** What a visit of a node may do to the map, [outs] being the outputs of
    the node: the entries of other values stay, and the shape list of every
    value keeps what it held, at its front. *)
Definition extends (outs : list Value) (m m' : ShapeMap) : Prop :=
  (∀ v, v ∉ outs -> m' !! v = m !! v) ∧
  (∀ v, listOfShape (entry m v) `prefix_of` listOfShape (entry m' v)).

(** The shapes [shapes] stored for the outputs [outs], position by
    position, each at the back of the shape list of its output. *)
Definition store_outputs (outs : list Value) (shapes : list (list Z))
    (m : ShapeMap) : ShapeMap :=
  foldl (fun m os => emplace_shape m os.1 (ETensor os.2)) m (zip outs shapes).

(** The names for which [shapeOnNode] stores the result in a way of their
    own. *)
Definition packaged_apart : list string :=
  ["prim::Constant"; "prim::ListConstruct"; "aten::embedding_bag"; "aten::chunk"].
(** * Properties *)

(** ** Vectors and loops *)

Lemma in_range_true {A} (v : list A) (i : Z) :
  in_range v i = true <-> 0 <= i < vsize v.
Proof. unfold in_range. rewrite andb_true_iff, Z.leb_le, Z.ltb_lt. tauto. Qed.

Lemma in_range_false {A} (v : list A) (i : Z) :
  in_range v i = false <-> (i < 0 \/ vsize v <= i).
Proof.
  unfold in_range. rewrite andb_false_iff, Z.leb_gt, Z.ltb_ge. tauto.
Qed.

Lemma vec_at_nat {A} (v : list A) (n : nat) (x : A) :
  v !! n = Some x -> vec_at v (Z.of_nat n) = Ok x.
Proof.
  intros H. unfold vec_at.
  pose proof (lookup_lt_Some _ _ _ H) as Hlt.
  replace (in_range v (Z.of_nat n)) with true
    by (symmetry; apply in_range_true; unfold vsize; lia).
  by rewrite Nat2Z.id, H.
Qed.

Lemma vec_at_ok {A} (v : list A) (i : Z) (x : A) :
  0 <= i -> v !! Z.to_nat i = Some x -> vec_at v i = Ok x.
Proof.
  intros Hi H. rewrite <- (Z2Nat.id i) by done. by apply vec_at_nat.
Qed.

Lemma vec_at_out {A} (v : list A) (i : Z) :
  i < 0 \/ vsize v <= i -> vec_at v i = Crash OutOfRange.
Proof. intros H. unfold vec_at. by apply in_range_false in H as ->. Qed.

Lemma vec_set_ok {A} (v : list A) (i : Z) (x : A) :
  0 <= i < vsize v -> vec_set v i x = Ok (<[Z.to_nat i := x]> v).
Proof. intros H. unfold vec_set. by apply in_range_true in H as ->. Qed.

Lemma upto_length (n : Z) : length (upto n) = Z.to_nat n.
Proof. unfold upto. by rewrite length_fmap, length_seq. Qed.

Lemma upto_from (k n : nat) :
  Z.of_nat <$> seq k (S n) = Z.of_nat k :: (Z.of_nat <$> seq (S k) n).
Proof. done. Qed.

Lemma forM_app {A S} (body : A -> S -> Expected S) (l1 l2 : list A) (s : S) :
  forM body (l1 ++ l2) s = (s' ← forM body l1 s; forM body l2 s').
Proof.
  revert s. induction l1 as [|a l1 IH]; intros s; simpl; [done|].
  destruct (body a s); simpl; auto.
Qed.

(** Side conditions of reading a vector at a literal index. *)
Ltac vec_index := first [lia | reflexivity | done].

(** ** Broadcasting: [binaryOp] *)

Lemma insert_zeros (n : nat) (v : Z) (acc : list Z) :
  <[n := v]> (replicate (S n) 0 ++ acc) = replicate n 0 ++ v :: acc.
Proof. induction n as [|n IH]; simpl; [done|]. f_equal. exact IH. Qed.

(** Reading [t[t.size() + (-1 - k)]] is reading the reversed shape at [k]. *)
Lemma vec_at_reverse (t : list Z) (k : nat) :
  vec_at t (vsize t + (-1 - Z.of_nat k)) =
  match reverse t !! k with Some x => Ok x | None => Crash OutOfRange end.
Proof.
  destruct (decide (k < length t)%nat) as [Hk|Hk].
  - rewrite reverse_lookup by done.
    destruct (lookup_lt_is_Some_2 t (length t - S k)) as [x Hx]; [lia|].
    rewrite Hx. apply vec_at_ok; unfold vsize; [lia|].
    replace (Z.to_nat (Z.of_nat (length t) + (-1 - Z.of_nat k)))
      with (length t - S k)%nat by lia.
    done.
  - rewrite (lookup_ge_None_2 (reverse t)) by (rewrite length_reverse; lia).
    apply vec_at_out. unfold vsize. lia.
Qed.

Lemma drop_lookup_S {A} (l : list A) (k : nat) (x : A) :
  l !! k = Some x -> drop k l = x :: drop (S k) l.
Proof. intros H. by rewrite (drop_S _ _ _ H). Qed.

Lemma drop_lookup_None {A} (l : list A) (k : nat) :
  l !! k = None -> drop k l = [] /\ drop (S k) l = [].
Proof.
  intros H%lookup_ge_None. split; apply drop_ge; lia.
Qed.

Lemma binaryOp_rev_nil (r1 acc : list Z) :
  binaryOp_rev [] r1 acc = Ok (reverse r1 ++ acc).
Proof. done. Qed.

(** The loop of [binaryOp], started at counter [k] with [k] extents
    already written, is [binaryOp_rev] on what is left of the reversed
    shapes. *)
Lemma binaryOp_loop_rev (t0 t1 : TensorShape) (n k : nat) (acc : list Z) :
  (k + n = length t0 `max` length t1)%nat ->
  forM (binaryOp_body t0 t1) (Z.of_nat <$> seq k n) (replicate n 0 ++ acc) =
  binaryOp_rev (drop k (reverse t0)) (drop k (reverse t1)) acc.
Proof.
  revert k acc. induction n as [|n IH]; intros k acc Hk.
  - simpl. rewrite !drop_ge by (rewrite length_reverse; lia). done.
  - rewrite upto_from. cbn [forM].
    assert (Hset : forall v,
      vec_set (replicate (S n) 0 ++ acc)
        (Z.max (vsize t0) (vsize t1) + (-1 - Z.of_nat k)) v
      = Ok (replicate n 0 ++ v :: acc)).
    { intros v. rewrite vec_set_ok.
      - replace (Z.to_nat (Z.max (vsize t0) (vsize t1) + (-1 - Z.of_nat k)))
          with n by (unfold vsize; lia).
        by rewrite insert_zeros.
      - unfold vsize. rewrite length_app, length_replicate. lia. }
    unfold binaryOp_body. rewrite !vec_at_reverse.
    destruct (reverse t0 !! k) as [x|] eqn:E0;
      destruct (reverse t1 !! k) as [y|] eqn:E1.
    + pose proof (lookup_lt_Some _ _ _ E0) as L0. rewrite length_reverse in L0.
      pose proof (lookup_lt_Some _ _ _ E1) as L1. rewrite length_reverse in L1.
      rewrite (drop_lookup_S _ _ _ E0), (drop_lookup_S _ _ _ E1).
      replace (vsize t0 <=? Z.of_nat k) with false
        by (symmetry; apply Z.leb_gt; unfold vsize; lia).
      replace (vsize t1 <=? Z.of_nat k) with false
        by (symmetry; apply Z.leb_gt; unfold vsize; lia).
      cbn [mbind Expected_bind binaryOp_rev].
      destruct (x =? 1); [rewrite Hset; cbn; apply IH; lia|].
      cbn [mbind Expected_bind].
      destruct (y =? 1); [rewrite Hset; cbn; apply IH; lia|].
      destruct (negb (y =? x)); [done|].
      rewrite Hset; cbn; apply IH; lia.
    + pose proof (lookup_lt_Some _ _ _ E0) as L0. rewrite length_reverse in L0.
      apply lookup_ge_None in E1 as L1. rewrite length_reverse in L1.
      rewrite (drop_lookup_S _ _ _ E0).
      rewrite (drop_ge (reverse t1) k) by (rewrite length_reverse; lia).
      replace (vsize t0 <=? Z.of_nat k) with false
        by (symmetry; apply Z.leb_gt; unfold vsize; lia).
      replace (vsize t1 <=? Z.of_nat k) with true
        by (symmetry; apply Z.leb_le; unfold vsize; lia).
      cbn [mbind Expected_bind binaryOp_rev].
      destruct (x =? 1); [done|].
      cbn [mbind Expected_bind]. rewrite Hset; cbn.
      rewrite IH by lia.
      by rewrite (drop_ge (reverse t1) (S k)) by (rewrite length_reverse; lia).
    + apply lookup_ge_None in E0 as L0. rewrite length_reverse in L0.
      rewrite (drop_ge (reverse t0) k) by (rewrite length_reverse; lia).
      rewrite (drop_lookup_S _ _ _ E1).
      replace (vsize t0 <=? Z.of_nat k) with true
        by (symmetry; apply Z.leb_le; unfold vsize; lia).
      rewrite binaryOp_rev_nil. cbn [mbind Expected_bind]. rewrite Hset.
      cbn [mbind Expected_bind]. rewrite IH by lia.
      rewrite (drop_ge (reverse t0) (S k)) by (rewrite length_reverse; lia).
      rewrite binaryOp_rev_nil. by rewrite reverse_cons, <- app_assoc.
    + apply lookup_ge_None in E0. apply lookup_ge_None in E1.
      rewrite length_reverse in *. lia.
Qed.

Lemma broadcast_rev_nil_r (a : list Z) : broadcast_rev a [] = Some a.
Proof. by destruct a. Qed.

(** On compatible shapes the loop writes the broadcast shape, unless it
    meets an extent 1 of the first operand where the second has none. *)
Lemma binaryOp_rev_broadcast (r0 r1 rs acc : list Z) :
  broadcast_rev r0 r1 = Some rs ->
  1 ∉ drop (length r1) r0 ->
  binaryOp_rev r0 r1 acc = Ok (reverse rs ++ acc).
Proof.
  revert r1 rs acc. induction r0 as [|x r0 IH]; intros r1 rs acc Hb Hone.
  - simpl in Hb. by injection Hb as <-.
  - destruct r1 as [|y r1].
    + simpl in Hb. injection Hb as <-. simpl in Hone.
      apply not_elem_of_cons in Hone as [Hx Hone].
      cbn [binaryOp_rev].
      replace (x =? 1) with false by (symmetry; apply Z.eqb_neq; congruence).
      rewrite (IH [] r0); [|apply broadcast_rev_nil_r|done].
      by rewrite reverse_cons, <- app_assoc.
    + cbn [broadcast_rev] in Hb. simpl in Hone.
      destruct (broadcast_rev r0 r1) as [r|] eqn:Er; [|done].
      cbn [mbind option_bind] in Hb. cbn [binaryOp_rev].
      destruct (Z.eqb_spec x y) as [->|Hxy].
      * injection Hb as <-.
        rewrite Z.eqb_refl. cbn [negb].
        rewrite !(IH r1 r) by done.
        rewrite reverse_cons, <- app_assoc.
        by destruct (y =? 1).
      * destruct (Z.eqb_spec x 1) as [->|Hx1].
        { injection Hb as <-. rewrite (IH r1 r) by done.
          by rewrite reverse_cons, <- app_assoc. }
        destruct (Z.eqb_spec y 1) as [->|Hy1]; [|done].
        injection Hb as <-. rewrite (IH r1 r) by done.
        by rewrite reverse_cons, <- app_assoc.
Qed.

(** Where two extents differ and neither is 1, the loop stops with the
    mismatch of the first such position. *)
Lemma binaryOp_rev_mismatch (r0 r1 acc : list Z) (i : nat) (x y : Z) :
  r0 !! i = Some x -> r1 !! i = Some y -> x ≠ y -> x ≠ 1 -> y ≠ 1 ->
  ∃ (j : nat) (x' y' : Z),
    (j <= i)%nat ∧ r0 !! j = Some x' ∧ r1 !! j = Some y' ∧
    x' ≠ y' ∧ x' ≠ 1 ∧ y' ≠ 1 ∧
    binaryOp_rev r0 r1 acc = Err (binaryOp_mismatch x' y').
Proof.
  revert r1 acc i. induction r0 as [|a r0 IH]; intros r1 acc i H0 H1 Hxy Hx Hy;
    [done|].
  destruct r1 as [|b r1]; [done|].
  cbn [binaryOp_rev].
  assert (Hnext : forall v, a = 1 \/ b = 1 \/ a = b ->
    ∃ (j : nat) (x' y' : Z),
      (j <= i)%nat ∧ (a :: r0) !! j = Some x' ∧ (b :: r1) !! j = Some y' ∧
      x' ≠ y' ∧ x' ≠ 1 ∧ y' ≠ 1 ∧
      binaryOp_rev r0 r1 (v :: acc) = Err (binaryOp_mismatch x' y')).
  { intros v Hab. destruct i as [|i].
    - simpl in H0, H1. injection H0 as ->. injection H1 as ->. lia.
    - destruct (IH r1 (v :: acc) i H0 H1 Hxy Hx Hy)
        as (j & x' & y' & Hj & ? & ? & ? & ? & ? & ?).
      exists (S j), x', y'. repeat split; try done. lia. }
  destruct (Z.eqb_spec a 1) as [Ha|Ha]; [apply Hnext; lia|].
  destruct (Z.eqb_spec b 1) as [Hb|Hb]; [apply Hnext; lia|].
  destruct (Z.eqb_spec b a) as [Hba|Hba]; [apply Hnext; lia|].
  cbn [negb]. exists 0%nat, a, b. repeat split; try done; lia.
Qed.

(** Two shapes are incompatible exactly when, at some trailing position,
    both have an extent and the two differ and neither is 1. *)
Lemma broadcast_rev_None (r0 r1 : list Z) :
  broadcast_rev r0 r1 = None <->
  ∃ (i : nat) (x y : Z),
    r0 !! i = Some x ∧ r1 !! i = Some y ∧ x ≠ y ∧ x ≠ 1 ∧ y ≠ 1.
Proof.
  revert r1. induction r0 as [|a r0 IH]; intros r1.
  - split; [done|]. by intros (i & x & y & ? & _).
  - destruct r1 as [|b r1].
    + split; [done|]. by intros (i & x & y & _ & ? & _).
    + cbn [broadcast_rev]. split.
      * destruct (broadcast_rev r0 r1) as [r|] eqn:Er.
        { cbn [mbind option_bind].
          destruct (Z.eqb_spec a b); [done|].
          destruct (Z.eqb_spec a 1); [done|].
          destruct (Z.eqb_spec b 1); [done|].
          intros _. by exists 0%nat, a, b. }
        intros _. apply IH in Er as (i & x & y & ? & ? & ?).
        by exists (S i), x, y.
      * intros (i & x & y & H0 & H1 & Hxy & Hx & Hy).
        destruct i as [|i].
        { injection H0 as ->. injection H1 as ->.
          destruct (broadcast_rev r0 r1); [|done]. cbn [mbind option_bind].
          destruct (Z.eqb_spec x y); [done|].
          destruct (Z.eqb_spec x 1); [done|].
          by destruct (Z.eqb_spec y 1). }
        assert (Er : broadcast_rev r0 r1 = None).
        { apply IH. by exists i, x, y. }
        by rewrite Er.
Qed.

(** [binaryOp] on two or three operands whose first two hold shapes. *)
Lemma binaryOp_unfold (A B : VariableMeta) (rest : MetaStack)
    (t0 t1 : TensorShape) :
  shapeT A = Ok t0 -> shapeT B = Ok t1 -> (length rest <= 1)%nat ->
  binaryOp (A :: B :: rest) =
  if vsize t1 =? 1 then Ok t0
  else binaryOp_rev (reverse t0) (reverse t1) [].
Proof.
  intros HA HB Hrest. unfold binaryOp.
  replace (negb (vsize (A :: B :: rest) =? 2) && negb (vsize (A :: B :: rest) =? 3))
    with false.
  2:{ destruct rest as [|? [|? ?]]; simpl in Hrest; try lia; done. }
  rewrite (vec_at_ok (A :: B :: rest) 0 A) by vec_index.
  rewrite (vec_at_ok (A :: B :: rest) 1 B) by vec_index.
  cbn [mbind Expected_bind]. rewrite HA. cbn [mbind Expected_bind].
  rewrite HB. cbn [mbind Expected_bind].
  destruct (vsize t1 =? 1); [done|].
  unfold upto.
  replace (Z.to_nat (Z.max (vsize t0) (vsize t1)))
    with (length t0 `max` length t1)%nat by (unfold vsize; lia).
  rewrite <- (app_nil_r (replicate _ 0)).
  by rewrite binaryOp_loop_rev.
Qed.

(** C1 (amended).  [binaryOp] on operands [A] and [B], with or without a
    third operand.  If the shape of [B] has rank 1 the result is the shape
    of [A], whatever the extents.  Otherwise: on broadcast-compatible
    shapes in which [A] has no extent 1 at a position beyond the rank of
    [B], the result is the standard trailing-dimension broadcast shape; and
    if at some trailing position both extents are present, differ and
    neither is 1, the result is the size-mismatch failure naming the two
    extents of the first such position. *)
Theorem binaryOp_broadcast (A B : VariableMeta) (rest : MetaStack)
    (t0 t1 : TensorShape) :
  shapeT A = Ok t0 -> shapeT B = Ok t1 -> (length rest <= 1)%nat ->
  (length t1 = 1%nat -> binaryOp (A :: B :: rest) = Ok t0) ∧
  (length t1 ≠ 1%nat ->
   ∀ s : TensorShape,
     broadcast_shape t0 t1 = Some s ->
     1 ∉ take (length t0 - length t1) t0 ->
     binaryOp (A :: B :: rest) = Ok s) ∧
  (length t1 ≠ 1%nat ->
   ∀ (i : nat) (x y : Z),
     reverse t0 !! i = Some x -> reverse t1 !! i = Some y ->
     x ≠ y -> x ≠ 1 -> y ≠ 1 ->
     ∃ (j : nat) (x' y' : Z),
       (j <= i)%nat ∧ reverse t0 !! j = Some x' ∧ reverse t1 !! j = Some y' ∧
       x' ≠ y' ∧ x' ≠ 1 ∧ y' ≠ 1 ∧
       binaryOp (A :: B :: rest) = Err (binaryOp_mismatch x' y')).
Proof.
  intros HA HB Hrest. rewrite (binaryOp_unfold A B rest t0 t1 HA HB Hrest).
  split; [|split].
  - intros H1. replace (vsize t1 =? 1) with true; [done|].
    symmetry. apply Z.eqb_eq. unfold vsize. lia.
  - intros H1 s Hs Hone.
    replace (vsize t1 =? 1) with false
      by (symmetry; apply Z.eqb_neq; unfold vsize; lia).
    unfold broadcast_shape in Hs.
    destruct (broadcast_rev (reverse t0) (reverse t1)) as [rs|] eqn:Ers; [|done].
    injection Hs as <-.
    rewrite (binaryOp_rev_broadcast _ _ rs); [by rewrite app_nil_r|done|].
    rewrite length_reverse, drop_reverse, elem_of_reverse. done.
  - intros H1 i x y H0i H1i Hxy Hx Hy.
    replace (vsize t1 =? 1) with false
      by (symmetry; apply Z.eqb_neq; unfold vsize; lia).
    by apply (binaryOp_rev_mismatch _ _ [] i x y).
Qed.

Lemma binaryOp_broadcast_witness :
  binaryOp [tensor [1]; tensor [5]; scalar 1] = Ok [1] ∧
  binaryOp [tensor [4; 2; 3]; tensor [2; 1]] = Ok [4; 2; 3] ∧
  ∃ (j : nat) (x' y' : Z),
    (j <= 0)%nat ∧ reverse [4; 2; 3] !! j = Some x' ∧
    reverse [2; 4] !! j = Some y' ∧ x' ≠ y' ∧ x' ≠ 1 ∧ y' ≠ 1 ∧
    binaryOp [tensor [4; 2; 3]; tensor [2; 4]] = Err (binaryOp_mismatch x' y').
Proof.
  split; [|split].
  - assert (Hrest : (length [scalar 1] <= 1)%nat) by (simpl; lia).
    destruct (binaryOp_broadcast (tensor [1]) (tensor [5]) [scalar 1] [1] [5]
                eq_refl eq_refl Hrest) as (H & _ & _).
    apply H. reflexivity.
  - assert (Hrest : (length (@nil VariableMeta) <= 1)%nat) by (simpl; lia).
    destruct (binaryOp_broadcast (tensor [4; 2; 3]) (tensor [2; 1]) []
                [4; 2; 3] [2; 1] eq_refl eq_refl Hrest) as (_ & H & _).
    apply H; [simpl; lia | reflexivity |].
    simpl. intros H1. apply list_elem_of_singleton in H1. lia.
  - assert (Hrest : (length (@nil VariableMeta) <= 1)%nat) by (simpl; lia).
    destruct (binaryOp_broadcast (tensor [4; 2; 3]) (tensor [2; 4]) []
                [4; 2; 3] [2; 4] eq_refl eq_refl Hrest) as (_ & _ & H).
    apply (H ltac:(simpl; lia) 0%nat 3 4); first [reflexivity | lia].
Defined.

(** C1, as stated, fails when the second shape has rank 1: the result is
    the first shape even where broadcasting gives another shape, and even
    where the trailing extents do not match. *)
Lemma binaryOp_rank1_counterexample :
  broadcast_shape [1] [5] = Some [5] ∧
  binaryOp [tensor [1]; tensor [5]] = Ok [1] ∧
  broadcast_shape [3; 4] [5] = None ∧
  binaryOp [tensor [3; 4]; tensor [5]] = Ok [3; 4].
Proof. repeat split; reflexivity. Qed.

(** A well-formed broadcast on which the loop reads the second shape out
    of range: the first shape has an extent 1 beyond the rank of the
    second. *)
Example binaryOp_leading_one :
  broadcast_shape [1; 2; 3] [2; 3] = Some [1; 2; 3] ∧
  binaryOp [tensor [1; 2; 3]; tensor [2; 3]] = Crash OutOfRange.
Proof. split; reflexivity. Qed.

(** ** [chunk] and [constantChunk] *)

(** C8.  With the chunk count [k] and the axis [d] carried as integer
    payloads by its second and third operands, [chunk] returns what
    [constantChunk] returns for the attributes [k] and [d]: the same list
    of shapes, or the same failure. *)
Theorem chunk_constantChunk (T K D : VariableMeta) (k d : Z) :
  intValue K !! 0%nat = Some k -> intValue D !! 0%nat = Some d ->
  chunk [T; K; D] = constantChunk [T] k d.
Proof.
  intros HK HD. unfold chunk, constantChunk.
  change (vsize [T; K; D] =? 3) with true.
  change (vsize [T] =? 1) with true.
  cbn [RETURN_ERR_IF_NOT mbind Expected_bind].
  rewrite (vec_at_ok [T; K; D] 0 T), (vec_at_ok [T; K; D] 1 K),
    (vec_at_ok [T; K; D] 2 D), (vec_at_ok [T] 0 T) by vec_index.
  cbn [mbind Expected_bind].
  destruct (shapeT T) as [t| |]; cbn [mbind Expected_bind]; [|done..].
  rewrite (vec_at_ok (intValue K) 0 k), (vec_at_ok (intValue D) 0 d)
    by first [lia | done].
  reflexivity.
Qed.

Lemma chunk_constantChunk_witness :
  chunk [tensor [3; 10]; scalar 3; scalar (-1)] =
  constantChunk [tensor [3; 10]] 3 (-1).
Proof.
  apply (chunk_constantChunk (tensor [3; 10]) (scalar 3) (scalar (-1)) 3 (-1));
    reflexivity.
Defined.

(** ** [transpose] *)

Lemma maybe_wrap_dim_ok (d n : Z) :
  - n <= d < n -> maybe_wrap_dim d n = Ok (wrap_axis d n).
Proof.
  intros H. unfold maybe_wrap_dim, wrap_axis.
  replace (n <=? 0) with false by (symmetry; apply Z.leb_gt; lia).
  replace ((d <? - n) || (n <=? d)) with false; [done|].
  symmetry. apply orb_false_iff. rewrite Z.ltb_ge, Z.leb_gt. lia.
Qed.

Lemma wrap_axis_range (d n : Z) : - n <= d < n -> 0 <= wrap_axis d n < n.
Proof. unfold wrap_axis. destruct (Z.ltb_spec d 0); lia. Qed.

Lemma swap_length {A} (l : list A) (i j : nat) : length (swap l i j) = length l.
Proof.
  unfold swap. destruct (l !! i), (l !! j); try done.
  by rewrite !length_insert.
Qed.

Lemma swap_lookup {A} (l : list A) (i j k : nat) :
  (i < length l)%nat -> (j < length l)%nat ->
  swap l i j !! k =
  if decide (k = j) then l !! i else if decide (k = i) then l !! j else l !! k.
Proof.
  intros Hi Hj. unfold swap.
  destruct (lookup_lt_is_Some_2 l i Hi) as [a Ha].
  destruct (lookup_lt_is_Some_2 l j Hj) as [b Hb].
  rewrite Ha, Hb.
  destruct (decide (k = j)) as [->|Hkj].
  - rewrite list_lookup_insert_eq by (rewrite length_insert; lia). done.
  - rewrite list_lookup_insert_ne by done.
    destruct (decide (k = i)) as [->|Hki].
    + by rewrite list_lookup_insert_eq.
    + by rewrite list_lookup_insert_ne.
Qed.

Lemma swap_involutive {A} (l : list A) (i j : nat) :
  (i < length l)%nat -> (j < length l)%nat -> swap (swap l i j) i j = l.
Proof.
  intros Hi Hj. apply list_eq. intros k.
  rewrite swap_lookup by (rewrite swap_length; lia).
  rewrite !swap_lookup by lia.
  repeat case_decide; subst; done.
Qed.

(** [transpose] on a record holding a shape and two valid axes. *)
Lemma transpose_swap (A D0 D1 : VariableMeta) (t : TensorShape) (d0 d1 : Z) :
  shapeT A = Ok t -> intValue D0 = [d0] -> intValue D1 = [d1] ->
  - vsize t <= d0 < vsize t -> - vsize t <= d1 < vsize t ->
  transpose [A; D0; D1] =
  Ok (swap t (Z.to_nat (wrap_axis d0 (vsize t))) (Z.to_nat (wrap_axis d1 (vsize t)))).
Proof.
  intros HA H0 H1 R0 R1. unfold transpose.
  change (vsize [A; D0; D1] =? 3) with true. cbn [negb].
  rewrite (vec_at_ok [A; D0; D1] 0 A), (vec_at_ok [A; D0; D1] 1 D0),
    (vec_at_ok [A; D0; D1] 2 D1) by vec_index.
  cbn [mbind Expected_bind]. rewrite H0, H1, HA.
  cbn [vsize length Z.of_nat Z.eqb RETURN_ERR_IF_NOT mbind Expected_bind].
  rewrite (vec_at_ok [d0] 0 d0), (vec_at_ok [d1] 0 d1) by vec_index.
  cbn [mbind Expected_bind].
  rewrite !maybe_wrap_dim_ok by done. cbn [mbind Expected_bind].
  pose proof (wrap_axis_range d0 (vsize t) R0) as W0.
  pose proof (wrap_axis_range d1 (vsize t) R1) as W1.
  set (w0 := wrap_axis d0 (vsize t)) in *.
  set (w1 := wrap_axis d1 (vsize t)) in *.
  destruct (lookup_lt_is_Some_2 t (Z.to_nat w0)) as [a Ha]; [unfold vsize in *; lia|].
  destruct (lookup_lt_is_Some_2 t (Z.to_nat w1)) as [b Hb]; [unfold vsize in *; lia|].
  rewrite (vec_at_ok t w0 a), (vec_at_ok t w1 b) by first [lia | done].
  cbn [mbind Expected_bind].
  rewrite vec_set_ok by lia. cbn [mbind Expected_bind].
  rewrite vec_set_ok by (unfold vsize in *; rewrite length_insert; lia).
  unfold swap. by rewrite Ha, Hb.
Qed.

(** C9.  The two-axis [transpose] wraps both axes and swaps the two
    extents, and applying it again with the same axes to its result gives
    back the original shape. *)
Theorem transpose_involution (A D0 D1 : VariableMeta) (t : TensorShape)
    (d0 d1 : Z) :
  shapeT A = Ok t -> intValue D0 = [d0] -> intValue D1 = [d1] ->
  - vsize t <= d0 < vsize t -> - vsize t <= d1 < vsize t ->
  ∃ s : TensorShape,
    transpose [A; D0; D1] = Ok s ∧
    s = swap t (Z.to_nat (wrap_axis d0 (vsize t)))
               (Z.to_nat (wrap_axis d1 (vsize t))) ∧
    ∀ A' : VariableMeta, shapeT A' = Ok s -> transpose [A'; D0; D1] = Ok t.
Proof.
  intros HA H0 H1 R0 R1. eexists. split; [|split; [reflexivity|]].
  - by apply transpose_swap.
  - intros A' HA'.
    pose proof (wrap_axis_range d0 (vsize t) R0) as W0.
    pose proof (wrap_axis_range d1 (vsize t) R1) as W1.
    rewrite (transpose_swap A' D0 D1 _ d0 d1 HA' H0 H1);
      unfold vsize in *; rewrite ?swap_length; try done.
    f_equal. apply swap_involutive; lia.
Qed.

Lemma transpose_involution_witness :
  ∃ s : TensorShape,
    transpose [tensor [2; 3; 4]; scalar 0; scalar (-1)] = Ok s ∧
    s = swap [2; 3; 4] (Z.to_nat (wrap_axis 0 (vsize [2; 3; 4])))
                       (Z.to_nat (wrap_axis (-1) (vsize [2; 3; 4]))) ∧
    ∀ A' : VariableMeta,
      shapeT A' = Ok s -> transpose [A'; scalar 0; scalar (-1)] = Ok [2; 3; 4].
Proof.
  apply (transpose_involution (tensor [2; 3; 4]) (scalar 0) (scalar (-1))
           [2; 3; 4] 0 (-1)); first [reflexivity | unfold vsize; simpl; lia].
Defined.

(** ** Machine arithmetic within range *)

Lemma wrap64_id (z : Z) : - 2 ^ 63 <= z < 2 ^ 63 -> wrap64 z = z.
Proof.
  intros H. unfold wrap64. rewrite Z.mod_small by lia. lia.
Qed.

Lemma div64_pos (a b : Z) : 0 <= a -> 0 < b -> div64 a b = Ok (a / b).
Proof.
  intros Ha Hb. unfold div64.
  replace (b =? 0) with false by (symmetry; apply Z.eqb_neq; lia).
  replace (a =? - 2 ^ 63) with false by (symmetry; apply Z.eqb_neq; lia).
  cbn [orb andb]. by rewrite Z.quot_div_nonneg by lia.
Qed.

Lemma rem64_pos (a b : Z) : 0 <= a -> 0 < b -> rem64 a b = Ok (a mod b).
Proof.
  intros Ha Hb. unfold rem64.
  replace (b =? 0) with false by (symmetry; apply Z.eqb_neq; lia).
  replace (a =? - 2 ^ 63) with false by (symmetry; apply Z.eqb_neq; lia).
  cbn [orb andb]. by rewrite Z.rem_mod_nonneg by lia.
Qed.

(** The rounding-up quotient of the source, [(a + b - 1) / b], is the
    ceiling of [a / b]. *)
Lemma ceil_div_add (a b : Z) : 0 < b -> (a + b - 1) / b = ceil_div a b.
Proof.
  intros Hb. unfold ceil_div. symmetry.
  apply Z.div_unique with (r := (b - 1) - (- a) mod b).
  - left. pose proof (Z.mod_pos_bound (- a) b Hb). lia.
  - pose proof (Z.div_mod (- a) b ltac:(lia)). lia.
Qed.

Lemma ceil_div_bounds (a b : Z) :
  0 < b -> a <= ceil_div a b * b < a + b.
Proof.
  intros Hb. rewrite <- ceil_div_add by done.
  pose proof (Z.div_mod (a + b - 1) b ltac:(lia)).
  pose proof (Z.mod_pos_bound (a + b - 1) b Hb). lia.
Qed.

Lemma ceil_div_nonneg (a b : Z) : 0 <= a -> 0 < b -> 0 <= ceil_div a b.
Proof.
  intros Ha Hb. rewrite <- ceil_div_add by done. apply Z.div_pos; lia.
Qed.

(** ** [constantChunk] *)

(** The loop that builds the list of chunk shapes. *)
Lemma chunk_loop (t : TensorShape) (dim : Z) (f : Z -> Z) (l : list Z)
    (acc : TensorListShape) :
  0 <= dim < vsize t ->
  forM (fun i resShapes =>
          shape ← vec_set t dim (f i); Ok (resShapes ++ [shape])) l acc
  = Ok (acc ++ ((fun i => <[Z.to_nat dim := f i]> t) <$> l)).
Proof.
  intros Hd. revert acc. induction l as [|i l IH]; intros acc.
  - simpl. by rewrite app_nil_r.
  - cbn [forM]. rewrite vec_set_ok by done. cbn [mbind Expected_bind].
    rewrite IH. by rewrite <- app_assoc.
Qed.

Lemma upto_snoc (n : Z) : 0 <= n -> upto (n + 1) = upto n ++ [n].
Proof.
  intros Hn. unfold upto.
  replace (Z.to_nat (n + 1)) with (S (Z.to_nat n)) by lia.
  rewrite seq_S, fmap_app. simpl. do 2 f_equal. lia.
Qed.

Lemma upto_bound (n i : Z) : i ∈ upto n -> 0 <= i < n.
Proof.
  unfold upto. intros H. apply list_elem_of_fmap in H as (k & -> & Hk).
  apply list_elem_of_In, in_seq in Hk. lia.
Qed.

Lemma fmap_const_replicate {A B} (f : A -> B) (b : B) (l : list A) :
  (∀ x, x ∈ l -> f x = b) -> f <$> l = replicate (length l) b.
Proof.
  induction l as [|a l IH]; intros H; [done|].
  cbn. rewrite (H a) by apply list_elem_of_here. f_equal.
  apply IH. intros x Hx. apply H. by apply list_elem_of_further.
Qed.

(** C3 (amended).  For a record holding a shape [t] with extent [e >= 0]
    at the wrapped axis and a chunk count [k >= 1], [constantChunk] returns
    [k] shapes equal to [t] except at that axis, where the first [k-1]
    have extent [c = ceil(e/k)] and the last has [r = e - c*(k-1)]; the
    [k] extents sum to [e]; [r] is at most [c]; and [r] is non-negative
    whenever [c*(k-1) <= e], in particular when [k] divides [e] or
    [(k-1)^2 <= e]. *)
Theorem constantChunk_shapes (T : VariableMeta) (t : TensorShape) (k d e : Z) :
  shapeT T = Ok t ->
  - vsize t <= d < vsize t ->
  t !! Z.to_nat (wrap_axis d (vsize t)) = Some e ->
  0 <= e -> 1 <= k -> e + k < 2 ^ 63 ->
  let w := Z.to_nat (wrap_axis d (vsize t)) in
  let c := ceil_div e k in
  let r := e - c * (k - 1) in
  constantChunk [T] k d =
    Ok (replicate (Z.to_nat (k - 1)) (<[w := c]> t) ++ [<[w := r]> t]) ∧
  c * (k - 1) + r = e ∧
  r <= c ∧
  (c * (k - 1) <= e -> 0 <= r) ∧
  ((k | e) ∨ (k - 1) * (k - 1) <= e -> c * (k - 1) <= e).
Proof.
  intros HT Hd He He0 Hk Hsum w c r.
  pose proof (ceil_div_bounds e k ltac:(lia)) as Hc. fold c in Hc.
  pose proof (ceil_div_nonneg e k He0 ltac:(lia)) as Hc0. fold c in Hc0.
  assert (Hck : 0 <= c * (k - 1) <= e + k - 1) by nia.
  split; [|split; [|split; [|split]]].
  - unfold constantChunk.
    change (vsize [T] =? 1) with true.
    cbn [RETURN_ERR_IF_NOT mbind Expected_bind].
    rewrite (vec_at_ok [T] 0 T) by vec_index. cbn [mbind Expected_bind].
    rewrite HT. cbn [mbind Expected_bind].
    rewrite maybe_wrap_dim_ok by done. cbn [mbind Expected_bind].
    pose proof (wrap_axis_range d (vsize t) Hd) as Hw.
    rewrite (vec_at_ok t _ e) by first [lia | done].
    cbn [mbind Expected_bind].
    unfold add64, sub64, mul64.
    rewrite (wrap64_id (e + k)) by lia.
    rewrite (wrap64_id (e + k - 1)) by lia.
    rewrite div64_pos by lia. cbn [mbind Expected_bind].
    rewrite ceil_div_add by lia. fold c.
    rewrite (wrap64_id (k - 1)) by lia.
    rewrite (wrap64_id (c * (k - 1))) by lia.
    rewrite (wrap64_id (e - c * (k - 1))) by lia. fold r.
    rewrite chunk_loop by done. cbn [app]. f_equal.
    replace k with ((k - 1) + 1) at 1 by lia.
    rewrite upto_snoc by lia. rewrite fmap_app. cbn [fmap list_fmap].
    rewrite Z.eqb_refl. fold w. f_equal.
    rewrite (fmap_const_replicate _ (<[w := c]> t)).
    + by rewrite upto_length.
    + intros i Hi%upto_bound.
      replace (i =? k - 1) with false by (symmetry; apply Z.eqb_neq; lia).
      done.
  - unfold r. lia.
  - unfold r. nia.
  - unfold r. lia.
  - clear r. clearbody c. intros [[q Hq]|Hsq].
    + assert (c = q) by nia. nia.
    + destruct (Z.le_gt_cases (k - 1) c) as [Hle|Hgt]; [nia|].
      assert (c * k < (k - 1) * k) by nia. nia.
Qed.

Lemma constantChunk_shapes_witness :
  constantChunk [tensor [3; 10]] 3 (-1) =
    Ok (replicate (Z.to_nat (3 - 1)) (<[1%nat := ceil_div 10 3]> [3; 10])
        ++ [<[1%nat := 10 - ceil_div 10 3 * (3 - 1)]> [3; 10]]) ∧
  ceil_div 10 3 * (3 - 1) + (10 - ceil_div 10 3 * (3 - 1)) = 10 ∧
  10 - ceil_div 10 3 * (3 - 1) <= ceil_div 10 3 ∧
  (ceil_div 10 3 * (3 - 1) <= 10 -> 0 <= 10 - ceil_div 10 3 * (3 - 1)) ∧
  ((3 | 10) ∨ (3 - 1) * (3 - 1) <= 10 -> ceil_div 10 3 * (3 - 1) <= 10).
Proof.
  apply (constantChunk_shapes (tensor [3; 10]) [3; 10] 3 (-1) 10);
    first [reflexivity | unfold vsize; simpl; lia].
Defined.

(** C3, as stated, fails: splitting an extent of 5 into 4 chunks gives
    three chunks of extent 2 and a last chunk of extent -1. *)
Lemma constantChunk_negative_counterexample :
  constantChunk [tensor [5]] 4 0 = Ok [[2]; [2]; [2]; [-1]].
Proof. reflexivity. Qed.

(** ** [slice] *)

Lemma ceil_div_quot_rem (a b : Z) :
  0 <= a -> 0 < b ->
  ceil_div a b = a / b + (if a mod b =? 0 then 0 else 1).
Proof.
  intros Ha Hb. rewrite <- ceil_div_add by done.
  pose proof (Z.div_mod a b ltac:(lia)) as Hdm.
  pose proof (Z.mod_pos_bound a b Hb) as Hm.
  destruct (Z.eqb_spec (a mod b) 0) as [H0|H0].
  - symmetry. rewrite Z.add_0_r.
    apply Z.div_unique with (r := b - 1); [lia|]. lia.
  - symmetry. apply Z.div_unique with (r := a mod b - 1); [lia|]. lia.
Qed.

Lemma py_slice_len_range (e start end_ step : Z) :
  0 <= e -> 1 <= step -> 0 <= py_slice_len e start end_ step <= e.
Proof.
  intros He Hs. unfold py_slice_len.
  set (lo := if start <? 0 then _ else _).
  set (hi := if end_ <? 0 then _ else _).
  assert (0 <= lo <= e) by (unfold lo; destruct (Z.ltb_spec start 0); lia).
  assert (0 <= hi <= e) by (unfold hi; destruct (Z.ltb_spec end_ 0); lia).
  destruct (Z.leb_spec hi lo); [lia|].
  pose proof (ceil_div_bounds (hi - lo) step ltac:(lia)).
  pose proof (ceil_div_nonneg (hi - lo) step ltac:(lia) ltac:(lia)).
  nia.
Qed.

Section Slice.

(** The five operands of [slice]: a record holding a shape, and the axis,
    the two bounds and the step as integer payloads. *)
Context (A D S E St : VariableMeta) (shape : TensorShape).
Context (dim start end_ step : Z).
Hypothesis HA : shapeT A = Ok shape.
Hypothesis HD : intValue D = [dim].
Hypothesis HS : intValue S = [start].
Hypothesis HE : intValue E = [end_].
Hypothesis HSt : intValue St = [step].

(** [slice] up to the point where it reads the extent [shape[dim]]. *)
Lemma slice_unfold :
  slice [A; D; S; E; St] =
  (inDims ← vec_at shape dim;
   if (inDims <=? start) || (end_ <=? neg64 inDims) then vec_set shape dim 0
   else
     let start :=
       if start <=? neg64 inDims then 0
       else if (neg64 inDims <? start) && (start <? 0) then add64 start inDims
       else start in
     let end_ :=
       if inDims <? end_ then inDims
       else if (neg64 inDims <? end_) && (end_ <? 0) then add64 end_ inDims
       else end_ in
     if end_ <=? start then vec_set shape dim 0
     else
       q ← div64 (sub64 end_ start) step;
       shape ← vec_set shape dim q;
       r ← rem64 (sub64 end_ start) step;
       if negb (r =? 0) then
         x ← vec_at shape dim; vec_set shape dim (add64 x 1)
       else Ok shape).
Proof.
  unfold slice.
  change (vsize [A; D; S; E; St] =? 5) with true.
  cbn [RETURN_ERR_IF_NOT mbind Expected_bind forM].
  rewrite (vec_at_ok [A; D; S; E; St] 0 A), (vec_at_ok [A; D; S; E; St] 1 D),
    (vec_at_ok [A; D; S; E; St] 2 S), (vec_at_ok [A; D; S; E; St] 3 E),
    (vec_at_ok [A; D; S; E; St] 4 St) by vec_index.
  cbn [mbind Expected_bind]. rewrite HD, HS, HE, HSt, HA.
  cbn [vsize length Z.of_nat Z.eqb Pos.of_succ_nat Pos.eqb
       RETURN_ERR_IF_NOT mbind Expected_bind].
  rewrite (vec_at_ok [dim] 0 dim), (vec_at_ok [start] 0 start),
    (vec_at_ok [end_] 0 end_), (vec_at_ok [step] 0 step) by vec_index.
  reflexivity.
Qed.

(** C2, the failing case.  [slice] reads [shape[dim]] without wrapping the
    axis: for every negative [dim] the read is out of range, where the
    claim has the axis wrapped and the extent at [dim + rank] sliced. *)
Theorem slice_negative_dim :
  dim < 0 -> slice [A; D; S; E; St] = Crash OutOfRange.
Proof.
  intros Hdim. rewrite slice_unfold. rewrite vec_at_out by lia. done.
Qed.

(** X1.  For an axis [dim] in [[0, rank)] and a positive step, [slice] changes
    only the extent at [dim], to the length of the Python slice
    [start:end:step] of a sequence of that extent. *)
Lemma slice_in_range (e : Z) :
  0 <= dim -> shape !! Z.to_nat dim = Some e ->
  0 <= e < 2 ^ 63 ->
  - 2 ^ 63 <= start < 2 ^ 63 -> - 2 ^ 63 <= end_ < 2 ^ 63 -> 1 <= step ->
  slice [A; D; S; E; St] =
    Ok (<[Z.to_nat dim := py_slice_len e start end_ step]> shape) ∧
  py_slice_len e start end_ step =
    (if (e <=? start) || (end_ <=? - e) then 0
     else
       let lo := if start <=? - e then 0
                 else if start <? 0 then start + e else start in
       let hi := if e <? end_ then e
                 else if end_ <? 0 then end_ + e else end_ in
       if hi <=? lo then 0 else ceil_div (hi - lo) step).
Proof.
  intros Hdim He Hrange Hstart Hend Hstep.
  assert (Hlt : 0 <= dim < vsize shape).
  { apply lookup_lt_Some in He. unfold vsize. lia. }
  assert (Hspec : py_slice_len e start end_ step =
    (if (e <=? start) || (end_ <=? - e) then 0
     else
       let lo := if start <=? - e then 0
                 else if start <? 0 then start + e else start in
       let hi := if e <? end_ then e
                 else if end_ <? 0 then end_ + e else end_ in
       if hi <=? lo then 0 else ceil_div (hi - lo) step)).
  { unfold py_slice_len. cbv zeta.
    destruct (Z.leb_spec e start), (Z.leb_spec end_ (- e)),
      (Z.leb_spec start (- e)), (Z.ltb_spec start 0),
      (Z.ltb_spec e end_), (Z.ltb_spec end_ 0); cbn [orb]; try lia;
      repeat match goal with
      | |- context [Z.leb ?a ?b] => destruct (Z.leb_spec a b); try lia
      end;
      try reflexivity; try (do 2 f_equal; lia). }
  split; [|exact Hspec].
  rewrite Hspec.
  rewrite slice_unfold.
  rewrite (vec_at_ok shape dim e) by first [lia | done].
  cbn [mbind Expected_bind].
  unfold neg64, add64, sub64. rewrite (wrap64_id (- e)) by lia.
  destruct ((e <=? start) || (end_ <=? - e)) eqn:Eout;
    [by rewrite vec_set_ok|].
  apply orb_false_iff in Eout as [H1%Z.leb_gt H2%Z.leb_gt].
  cbv zeta.
  set (lo := if start <=? - e then 0
             else if start <? 0 then start + e else start).
  set (hi := if e <? end_ then e
             else if end_ <? 0 then end_ + e else end_).
  replace (if start <=? - e then 0
           else if (- e <? start) && (start <? 0) then wrap64 (start + e)
           else start) with lo.
  2:{ unfold lo. destruct (Z.leb_spec start (- e)); [done|].
      replace (- e <? start) with true by (symmetry; apply Z.ltb_lt; lia).
      cbn [andb]. destruct (Z.ltb_spec start 0); [|done].
      by rewrite wrap64_id by lia. }
  replace (if e <? end_ then e
           else if (- e <? end_) && (end_ <? 0) then wrap64 (end_ + e)
           else end_) with hi.
  2:{ unfold hi. destruct (Z.ltb_spec e end_); [done|].
      replace (- e <? end_) with true by (symmetry; apply Z.ltb_lt; lia).
      cbn [andb]. destruct (Z.ltb_spec end_ 0); [|done].
      by rewrite wrap64_id by lia. }
  assert (Hlo : 0 <= lo <= e).
  { unfold lo. destruct (Z.leb_spec start (- e)), (Z.ltb_spec start 0); lia. }
  assert (Hhi : 0 <= hi <= e).
  { unfold hi. destruct (Z.ltb_spec e end_), (Z.ltb_spec end_ 0); lia. }
  destruct (Z.leb_spec hi lo) as [Hle|Hgt]; [by rewrite vec_set_ok|].
  rewrite (wrap64_id (hi - lo)) by lia.
  rewrite div64_pos, rem64_pos by lia. cbn [mbind Expected_bind].
  rewrite vec_set_ok by done. cbn [mbind Expected_bind].
  rewrite (ceil_div_quot_rem (hi - lo) step) by lia.
  pose proof (Z.div_mod (hi - lo) step ltac:(lia)) as Hdm.
  pose proof (Z.mod_pos_bound (hi - lo) step ltac:(lia)) as Hm.
  assert (0 <= (hi - lo) / step) by (apply Z.div_pos; lia).
  destruct (Z.eqb_spec ((hi - lo) mod step) 0) as [H0|H0]; cbn [negb].
  - by rewrite Z.add_0_r.
  - rewrite (vec_at_ok _ dim ((hi - lo) / step)).
    + cbn [mbind Expected_bind].
      rewrite vec_set_ok by (unfold vsize in *; rewrite length_insert; lia).
      rewrite list_insert_insert_eq.
      rewrite wrap64_id; [done|]. nia.
    + lia.
    + apply list_lookup_insert_eq. unfold vsize in *. lia.
Qed.

End Slice.

Lemma slice_negative_dim_witness :
  slice [tensor [10]; scalar (-1); scalar 8; scalar 20; scalar 1]
  = Crash OutOfRange.
Proof.
  apply (slice_negative_dim (tensor [10]) (scalar (-1)) (scalar 8) (scalar 20)
           (scalar 1) [10] (-1) 8 20 1); first [reflexivity | lia].
Defined.

(** The two boundary cases of the specification, on the shape [[10]]. *)
Example slice_boundary :
  slice [tensor [10]; scalar 0; scalar 8; scalar 20; scalar 1] = Ok [2] ∧
  slice [tensor [10]; scalar 0; scalar 12; scalar 20; scalar 1] = Ok [0].
Proof. split; reflexivity. Qed.

(** A step that is not positive is not refused: a zero step divides by
    zero, and a negative step gives the truncated quotient plus one where
    the ceiling of [5 / -2] is [-2]. *)
Example slice_nonpositive_step :
  slice [tensor [10]; scalar 0; scalar 0; scalar 5; scalar 0] = Crash ArithTrap ∧
  slice [tensor [10]; scalar 0; scalar 0; scalar 5; scalar (-2)] = Ok [-1] ∧
  ceil_div 5 (-2) = -2.
Proof. repeat split; reflexivity. Qed.

(** ** [reshape] *)

Lemma wrap64_plus_multiple (a k : Z) : wrap64 (a + k * 2 ^ 64) = wrap64 a.
Proof.
  unfold wrap64. f_equal.
  replace (a + k * 2 ^ 64 + 2 ^ 63) with (a + 2 ^ 63 + k * 2 ^ 64) by lia.
  apply Z_mod_plus_full.
Qed.

Lemma wrap64_decomp (a : Z) : ∃ k : Z, wrap64 a = a + k * 2 ^ 64.
Proof.
  exists (- ((a + 2 ^ 63) / 2 ^ 64)). unfold wrap64.
  pose proof (Z.div_mod (a + 2 ^ 63) (2 ^ 64) ltac:(lia)). lia.
Qed.

Lemma mul64_wrap_l (a b : Z) : mul64 (wrap64 a) b = wrap64 (a * b).
Proof.
  unfold mul64. destruct (wrap64_decomp a) as [k ->].
  replace ((a + k * 2 ^ 64) * b) with (a * b + (k * b) * 2 ^ 64) by lia.
  apply wrap64_plus_multiple.
Qed.

Lemma foldl_mul64 (l : list Z) (a : Z) :
  foldl mul64 (wrap64 a) l = wrap64 (a * product l).
Proof.
  revert a. induction l as [|x l IH]; intros a; cbn [foldl product foldr].
  - f_equal. lia.
  - rewrite mul64_wrap_l, IH. f_equal. unfold product. lia.
Qed.

(** The loop over the target is the scan of the target. *)
Lemma reshape_loop_scan (target : list Z) (n k : nat) (s1 negIndex : Z) :
  (k + n = length target)%nat ->
  forM (reshape_body target) (Z.of_nat <$> seq k n) (s1, negIndex) =
  reshape_scan (drop k target) (Z.of_nat k) s1 negIndex.
Proof.
  revert k s1 negIndex. induction n as [|n IH]; intros k s1 negIndex Hk.
  - rewrite drop_ge by lia. done.
  - destruct (lookup_lt_is_Some_2 target k) as [v Hv]; [lia|].
    rewrite (drop_lookup_S _ _ _ Hv), upto_from.
    cbn [forM reshape_body reshape_scan].
    rewrite (vec_at_nat _ _ _ Hv). cbn [mbind Expected_bind].
    replace (Z.of_nat k + 1) with (Z.of_nat (S k)) by lia.
    destruct (v =? -1); [destruct (negIndex =? -1); [|done]|];
      cbn [mbind Expected_bind]; apply IH; lia.
Qed.

Lemma product_cons (v : Z) (l : list Z) : product (v :: l) = v * product l.
Proof. done. Qed.

(** A scan that has already met a [-1]. *)
Lemma reshape_scan_found (l : list Z) (i p j : Z) :
  j ≠ -1 ->
  reshape_scan l i (wrap64 p) j =
  if decide (unknowns l = 0%nat) then Ok (wrap64 (p * product l), j)
  else Err "Unable to infer undetermined dimension".
Proof.
  intros Hj. revert i p. induction l as [|v l IH]; intros i p.
  - cbn. f_equal. f_equal. f_equal. lia.
  - cbn [reshape_scan]. unfold unknowns in *. cbn [count_occ].
    replace (j =? -1) with false by (symmetry; apply Z.eqb_neq; lia).
    destruct (Z.eqb_spec v (-1)) as [->|Hv].
    + destruct (Z.eq_dec (-1) (-1)); [|done]. by case_decide.
    + destruct (Z.eq_dec v (-1)); [done|].
      rewrite mul64_wrap_l, IH, product_cons.
      case_decide; [|done]. do 3 f_equal. lia.
Qed.

(** A scan that has met no [-1] yet. *)
Lemma reshape_scan_fresh (l : list Z) (i p : Z) :
  0 <= i ->
  reshape_scan l i (wrap64 p) (-1) =
  match unknowns l with
  | 0%nat => Ok (wrap64 (p * product l), -1)
  | 1%nat => Ok (wrap64 (p * product l), i + Z.of_nat (find_neg l))
  | _ => Err "Unable to infer undetermined dimension"
  end.
Proof.
  revert i p. induction l as [|v l IH]; intros i p Hi.
  - cbn. do 3 f_equal. lia.
  - cbn [reshape_scan find_neg]. unfold unknowns in *. cbn [count_occ].
    change (-1 =? -1) with true. cbv iota.
    destruct (Z.eqb_spec v (-1)) as [->|Hv].
    + destruct (Z.eq_dec (-1) (-1)); [|done].
      rewrite mul64_wrap_l, reshape_scan_found by lia.
      rewrite product_cons. fold (unknowns l).
      case_decide as Hu.
      * rewrite Hu. do 3 f_equal; lia.
      * destruct (unknowns l); done.
    + destruct (Z.eq_dec v (-1)); [done|].
      rewrite mul64_wrap_l, IH, product_cons by lia.
      destruct (count_occ Z.eq_dec l (-1)) as [|[|?]]; try done.
      * do 3 f_equal; lia.
      * do 2 f_equal; [f_equal|]; lia.
Qed.

Lemma known_product_cons (v : Z) (l : list Z) :
  known_product (v :: l) =
  if decide (v = -1) then known_product l else v * known_product l.
Proof.
  unfold known_product. case_decide as Hv.
  - by rewrite filter_cons_False by (intros H; apply H, Hv).
  - by rewrite filter_cons_True by done.
Qed.

Lemma unknowns_cons (v : Z) (l : list Z) :
  unknowns (v :: l) = if decide (v = -1) then S (unknowns l) else unknowns l.
Proof.
  unfold unknowns. cbn [count_occ].
  destruct (Z.eq_dec v (-1)); case_decide; done.
Qed.

Lemma product_no_unknown (l : list Z) :
  unknowns l = 0%nat -> product l = known_product l ∧ ∀ q, resolve l q = l.
Proof.
  induction l as [|v l IH]; [done|].
  rewrite unknowns_cons, known_product_cons, product_cons.
  case_decide as Hv; [done|]. intros Hu. destruct (IH Hu) as [-> Hr].
  split; [done|]. intros q. unfold resolve in *. rewrite fmap_cons, Hr.
  by replace (v =? -1) with false by (symmetry; apply Z.eqb_neq; lia).
Qed.

Lemma product_one_unknown (l : list Z) :
  unknowns l = 1%nat ->
  product l = - known_product l ∧
  (find_neg l < length l)%nat ∧
  ∀ q, <[find_neg l := q]> l = resolve l q ∧
       product (resolve l q) = q * known_product l.
Proof.
  induction l as [|v l IH]; [done|].
  rewrite unknowns_cons, known_product_cons, product_cons.
  cbn [find_neg length]. case_decide as Hv.
  - subst v. intros [= Hu]. destruct (product_no_unknown l Hu) as [Hp Hr].
    change (-1 =? -1) with true. cbv iota.
    split; [lia|]. split; [lia|]. intros q.
    assert (Hres : resolve (-1 :: l) q = q :: l).
    { unfold resolve in *. rewrite fmap_cons, Hr. done. }
    rewrite Hres, product_cons, Hp. done.
  - intros Hu. destruct (IH Hu) as (Hp & Hlt & Hq).
    replace (v =? -1) with false by (symmetry; apply Z.eqb_neq; lia).
    split; [lia|]. split; [lia|]. intros q. destruct (Hq q) as [Hi Hpq].
    assert (Hres : resolve (v :: l) q = v :: resolve l q).
    { unfold resolve. rewrite fmap_cons.
      by replace (v =? -1) with false by (symmetry; apply Z.eqb_neq; lia). }
    rewrite Hres, product_cons, Hpq.
    change (<[S (find_neg l) := q]> (v :: l)) with (v :: <[find_neg l := q]> l).
    rewrite Hi.
    split; [done|lia].
Qed.

Lemma product_zero (l : list Z) : 0 ∈ l -> product l = 0.
Proof.
  induction l as [|v l IH]; [by intros ?%elem_of_nil|].
  rewrite product_cons. intros [<-|H]%elem_of_cons; [lia|].
  rewrite IH by done. lia.
Qed.

Section Reshape.

(** The operands of [reshape]: a record holding a shape, and the target
    as the integer payload of the second record. *)
Context (T R : VariableMeta) (t : TensorShape).
Hypothesis HT : shapeT T = Ok t.

(** [reshape] up to the divisibility test. *)
Lemma reshape_unfold :
  reshape [T; R] =
  ('(s1, negIndex) ←
     match unknowns (intValue R) with
     | 0%nat => Ok (wrap64 (product (intValue R)), -1)
     | 1%nat => Ok (wrap64 (product (intValue R)),
                    Z.of_nat (find_neg (intValue R)))
     | _ => Err "Unable to infer undetermined dimension"
     end;
   r ← rem64 (wrap64 (product t)) s1;
   _ ← RETURN_ERR_IF_NOT (r =? 0) "Reshape size is invalid for input size.";
   if negb (negIndex =? -1) then
     q ← div64 (neg64 (wrap64 (product t))) s1;
     vec_set (intValue R) negIndex q
   else Ok (intValue R)).
Proof.
  unfold reshape.
  change (vsize [T; R] =? 2) with true.
  cbn [RETURN_ERR_IF_NOT mbind Expected_bind].
  rewrite (vec_at_ok [T; R] 0 T), (vec_at_ok [T; R] 1 R) by vec_index.
  cbn [mbind Expected_bind]. rewrite HT. cbn [mbind Expected_bind].
  unfold upto, vsize. rewrite Nat2Z.id.
  rewrite reshape_loop_scan by lia. rewrite drop_0.
  replace (foldl mul64 1 t) with (foldl mul64 (wrap64 1) t) by done.
  replace (reshape_scan (intValue R) (Z.of_nat 0) 1 (-1))
    with (reshape_scan (intValue R) 0 (wrap64 1) (-1)) by done.
  rewrite reshape_scan_fresh by lia.
  rewrite foldl_mul64, !Z.mul_1_l, Z.add_0_l.
  destruct (unknowns (intValue R)) as [|[|?]]; reflexivity.
Qed.

(** X2.  Two or more [-1] entries are refused. *)
Lemma reshape_two_unknowns :
  (2 <= unknowns (intValue R))%nat ->
  reshape [T; R] = Err "Unable to infer undetermined dimension".
Proof.
  intros H2. rewrite reshape_unfold.
  destruct (unknowns (intValue R)) as [|[|?]]; [lia..|done].
Qed.

(** C4, the failing case.  A zero extent in the target makes the product
    [s1] zero, and the divisibility test [s0 % s1] divides by it: the call
    neither returns the target nor a failure. *)
Theorem reshape_zero_extent :
  (unknowns (intValue R) <= 1)%nat ->
  0 ∈ intValue R ->
  reshape [T; R] = Crash ArithTrap.
Proof.
  intros Hu H0. rewrite reshape_unfold.
  rewrite (product_zero _ H0).
  destruct (unknowns (intValue R)) as [|[|?]]; [done..|lia].
Qed.

(** X3.  Away from zero extents and overflow, [reshape] does what the
    specification says: an indivisible element count is refused. *)
Lemma reshape_indivisible :
  (unknowns (intValue R) <= 1)%nat ->
  - 2 ^ 63 < product t < 2 ^ 63 ->
  - 2 ^ 63 < known_product (intValue R) < 2 ^ 63 ->
  known_product (intValue R) ≠ 0 ->
  ¬ (known_product (intValue R) | product t) ->
  reshape [T; R] = Err "Reshape size is invalid for input size.".
Proof.
  intros Hu Ht HP HP0 Hdiv. rewrite reshape_unfold.
  set (P := known_product (intValue R)) in *.
  assert (Hs1 : ∃ s1, (s1 = P ∨ s1 = - P) ∧
    ∃ j, match unknowns (intValue R) with
         | 0%nat => Ok (wrap64 (product (intValue R)), -1)
         | 1%nat => Ok (wrap64 (product (intValue R)),
                        Z.of_nat (find_neg (intValue R)))
         | _ => Err "Unable to infer undetermined dimension"
         end = Ok (s1, j)).
  { destruct (unknowns (intValue R)) as [|[|?]] eqn:E; [| |lia].
    - destruct (product_no_unknown _ E) as [-> _]. fold P.
      exists P. split; [by left|]. eexists. by rewrite wrap64_id by lia.
    - destruct (product_one_unknown _ E) as [-> _]. fold P.
      exists (- P). split; [by right|]. eexists. by rewrite wrap64_id by lia. }
  destruct Hs1 as (s1 & Hs1 & j & ->). cbn [mbind Expected_bind].
  rewrite wrap64_id by lia. unfold rem64.
  replace (s1 =? 0) with false by (symmetry; apply Z.eqb_neq; lia).
  replace (product t =? - 2 ^ 63) with false by (symmetry; apply Z.eqb_neq; lia).
  cbn [orb andb mbind Expected_bind].
  replace (Z.rem (product t) s1 =? 0) with false; [done|].
  symmetry. apply Z.eqb_neq. intros Hrem.
  apply Z.rem_divide in Hrem; [|lia]. apply Hdiv.
  destruct Hs1 as [->| ->]; [done|]. by apply Z.divide_opp_l.
Qed.

(** X4.  A divisible element count gives the target, its [-1] entry resolved to
    the quotient; with one [-1] the element count is preserved. *)
Lemma reshape_resolved :
  (unknowns (intValue R) <= 1)%nat ->
  - 2 ^ 63 < product t < 2 ^ 63 ->
  - 2 ^ 63 < known_product (intValue R) < 2 ^ 63 ->
  known_product (intValue R) ≠ 0 ->
  (known_product (intValue R) | product t) ->
  let out := resolve (intValue R) (product t / known_product (intValue R)) in
  reshape [T; R] = Ok out ∧
  (unknowns (intValue R) = 1%nat -> product out = product t).
Proof.
  intros Hu Ht HP HP0 [c Hc] out. rewrite reshape_unfold.
  unfold out. clear out.
  set (P := known_product (intValue R)) in *.
  assert (Hq : product t / P = c) by (rewrite Hc; by apply Z.div_mul).
  rewrite Hq.
  destruct (unknowns (intValue R)) as [|[|?]] eqn:E; [| |lia].
  - destruct (product_no_unknown _ E) as [-> Hr]. fold P.
    cbn [mbind Expected_bind]. rewrite !wrap64_id by lia.
    unfold rem64.
    replace (P =? 0) with false by (symmetry; apply Z.eqb_neq; lia).
    replace (product t =? - 2 ^ 63) with false
      by (symmetry; apply Z.eqb_neq; lia).
    cbn [orb andb mbind Expected_bind].
    rewrite Hc, Z.rem_mul by done. cbn. rewrite Hr. by split.
  - destruct (product_one_unknown _ E) as (-> & Hlt & Hres). fold P.
    destruct (Hres c) as [Hins Hprod].
    cbn [mbind Expected_bind]. rewrite !wrap64_id by lia.
    unfold rem64, div64, neg64. rewrite wrap64_id by lia.
    replace (- P =? 0) with false by (symmetry; apply Z.eqb_neq; lia).
    replace (product t =? - 2 ^ 63) with false
      by (symmetry; apply Z.eqb_neq; lia).
    replace (- product t =? - 2 ^ 63) with false
      by (symmetry; apply Z.eqb_neq; lia).
    cbn [orb andb mbind Expected_bind].
    rewrite Z.rem_opp_r by lia. rewrite Hc at 1. rewrite Z.rem_mul by done.
    cbn [Z.eqb RETURN_ERR_IF_NOT mbind Expected_bind].
    replace (Z.of_nat (find_neg (intValue R)) =? -1) with false
      by (symmetry; apply Z.eqb_neq; lia).
    cbn [negb]. rewrite Z.quot_opp_opp by lia. rewrite Hc at 1.
    rewrite Z.quot_mul by done.
    rewrite vec_set_ok by (unfold vsize; lia). rewrite Nat2Z.id, Hins.
    split; [done|]. intros _. rewrite Hprod. fold P. lia.
Qed.

End Reshape.

Lemma reshape_zero_extent_witness :
  reshape [tensor [0; 3]; intList [0; 5]] = Crash ArithTrap.
Proof.
  apply (reshape_zero_extent (tensor [0; 3]) (intList [0; 5]) [0; 3]).
  - reflexivity.
  - unfold unknowns. simpl. lia.
  - simpl. apply list_elem_of_here.
Defined.

Example reshape_zero_extent_indivisible :
  reshape [tensor [2; 3]; intList [0]] = Crash ArithTrap.
Proof. reflexivity. Qed.

Example reshape_examples :
  reshape [tensor [2; 3]; intList [3; -1]] = Ok [3; 2] ∧
  reshape [tensor [2; 3]; intList [-1; -1]] =
    Err "Unable to infer undetermined dimension" ∧
  reshape [tensor [2; 3]; intList [4; -1]] =
    Err "Reshape size is invalid for input size.".
Proof. repeat split; reflexivity. Qed.

(** ** The dispatcher on constants *)

(** Decide the comparisons of a literal kind with the names of the catalog. *)
Ltac decide_kinds :=
  repeat match goal with
  | |- context [String.eqb ?a ?b] =>
    let r := eval vm_compute in (String.eqb a b) in
    change (String.eqb a b) with r
  end;
  cbn [orb].

Lemma getNodeInputShape_loop (shapeMap_ : ShapeMap) (l : list Value)
    (acc : MetaStack) :
  (∀ v, v ∈ l -> is_Some (shapeMap_ !! v)) ->
  forM (fun input inputMetas =>
          _ ← CHECK (bool_decide (is_Some (shapeMap_ !! input)));
          Ok (inputMetas ++ [entry shapeMap_ input])) l acc
  = Ok (acc ++ (entry shapeMap_ <$> l)).
Proof.
  revert acc. induction l as [|v l IH]; intros acc H.
  - cbn. by rewrite app_nil_r.
  - cbn [forM]. rewrite bool_decide_eq_true_2 by (apply H, list_elem_of_here).
    cbn [CHECK mbind Expected_bind]. rewrite IH.
    + by rewrite fmap_cons, <- app_assoc.
    + intros w Hw. apply H. by apply list_elem_of_further.
Qed.

Lemma getNodeInputShape_ok (node : Node) (shapeMap_ : ShapeMap) :
  (∀ v, v ∈ n_inputs node -> is_Some (shapeMap_ !! v)) ->
  getNodeInputShape node shapeMap_ = Ok (entry shapeMap_ <$> n_inputs node).
Proof. intros H. unfold getNodeInputShape. by rewrite getNodeInputShape_loop. Qed.

(** C10.  A constant whose declared type is none of float, int, bool,
    None and tensor gets an empty shape from [primConstant], without a
    failure; [shapeOnNode] then records the placeholder shape [[1]] and an
    empty integer payload for its output. *)
Theorem constant_other_type (hasEndOffset_ : bool) (node : Node) (out : Value)
    (shapeMap_ : ShapeMap) :
  n_kind node = "prim::Constant" ->
  n_outputs node = [out] ->
  (∀ v, v ∈ n_inputs node -> is_Some (shapeMap_ !! v)) ->
  n_type node ∉ [FloatType; IntType; BoolType; NoneType; TensorType] ->
  primConstant node = Ok [] ∧
  ∃ m' : ShapeMap,
    shapeOnNode hasEndOffset_ node shapeMap_ = Ok m' ∧
    m' !! out =
      Some (mkMeta (listOfShape (entry shapeMap_ out) ++ [ETensor [1]]) []
                   (dtype (entry shapeMap_ out))) ∧
    (shapeMap_ !! out = None ->
     m' !! out = Some (mkMeta [ETensor [1]] [] Float)) ∧
    (∀ v, v ≠ out -> m' !! v = shapeMap_ !! v).
Proof.
  intros Hk Hout Hin Hty.
  repeat (apply not_elem_of_cons in Hty as [? Hty]).
  assert (Hprim : primConstant node = Ok []).
  { unfold primConstant, n_output. rewrite Hout. cbn [mbind Expected_bind].
    by rewrite !bool_decide_eq_false_2 by done. }
  split; [exact Hprim|].
  unfold shapeOnNode. rewrite getNodeInputShape_ok by done.
  cbn [mbind Expected_bind].
  unfold dispatch. rewrite Hk. cbv beta zeta. decide_kinds.
  rewrite Hprim. cbn [single mbind Expected_bind].
  unfold package. rewrite Hk. cbv beta zeta. decide_kinds.
  unfold n_output. rewrite Hout. cbn [mbind Expected_bind].
  rewrite bool_decide_eq_false_2 by done.
  change (vec_at _ 0) with (@Ok TensorShape []). cbn [mbind Expected_bind].
  eexists. split; [reflexivity|].
  unfold set_intValue, emplace_shape.
  assert (He : entry (<[out := mkMeta (listOfShape (entry shapeMap_ out) ++ [ETensor [1]])
                           (intValue (entry shapeMap_ out))
                           (dtype (entry shapeMap_ out))]> shapeMap_) out
               = mkMeta (listOfShape (entry shapeMap_ out) ++ [ETensor [1]])
                   (intValue (entry shapeMap_ out)) (dtype (entry shapeMap_ out))).
  { unfold entry at 1. by rewrite lookup_insert_eq. }
  rewrite He. cbn [listOfShape dtype].
  split; [by rewrite lookup_insert_eq|]. split.
  - intros Hnone. rewrite lookup_insert_eq. unfold entry. by rewrite Hnone.
  - intros v Hv. by rewrite !lookup_insert_ne by done.
Qed.

Lemma constant_other_type_witness :
  primConstant (mkNode "prim::Constant" [] [7%nat] StringType ∅ None) = Ok [] ∧
  ∃ m' : ShapeMap,
    shapeOnNode true (mkNode "prim::Constant" [] [7%nat] StringType ∅ None) ∅
      = Ok m' ∧
    m' !! 7%nat =
      Some (mkMeta (listOfShape (entry ∅ 7%nat) ++ [ETensor [1]]) []
                   (dtype (entry ∅ 7%nat))) ∧
    ((∅ : ShapeMap) !! 7%nat = None ->
     m' !! 7%nat = Some (mkMeta [ETensor [1]] [] Float)) ∧
    (∀ v, v ≠ 7%nat -> m' !! v = (∅ : ShapeMap) !! v).
Proof.
  apply (constant_other_type true
           (mkNode "prim::Constant" [] [7%nat] StringType ∅ None) 7%nat ∅).
  - reflexivity.
  - reflexivity.
  - intros v Hv. simpl in Hv. by apply elem_of_nil in Hv.
  - simpl. intros H. repeat (apply elem_of_cons in H as [H|H]; [discriminate|]).
    by apply elem_of_nil in H.
Defined.

(** ** Input seeding and [run] *)

Lemma getGraphInputShape_loop (graphInputs : list Value) (inputs : list IValue)
    (n k : nat) (shapeMap_ : ShapeMap) :
  (k + n = length inputs)%nat ->
  forM (fun i shapeMap_ =>
          gInName ← vec_at graphInputs i;
          input ← vec_at inputs i;
          '(shape, intValue) ← classifyInput input;
          let shapeMap_ := emplace_shape shapeMap_ gInName (ETensor shape) in
          Ok (set_intValue shapeMap_ gInName intValue))
    (Z.of_nat <$> seq k n) shapeMap_
  = seed_inputs (drop k graphInputs) (drop k inputs) shapeMap_.
Proof.
  revert k shapeMap_. induction n as [|n IH]; intros k m Hk.
  - rewrite (drop_ge inputs) by lia. done.
  - destruct (lookup_lt_is_Some_2 inputs k) as [x Hx]; [lia|].
    rewrite (drop_lookup_S _ _ _ Hx), upto_from. cbn [forM seed_inputs].
    destruct (graphInputs !! k) as [g|] eqn:Hg.
    + rewrite (drop_lookup_S _ _ _ Hg).
      rewrite (vec_at_nat _ _ _ Hg), (vec_at_nat _ _ _ Hx).
      cbn [mbind Expected_bind].
      destruct (classifyInput x) as [[shape iv]| |]; cbn [mbind Expected_bind];
        [|done..].
      apply IH. lia.
    + destruct (drop_lookup_None _ _ Hg) as [-> _]. cbn [seed_inputs].
      rewrite (vec_at_out graphInputs); [done|].
      apply lookup_ge_None in Hg. unfold vsize. lia.
Qed.

Lemma getGraphInputShape_seed (graphInputs : list Value) (inputs : list IValue)
    (shapeMap_ : ShapeMap) :
  getGraphInputShape graphInputs inputs shapeMap_ =
  seed_inputs graphInputs inputs shapeMap_.
Proof.
  unfold getGraphInputShape, upto, vsize. rewrite Nat2Z.id.
  rewrite getGraphInputShape_loop by lia. by rewrite !drop_0.
Qed.

Lemma seed_step_lookup (m : ShapeMap) (g v : Value) (shape : TensorShape)
    (iv : list Z) :
  set_intValue (emplace_shape m g (ETensor shape)) g iv !! v =
  if decide (g = v)
  then Some (mkMeta (listOfShape (entry m g) ++ [ETensor shape]) iv
                    (dtype (entry m g)))
  else m !! v.
Proof.
  unfold set_intValue, emplace_shape.
  assert (He : ∀ r, entry (<[g := r]> m) g = r).
  { intros r. unfold entry. by rewrite lookup_insert_eq. }
  rewrite He. cbn [listOfShape dtype].
  case_decide as Hgv.
  - subst v. by rewrite lookup_insert_eq.
  - by rewrite !lookup_insert_ne.
Qed.

(** A supported input is classified as the specification asks. *)
Lemma classifyInput_supported (x : IValue) :
  supported x ->
  ∃ shape iv, classifyInput x = Ok (shape, iv) ∧
              seeded x (mkMeta [ETensor shape] iv Float).
Proof.
  destruct x; try done; intros _; eexists _, _; (split; [reflexivity|]);
    by split.
Qed.

Lemma seeded_fields (x : IValue) (r0 : VariableMeta) (d : ScalarType) :
  seeded x r0 -> seeded x (mkMeta ([] ++ listOfShape r0) (intValue r0) d).
Proof. by destruct x. Qed.

(** Seeding succeeds on supported inputs, touches only the graph inputs
    and puts, for each of them, the shape of its example input behind the
    shapes it held and the integers of its example input in the place of
    those it held. *)
Lemma seed_inputs_ok (graphInputs : list Value) (inputs : list IValue)
    (m : ShapeMap) :
  length inputs = length graphInputs ->
  Forall supported inputs ->
  ∃ m' : ShapeMap,
    seed_inputs graphInputs inputs m = Ok m' ∧
    (∀ v, v ∉ graphInputs -> m' !! v = m !! v) ∧
    (NoDup graphInputs ->
     ∀ (i : nat) (v : Value) (x : IValue),
       graphInputs !! i = Some v -> inputs !! i = Some x ->
       ∃ r0, seeded x r0 ∧
             m' !! v = Some (mkMeta (listOfShape (entry m v) ++ listOfShape r0)
                               (intValue r0) (dtype (entry m v)))).
Proof.
  revert inputs m. induction graphInputs as [|g gs IH]; intros inputs m Hlen Hsup.
  - destruct inputs; [|done]. exists m. repeat split; done.
  - destruct inputs as [|x xs]; [done|].
    apply Forall_cons in Hsup as [Hx Hxs]. cbn [seed_inputs].
    destruct (classifyInput_supported x Hx) as (shape & iv & -> & Hseed).
    cbn [mbind Expected_bind]. injection Hlen as Hlen.
    destruct (IH xs (set_intValue (emplace_shape m g (ETensor shape)) g iv)
                Hlen Hxs) as (m' & -> & Hother & Hin).
    exists m'. split; [done|]. split.
    + intros v [Hvg Hv]%not_elem_of_cons.
      rewrite Hother, seed_step_lookup by done. by case_decide.
    + intros [Hg Hnd]%NoDup_cons i v x' Hi Hx'.
      destruct i as [|i].
      * injection Hi as <-. injection Hx' as <-.
        exists (mkMeta [ETensor shape] iv Float). split; [done|].
        rewrite Hother, seed_step_lookup by done. by case_decide.
      * destruct (Hin Hnd i v x' Hi Hx') as (r0 & Hr0 & Hv).
        exists r0. split; [done|]. rewrite Hv.
        assert (Hgv : g ≠ v).
        { intros ->. apply Hg. by eapply list_elem_of_lookup_2. }
        unfold entry. rewrite seed_step_lookup. by case_decide.
Qed.

(** Seeding stops at the first input that is not supported, with what its
    classification gives. *)
Lemma seed_inputs_stops (graphInputs : list Value) (good rest : list IValue)
    (x : IValue) (m : ShapeMap) :
  length (good ++ x :: rest) = length graphInputs ->
  Forall supported good ->
  (∀ msg, classifyInput x = Err msg ->
          seed_inputs graphInputs (good ++ x :: rest) m = Err msg) ∧
  (∀ f, classifyInput x = Crash f ->
        seed_inputs graphInputs (good ++ x :: rest) m = Crash f).
Proof.
  revert graphInputs m. induction good as [|y good IH];
    intros gs m Hlen Hgood.
  - destruct gs as [|g gs]; [done|]. cbn [app seed_inputs].
    split; intros ? ->; done.
  - destruct gs as [|g gs]; [done|]. cbn [app seed_inputs].
    apply Forall_cons in Hgood as [Hy Hgood].
    destruct (classifyInput_supported y Hy) as (shape & iv & -> & _).
    cbn [mbind Expected_bind]. apply IH; [|done].
    cbn [app length] in Hlen. by injection Hlen.
Qed.

(** [runRecursively] seeds the inputs and then visits the nodes in order. *)
Lemma runRecursively_eq (fusionNodeSymbol_ : string) (hasEndOffset_ : bool)
    (graph : Graph) (inputs : list IValue) (shapeMap_ : ShapeMap) :
  runRecursively fusionNodeSymbol_ hasEndOffset_ graph inputs shapeMap_ =
  (m ← getGraphInputShape (g_inputs graph) inputs shapeMap_;
   forM (visitNode fusionNodeSymbol_ hasEndOffset_) (g_nodes graph) m).
Proof.
  destruct graph as [gi nodes go]. cbn [runRecursively g_inputs g_nodes].
  destruct (getGraphInputShape gi inputs shapeMap_) as [m| |];
    cbn [mbind Expected_bind]; [|done..].
  revert m. induction nodes as [|node nodes IH]; intros m; [done|].
  cbn [forM]. unfold visitNode at 2.
  destruct node as [k i o ty a [sub|]]; cbn [n_subgraph];
    match goal with
    | |- (?e ≫= _) = _ => destruct e; cbn [mbind Expected_bind]; [apply IH|done..]
    end.
Qed.

(** C6, with the failing case.  [run] fails with the arity error when the
    number of example inputs differs from the number of graph inputs.
    Otherwise seeding gives every graph input the record of its example
    input, for tensors, integers and lists of integers: the dimensions of
    a tensor and no integers; the shape [[1]] and the value of an integer;
    the shape [[length, 1]] and the elements of a list of integers.  The
    shape is stored behind the shapes that the graph input held, so that
    the record is the one the claim lists when the graph input is new to
    the map.  An example input of another kind makes [run] fail with the
    unsupported-input-type error.  The failing case: on a boolean,
    [getGraphInputShape] calls [toInt], which throws, where the claim has
    the shape [[1]] and the value recorded. *)
Theorem run_input_seeding (e : ShapeInferenceEngine) :
  (vsize (inputs_ e) ≠ vsize (g_inputs (graph_ e)) ->
   run e = Err "Number of inputs mismatch between Graph and actual inputs") ∧
  (vsize (inputs_ e) = vsize (g_inputs (graph_ e)) ->
   Forall supported (inputs_ e) ->
   NoDup (g_inputs (graph_ e)) ->
   ∃ m' : ShapeMap,
     getGraphInputShape (g_inputs (graph_ e)) (inputs_ e) (shapeMap_ e) = Ok m' ∧
     ∀ (i : nat) (v : Value) (x : IValue),
       g_inputs (graph_ e) !! i = Some v -> inputs_ e !! i = Some x ->
       ∃ r, m' !! v = Some r ∧
            (∃ r0, seeded x r0 ∧
                   r = mkMeta (listOfShape (entry (shapeMap_ e) v) ++
                               listOfShape r0)
                         (intValue r0) (dtype (entry (shapeMap_ e) v))) ∧
            (shapeMap_ e !! v = None -> seeded x r)) ∧
  (vsize (inputs_ e) = vsize (g_inputs (graph_ e)) ->
   ∀ good rest, inputs_ e = good ++ IOther :: rest -> Forall supported good ->
   run e = Err "Input type doesn't support yet.") ∧
  (vsize (inputs_ e) = vsize (g_inputs (graph_ e)) ->
   ∀ good rest b, inputs_ e = good ++ IBool b :: rest ->
   Forall supported good ->
   run e = Crash TorchError).
Proof.
  split; [|split; [|split]].
  - intros Hne. unfold run.
    by replace (vsize (inputs_ e) =? vsize (g_inputs (graph_ e))) with false
      by (symmetry; by apply Z.eqb_neq).
  - intros Hlen Hsup Hnd. rewrite getGraphInputShape_seed.
    destruct (seed_inputs_ok (g_inputs (graph_ e)) (inputs_ e) (shapeMap_ e))
      as (m' & Hm' & _ & Hrec); [unfold vsize in Hlen; lia|done|].
    exists m'. split; [done|]. intros i v x Hi Hx.
    destruct (Hrec Hnd i v x Hi Hx) as (r0 & Hr0 & Hv).
    eexists. split; [exact Hv|]. split; [by exists r0|].
    intros Hnew. unfold entry. rewrite Hnew. cbn [default emptyMeta].
    by apply seeded_fields.
  - intros Hlen good rest Hin Hgood. unfold run. rewrite Hlen, Z.eqb_refl.
    cbn [RETURN_ERR_IF_NOT mbind Expected_bind].
    rewrite runRecursively_eq, getGraphInputShape_seed, Hin.
    destruct (seed_inputs_stops (g_inputs (graph_ e)) good rest IOther
                (shapeMap_ e)) as [H _]; [|done|].
    + rewrite <- Hin. unfold vsize in Hlen. lia.
    + by rewrite (H _ eq_refl).
  - intros Hlen good rest b Hin Hgood. unfold run. rewrite Hlen, Z.eqb_refl.
    cbn [RETURN_ERR_IF_NOT mbind Expected_bind].
    rewrite runRecursively_eq, getGraphInputShape_seed, Hin.
    destruct (seed_inputs_stops (g_inputs (graph_ e)) good rest (IBool b)
                (shapeMap_ e)) as [_ H]; [|done|].
    + rewrite <- Hin. unfold vsize in Hlen. lia.
    + by rewrite (H _ eq_refl).
Qed.

Lemma run_input_seeding_witness :
  run (engine_on []) =
    Err "Number of inputs mismatch between Graph and actual inputs" ∧
  (∃ m' : ShapeMap,
     getGraphInputShape [1]%nat [IIntList [7; 8; 9]] ∅ = Ok m' ∧
     ∃ r, m' !! 1%nat = Some r ∧ seeded (IIntList [7; 8; 9]) r) ∧
  (∃ m' : ShapeMap,
     getGraphInputShape [1]%nat [ITensor [2; 3] Float]
       {[ 1%nat := tensor [9] ]} = Ok m' ∧
     ∃ r0, seeded (ITensor [2; 3] Float) r0 ∧
           m' !! 1%nat =
             Some (mkMeta ([ETensor [9]] ++ listOfShape r0) (intValue r0)
                     Float)) ∧
  run (engine_on [IOther]) = Err "Input type doesn't support yet." ∧
  run (engine_on [IBool true]) = Crash TorchError.
Proof.
  split; [|split; [|split; [|split]]].
  - destruct (run_input_seeding (engine_on [])) as (H & _).
    apply H. vm_compute. discriminate.
  - destruct (run_input_seeding (engine_on [IIntList [7; 8; 9]]))
      as (_ & H & _).
    destruct H as (m' & Hm' & Hrec).
    + reflexivity.
    + by repeat constructor.
    + simpl. apply NoDup_singleton.
    + exists m'. split; [exact Hm'|].
      destruct (Hrec 0%nat 1%nat (IIntList [7; 8; 9]) eq_refl eq_refl)
        as (r & Hr & _ & Hfresh).
      exists r. split; [exact Hr|]. apply Hfresh. apply lookup_empty.
  - destruct (run_input_seeding
                (mkEngine one_input_graph [ITensor [2; 3] Float]
                   "glow::FusionGroup" true {[ 1%nat := tensor [9] ]} []))
      as (_ & H & _).
    destruct H as (m' & Hm' & Hrec).
    + reflexivity.
    + by repeat constructor.
    + simpl. apply NoDup_singleton.
    + exists m'. split; [exact Hm'|].
      destruct (Hrec 0%nat 1%nat (ITensor [2; 3] Float) eq_refl eq_refl)
        as (r & Hr & (r0 & Hr0 & Heq) & _).
      exists r0. split; [exact Hr0|].
      transitivity (Some r); [exact Hr|]. f_equal. exact Heq.
  - destruct (run_input_seeding (engine_on [IOther])) as (_ & _ & H & _).
    apply (H eq_refl [] []); [reflexivity|constructor].
  - destruct (run_input_seeding (engine_on [IBool true])) as (_ & _ & _ & H).
    apply (H eq_refl [] [] true); [reflexivity|constructor].
Defined.

(** ** Nodes with a subgraph *)

Lemma entry_copy_entry (m : ShapeMap) (o so v : Value) :
  v ≠ o -> entry (copy_entry m o so) v = entry m v.
Proof.
  intros Hv. unfold copy_entry, entry at 1.
  rewrite lookup_insert_ne by done.
  destruct (decide (so = v)) as [->|Hne].
  - by rewrite lookup_insert_eq.
  - by rewrite lookup_insert_ne.
Qed.

Lemma entry_copy_outputs (outs subs : list Value) (m : ShapeMap) (v : Value) :
  v ∉ outs -> entry (copy_outputs outs subs m) v = entry m v.
Proof.
  revert subs m. induction outs as [|o outs IH]; intros subs m Hv; [done|].
  apply not_elem_of_cons in Hv as [Hvo Hv].
  destruct subs as [|so subs]; [done|]. cbn [copy_outputs].
  rewrite IH by done. by apply entry_copy_entry.
Qed.

Lemma lookup_copy_outputs (outs subs : list Value) (m : ShapeMap) (v : Value) :
  v ∉ outs -> v ∉ subs -> copy_outputs outs subs m !! v = m !! v.
Proof.
  revert subs m. induction outs as [|o outs IH]; intros subs m Hvo Hvs; [done|].
  apply not_elem_of_cons in Hvo as [Hvo Hvo'].
  destruct subs as [|so subs]; [done|].
  apply not_elem_of_cons in Hvs as [Hvs Hvs']. cbn [copy_outputs].
  rewrite IH by done. unfold copy_entry. by rewrite !lookup_insert_ne.
Qed.

(** After the copy every output of the node holds the record its
    subgraph output had, and the subgraph outputs keep theirs. *)
Lemma copy_outputs_spec (outs subs : list Value) (m : ShapeMap) :
  NoDup outs -> (∀ o, o ∈ outs -> o ∉ subs) ->
  ∀ (i : nat) (o so : Value),
    outs !! i = Some o -> subs !! i = Some so ->
    copy_outputs outs subs m !! o = Some (entry m so) ∧
    entry (copy_outputs outs subs m) so = entry m so.
Proof.
  revert subs m. induction outs as [|o' outs IH];
    intros subs m Hnd Hdis i o so Ho Hso; [done|].
  destruct subs as [|so' subs]; [done|].
  apply NoDup_cons in Hnd as [Hfresh Hnd].
  assert (Hso_out : so ∉ o' :: outs).
  { intros Hin. apply (Hdis so Hin). by eapply list_elem_of_lookup_2. }
  split; [|by apply entry_copy_outputs].
  cbn [copy_outputs]. destruct i as [|i].
  - injection Ho as <-. injection Hso as <-.
    rewrite lookup_copy_outputs.
    + unfold copy_entry. by rewrite lookup_insert_eq.
    + done.
    + intros Hin. apply (Hdis o'); [apply list_elem_of_here|].
      by apply list_elem_of_further.
  - cbn in Ho, Hso.
    destruct (IH subs (copy_entry m o' so')) with (i := i) (o := o) (so := so)
      as [-> _]; try done.
    + intros w Hw Hin. apply (Hdis w); [by apply list_elem_of_further|].
      by apply list_elem_of_further.
    + f_equal. apply entry_copy_entry.
      apply not_elem_of_cons in Hso_out as [? _]. done.
Qed.

Lemma copy_loop (outs subs : list Value) (n k : nat) (m : ShapeMap) :
  (k + n = length subs)%nat -> length outs = length subs ->
  forM (fun i shapeMap_ =>
          o ← vec_at outs i;
          so ← vec_at subs i;
          Ok (copy_entry shapeMap_ o so))
    (Z.of_nat <$> seq k n) m
  = Ok (copy_outputs (drop k outs) (drop k subs) m).
Proof.
  revert k m. induction n as [|n IH]; intros k m Hk Hlen.
  - rewrite (drop_ge outs), (drop_ge subs) by lia. done.
  - destruct (lookup_lt_is_Some_2 outs k) as [o Ho]; [lia|].
    destruct (lookup_lt_is_Some_2 subs k) as [so Hso]; [lia|].
    rewrite (drop_lookup_S _ _ _ Ho), (drop_lookup_S _ _ _ Hso), upto_from.
    cbn [forM copy_outputs].
    rewrite (vec_at_nat _ _ _ Ho), (vec_at_nat _ _ _ Hso).
    cbn [mbind Expected_bind]. apply IH; lia.
Qed.

(** C5.  When the walker visits a node with a subgraph and the walk of the
    subgraph succeeds: if the subgraph and the node differ in their number
    of outputs the visit stops on the failed check; otherwise the visit
    succeeds and, in the resulting map, every output of the node holds the
    record of the subgraph output at the same position.  On the fusion
    example, [mm] on the shapes [[4, 5]] and [[5, 6]], the output of the
    node has shape [[4, 6]] and its record is that of the subgraph output. *)
Theorem fusion_outputs (fusionNodeSymbol_ : string) (hasEndOffset_ : bool)
    (node : Node) (subgraph : Graph) (m m1 : ShapeMap) (ins : list IValue) :
  n_subgraph node = Some subgraph ->
  String.prefix fusionNodeSymbol_ (n_kind node) = true ->
  subgraphInputs node m = Ok ins ->
  runRecursively fusionNodeSymbol_ hasEndOffset_ subgraph ins m = Ok m1 ->
  (length (g_outputs subgraph) ≠ length (n_outputs node) ->
   visitNode fusionNodeSymbol_ hasEndOffset_ node m = Crash CheckFailed) ∧
  (length (g_outputs subgraph) = length (n_outputs node) ->
   NoDup (n_outputs node) ->
   (∀ o, o ∈ n_outputs node -> o ∉ g_outputs subgraph) ->
   ∃ m2 : ShapeMap,
     visitNode fusionNodeSymbol_ hasEndOffset_ node m = Ok m2 ∧
     ∀ (i : nat) (o so : Value),
       n_outputs node !! i = Some o -> g_outputs subgraph !! i = Some so ->
       m2 !! o = Some (entry m1 so) ∧ entry m2 so = entry m1 so) ∧
  (∃ e' : ShapeInferenceEngine,
     run mm_fusion_engine = Ok e' ∧
     outputShape_ e' = [tensor [4; 6]] ∧
     shapeMap_ e' !! 3%nat = Some (tensor [4; 6]) ∧
     shapeMap_ e' !! 3%nat = shapeMap_ e' !! 6%nat).
Proof.
  intros Hsub Hpre Hins Hrec.
  assert (Hvisit : visitNode fusionNodeSymbol_ hasEndOffset_ node m =
    (_ ← CHECK (vsize (g_outputs subgraph) =? vsize (n_outputs node));
     forM (fun i shapeMap_ =>
             o ← vec_at (n_outputs node) i;
             so ← vec_at (g_outputs subgraph) i;
             Ok (copy_entry shapeMap_ o so))
       (upto (vsize (g_outputs subgraph))) m1)).
  { unfold visitNode. rewrite Hsub. unfold fusionNode.
    rewrite Hpre, Hins. cbn [CHECK mbind Expected_bind].
    by rewrite Hrec. }
  rewrite Hvisit. split; [|split].
  - intros Hne.
    by replace (vsize (g_outputs subgraph) =? vsize (n_outputs node)) with false
      by (symmetry; apply Z.eqb_neq; unfold vsize; lia).
  - intros Hlen Hnd Hdis.
    replace (vsize (g_outputs subgraph) =? vsize (n_outputs node)) with true
      by (symmetry; apply Z.eqb_eq; unfold vsize; lia).
    cbn [CHECK mbind Expected_bind]. unfold upto, vsize. rewrite Nat2Z.id.
    rewrite copy_loop by lia. rewrite !drop_0.
    eexists. split; [reflexivity|].
    intros i o so Ho Hso. by apply copy_outputs_spec with (i := i).
  - eexists. split; [vm_compute; reflexivity|]. repeat split; reflexivity.
Qed.

Lemma fusion_outputs_witness :
  (length (g_outputs mm_subgraph) ≠ length (n_outputs mm_fusion_node) ->
   visitNode "glow::FusionGroup" true mm_fusion_node mm_outer_map
   = Crash CheckFailed) ∧
  (length (g_outputs mm_subgraph) = length (n_outputs mm_fusion_node) ->
   NoDup (n_outputs mm_fusion_node) ->
   (∀ o, o ∈ n_outputs mm_fusion_node -> o ∉ g_outputs mm_subgraph) ->
   ∃ m2 : ShapeMap,
     visitNode "glow::FusionGroup" true mm_fusion_node mm_outer_map = Ok m2 ∧
     ∀ (i : nat) (o so : Value),
       n_outputs mm_fusion_node !! i = Some o ->
       g_outputs mm_subgraph !! i = Some so ->
       m2 !! o = Some (entry mm_inner_map so) ∧
       entry m2 so = entry mm_inner_map so) ∧
  (∃ e' : ShapeInferenceEngine,
     run mm_fusion_engine = Ok e' ∧
     outputShape_ e' = [tensor [4; 6]] ∧
     shapeMap_ e' !! 3%nat = Some (tensor [4; 6]) ∧
     shapeMap_ e' !! 3%nat = shapeMap_ e' !! 6%nat).
Proof.
  apply (fusion_outputs "glow::FusionGroup" true mm_fusion_node mm_subgraph
           mm_outer_map mm_inner_map
           [ITensor [4; 5] Float; ITensor [5; 6] Float]).
  - reflexivity.
  - reflexivity.
  - vm_compute. reflexivity.
  - vm_compute. reflexivity.
Defined.

(** ** Failures and their propagation *)

(** A failure of the shape function of a node is the failure of
    [shapeOnNode]. *)
Lemma shapeOnNode_failure (hasEndOffset_ : bool) (node : Node) (m : ShapeMap)
    (msg : string) :
  (∀ v, v ∈ n_inputs node -> is_Some (m !! v)) ->
  dispatch hasEndOffset_ node (entry m <$> n_inputs node) = Err msg ->
  shapeOnNode hasEndOffset_ node m = Err msg.
Proof.
  intros Hin Hd. unfold shapeOnNode. rewrite getNodeInputShape_ok by done.
  cbn [mbind Expected_bind]. by rewrite Hd.
Qed.

(** A failure of the walk of a subgraph is the failure of the visit of its
    fusion node. *)
Lemma visitNode_failure (fusionNodeSymbol_ : string) (hasEndOffset_ : bool)
    (node : Node) (subgraph : Graph) (m : ShapeMap) (ins : list IValue)
    (msg : string) :
  n_subgraph node = Some subgraph ->
  String.prefix fusionNodeSymbol_ (n_kind node) = true ->
  subgraphInputs node m = Ok ins ->
  runRecursively fusionNodeSymbol_ hasEndOffset_ subgraph ins m = Err msg ->
  visitNode fusionNodeSymbol_ hasEndOffset_ node m = Err msg.
Proof.
  intros Hsub Hpre Hins Hrec. unfold visitNode. rewrite Hsub.
  unfold fusionNode. rewrite Hpre, Hins. cbn [CHECK mbind Expected_bind].
  by rewrite Hrec.
Qed.

(** The walk stops at the first node that fails, with its failure. *)
Lemma runRecursively_failure (fusionNodeSymbol_ : string) (hasEndOffset_ : bool)
    (graph : Graph) (inputs : list IValue) (m m0 m1 : ShapeMap)
    (before after : list Node) (node : Node) (msg : string) :
  g_nodes graph = before ++ node :: after ->
  getGraphInputShape (g_inputs graph) inputs m = Ok m0 ->
  forM (visitNode fusionNodeSymbol_ hasEndOffset_) before m0 = Ok m1 ->
  visitNode fusionNodeSymbol_ hasEndOffset_ node m1 = Err msg ->
  runRecursively fusionNodeSymbol_ hasEndOffset_ graph inputs m = Err msg.
Proof.
  intros Hn Hseed Hbefore Hnode. rewrite runRecursively_eq, Hseed, Hn.
  cbn [mbind Expected_bind]. rewrite forM_app, Hbefore.
  cbn [mbind Expected_bind forM]. by rewrite Hnode.
Qed.

(** [run] returns the failure of the walk. *)
Lemma run_failure (e : ShapeInferenceEngine) (msg : string) :
  vsize (inputs_ e) = vsize (g_inputs (graph_ e)) ->
  runRecursively (fusionNodeSymbol_ e) (hasEndOffset_ e) (graph_ e) (inputs_ e)
    (shapeMap_ e) = Err msg ->
  run e = Err msg.
Proof.
  intros Hlen Hwalk. unfold run. rewrite Hlen, Z.eqb_refl.
  cbn [RETURN_ERR_IF_NOT mbind Expected_bind]. by rewrite Hwalk.
Qed.

(** Unfolds the shape function [f] on a wrong number of operands. *)
Ltac wrong_arity f :=
  unfold f;
  repeat match goal with
  | H : ?a ≠ ?b |- context [?a =? ?b] =>
    replace (a =? b) with false by (symmetry; by apply Z.eqb_neq)
  | H : ?a < ?b |- context [?b <=? ?a] =>
    replace (b <=? a) with false by (symmetry; by apply Z.leb_gt)
  end;
  cbn [negb andb RETURN_ERR_IF_NOT mbind Expected_bind];
  eexists; reflexivity.

(** X5.  The arity half of the contract holds: every shape function tests
    the number of its operands first and answers a wrong number with a
    typed failure. *)
Lemma arity_is_checked (hasEndOffset_ : bool) (metas : MetaStack)
    (chunks dim : Z) :
  (vsize metas ≠ 1 ->
   (∃ msg, unary metas = Err msg) ∧ (∃ msg, t metas = Err msg) ∧
   (∃ msg, constantChunk metas chunks dim = Err msg) ∧
   (∃ msg, listUnpack metas = Err msg)) ∧
  (vsize metas ≠ 2 ->
   (∃ msg, mm metas = Err msg) ∧ (∃ msg, bmm metas = Err msg) ∧
   (∃ msg, cat metas = Err msg) ∧ (∃ msg, reshape metas = Err msg) ∧
   (∃ msg, permute metas = Err msg) ∧ (∃ msg, stack metas = Err msg)) ∧
  (vsize metas ≠ 2 -> vsize metas ≠ 3 -> ∃ msg, binaryOp metas = Err msg) ∧
  (vsize metas ≠ 3 ->
   (∃ msg, transpose metas = Err msg) ∧ (∃ msg, flatten metas = Err msg) ∧
   (∃ msg, chunk metas = Err msg)) ∧
  (vsize metas < 3 -> ∃ msg, addmm metas = Err msg) ∧
  (vsize metas ≠ 5 -> ∃ msg, slice metas = Err msg) ∧
  (vsize metas < 1 ->
   (∃ msg, fusedConcat metas dim = Err msg) ∧
   (∃ msg, listConstruct metas = Err msg) ∧
   (∃ msg, fusedStack metas dim = Err msg)) ∧
  (vsize metas ≠ 8 ->
   (∃ msg, embeddingBag hasEndOffset_ metas = Err msg) ∧
   (∃ msg, embeddingBagByteRowwiseOffsets hasEndOffset_ metas = Err msg)) ∧
  (vsize metas ≠ 9 ->
   ∃ msg, embeddingBag4BitRowwiseOffsets hasEndOffset_ metas = Err msg).
Proof.
  repeat split; intros.
  - wrong_arity unary.
  - wrong_arity t.
  - wrong_arity constantChunk.
  - wrong_arity listUnpack.
  - wrong_arity mm.
  - wrong_arity bmm.
  - wrong_arity cat.
  - wrong_arity reshape.
  - wrong_arity permute.
  - wrong_arity stack.
  - wrong_arity binaryOp.
  - wrong_arity transpose.
  - wrong_arity flatten.
  - wrong_arity chunk.
  - wrong_arity addmm.
  - wrong_arity slice.
  - wrong_arity fusedConcat.
  - wrong_arity listConstruct.
  - wrong_arity fusedStack.
  - wrong_arity embeddingBag.
  - wrong_arity embeddingBagByteRowwiseOffsets.
  - wrong_arity embeddingBag4BitRowwiseOffsets.
Qed.

(** So do the rank tests of the matrix products. *)
Lemma mm_rank_is_checked (A B : VariableMeta) (t0 t1 : TensorShape) :
  shapeT A = Ok t0 -> shapeT B = Ok t1 ->
  vsize t0 ≠ 2 ∨ vsize t1 ≠ 2 ->
  mm [A; B] = Err "Expected 2-dimensional tensor.".
Proof.
  intros HA HB Hrank. unfold mm.
  change (vsize [A; B] =? 2) with true.
  cbn [RETURN_ERR_IF_NOT mbind Expected_bind].
  rewrite (vec_at_ok [A; B] 0 A), (vec_at_ok [A; B] 1 B) by vec_index.
  cbn [mbind Expected_bind]. rewrite HA, HB. cbn [mbind Expected_bind].
  replace ((vsize t1 =? 2) && (vsize t0 =? 2)) with false; [done|].
  symmetry. apply andb_false_iff. rewrite !Z.eqb_neq. tauto.
Qed.

Lemma bmm_rank_is_checked (A B : VariableMeta) (t0 t1 : TensorShape) :
  shapeT A = Ok t0 -> shapeT B = Ok t1 ->
  vsize t0 ≠ 3 ∨ vsize t1 ≠ 3 ->
  bmm [A; B] = Err "Expected 3-dimensional tensor.".
Proof.
  intros HA HB Hrank. unfold bmm.
  change (vsize [A; B] =? 2) with true. cbn [negb].
  rewrite (vec_at_ok [A; B] 0 A), (vec_at_ok [A; B] 1 B) by vec_index.
  cbn [mbind Expected_bind]. rewrite HA, HB. cbn [mbind Expected_bind].
  replace ((vsize t0 =? 3) && (vsize t1 =? 3)) with false; [done|].
  symmetry. apply andb_false_iff. rewrite !Z.eqb_neq. tauto.
Qed.

(** C7, the failing cases.  Not every malformed operand gives a typed
    failure.  [binaryOp] on a second operand of rank 0 reads that shape
    below its first element; [chunk] reads the integer payload of its
    chunk-count operand without the size test its siblings make; [chunk]
    and [constantChunk] read the extent of a tensor of rank 0;
    [embeddingBagByteRowwiseOffsets] reads the second extent of a weight of
    rank 1; [cat] reads the first shape of an empty list.  Through
    [run], the first of these ends the walk outside the error channel. *)
Theorem malformed_operands_crash :
  binaryOp [tensor [1]; tensor []] = Crash OutOfRange ∧
  chunk [tensor [4]; tensor [2]; scalar 0] = Crash OutOfRange ∧
  chunk [tensor []; scalar 2; scalar 0] = Crash OutOfRange ∧
  constantChunk [tensor []] 2 0 = Crash OutOfRange ∧
  embeddingBagByteRowwiseOffsets true
    [tensor [16]; tensor [3]; tensor [4]; scalar 0; scalar 0; scalar 0;
     tensor []; scalar 1] = Crash OutOfRange ∧
  cat [mkMeta [EList []] [] Float; scalar 0] = Crash OutOfRange ∧
  run add_rank0_engine = Crash OutOfRange.
Proof. repeat split; vm_compute; reflexivity. Qed.

(** The typed failures that the shape functions do raise reach the caller
    of [run] unchanged: a mismatch inside a fused subgraph. *)
Example mismatch_through_fusion :
  run (mkEngine (mkGraph [1; 2]%nat [mm_fusion_node] [3]%nat)
         [ITensor [4; 5] Float; ITensor [7; 6] Float]
         "glow::FusionGroup" true ∅ [])
  = Err "The size of tensor a (5) at dimension 1 must match the size of tensor b (7) at dimension 0.".
Proof. vm_compute. reflexivity. Qed.

(** ** The remaining examples of the specification *)

Example cat_examples :
  cat [mkMeta [EList [[2; 3]; [2; 3]]] [] Float; scalar 1] = Ok [2; 6] ∧
  cat [mkMeta [EList [[2; 3]; [3; 3]]] [] Float; scalar 1] =
    Err "Sizes of tensors must match except in dimension 1.".
Proof. split; reflexivity. Qed.

Example permute_examples :
  permute [tensor [2; 3; 4]; intList [2; 0; 1]] = Ok [4; 2; 3] ∧
  permute [tensor [2; 3; 4]; intList [2; 0; 3]] =
    Err "All shuffle dimensions must be less than the rank of the input." ∧
  permute [tensor [2; 3; 4]; intList [2; 0; -1]] =
    Err "Negative shuffle dimensions not supported by Glow yet.".
Proof. repeat split; reflexivity. Qed.

Example add_relu_example :
  ∃ e' : ShapeInferenceEngine,
    run add_relu_engine = Ok e' ∧ getGraphOutputShape e' = [tensor [3; 4]].
Proof. eexists. split; [vm_compute; reflexivity|reflexivity]. Qed.

(** * Further properties of the shape functions *)

(** ** More on loops *)

(** A loop over an index range that reads one vector by its counter is a
    loop over the elements of that range. *)
Lemma forM_index {A S} (v : list A) (G : A -> S -> Expected S) (m k : nat)
    (s : S) :
  (k + m <= length v)%nat ->
  forM (fun i s => x ← vec_at v i; G x s) (Z.of_nat <$> seq k m) s
  = forM G (take m (drop k v)) s.
Proof.
  revert k s. induction m as [|m IH]; intros k s Hk; [done|].
  destruct (lookup_lt_is_Some_2 v k) as [x Hx]; [lia|].
  rewrite upto_from, (drop_lookup_S _ _ _ Hx). cbn [forM take].
  rewrite (vec_at_nat _ _ _ Hx). cbn [mbind Expected_bind].
  destruct (G x s); cbn [mbind Expected_bind]; [|done..].
  apply IH. lia.
Qed.

Lemma tail_upto (n : Z) :
  tail (upto n) = Z.of_nat <$> seq 1 (Z.to_nat n - 1).
Proof.
  unfold upto. destruct (Z.to_nat n) as [|k]; [done|].
  replace (S k - 1)%nat with k by lia. done.
Qed.

(** A loop of tests passes when every test passes, and fails with [msg]
    when some test fails and [msg] is the only failure there is. *)
Lemma forM_tests_pass {A} (body : A -> unit -> Expected unit) (l : list A) :
  (∀ a, a ∈ l -> body a tt = Ok tt) -> forM body l tt = Ok tt.
Proof.
  induction l as [|a l IH]; intros H; [done|].
  cbn [forM]. rewrite H by apply list_elem_of_here. cbn [mbind Expected_bind].
  apply IH. intros b Hb. apply H. by apply list_elem_of_further.
Qed.

Lemma forM_tests_fail {A} (body : A -> unit -> Expected unit) (l : list A)
    (msg : string) :
  (∀ a, a ∈ l -> body a tt = Ok tt ∨ body a tt = Err msg) ->
  (∃ a, a ∈ l ∧ body a tt = Err msg) ->
  forM body l tt = Err msg.
Proof.
  induction l as [|a l IH]; intros Hall (b & Hb & Hfail).
  - by apply elem_of_nil in Hb.
  - cbn [forM]. destruct (Hall a (list_elem_of_here _ _)) as [Ha|Ha];
      rewrite Ha; cbn [mbind Expected_bind]; [|done].
    apply IH.
    + intros c Hc. apply Hall. by apply list_elem_of_further.
    + apply elem_of_cons in Hb as [->|Hb]; [congruence|]. by exists b.
Qed.

(** Pushing elements at the back of a list, one by one. *)
Lemma forM_push {A} (l acc : list A) :
  forM (fun x acc => Ok (acc ++ [x])) l acc = Ok (acc ++ l).
Proof.
  revert acc. induction l as [|x l IH]; intros acc.
  - by rewrite app_nil_r.
  - cbn [forM mbind Expected_bind]. rewrite IH. by rewrite <- app_assoc.
Qed.

Lemma product_app (l1 l2 : list Z) : product (l1 ++ l2) = product l1 * product l2.
Proof.
  induction l1 as [|x l1 IH]; cbn [app]; rewrite ?product_cons.
  - unfold product at 2. cbn. lia.
  - rewrite IH. lia.
Qed.

(** Comparisons of literals. *)
Ltac closed_arith :=
  vm_compute; repeat split; first [lia | reflexivity | discriminate].

(** ** Matrix products: [mm], [bmm], [addmm], [t] *)

Lemma mm_cases (A B : VariableMeta) (a k k' b : Z) :
  shapeT A = Ok [a; k] -> shapeT B = Ok [k'; b] ->
  mm [A; B] =
  if decide (k = k') then Ok [a; b]
  else Err ("The size of tensor a (" +:+ fmt_zu k +:+
            ") at dimension 1 must match the size of tensor b (" +:+
            fmt_zu k' +:+ ") at dimension 0.").
Proof.
  intros HA HB. unfold mm.
  change (vsize [A; B] =? 2) with true.
  cbn [RETURN_ERR_IF_NOT mbind Expected_bind].
  rewrite (vec_at_ok [A; B] 0 A), (vec_at_ok [A; B] 1 B) by vec_index.
  cbn [mbind Expected_bind]. rewrite HA, HB. cbn [mbind Expected_bind].
  change (vsize [k'; b] =? 2) with true. change (vsize [a; k] =? 2) with true.
  cbn [andb negb].
  rewrite (vec_at_ok [a; k] 1 k), (vec_at_ok [k'; b] 0 k'),
    (vec_at_ok [a; k] 0 a), (vec_at_ok [k'; b] 1 b) by vec_index.
  cbn [mbind Expected_bind].
  destruct (Z.eqb_spec k k'); case_decide; done.
Qed.

(** X6.  [mm] refuses operands that are not both of rank 2; on shapes
    [[a, k]] and [[k', b]] it returns [[a, b]] when [k = k'] and otherwise
    the failure that names [k] and [k']. *)
Theorem mm_result (A B : VariableMeta) (t0 t1 : TensorShape) :
  shapeT A = Ok t0 -> shapeT B = Ok t1 ->
  (vsize t0 ≠ 2 ∨ vsize t1 ≠ 2 ->
   mm [A; B] = Err "Expected 2-dimensional tensor.") ∧
  (∀ a k k' b : Z, t0 = [a; k] -> t1 = [k'; b] ->
   mm [A; B] =
   if decide (k = k') then Ok [a; b]
   else Err ("The size of tensor a (" +:+ fmt_zu k +:+
             ") at dimension 1 must match the size of tensor b (" +:+
             fmt_zu k' +:+ ") at dimension 0.")).
Proof.
  intros HA HB. split; [by apply mm_rank_is_checked|].
  intros a k k' b -> ->. by apply mm_cases.
Qed.

Lemma mm_result_witness :
  mm [tensor [4]; tensor [5; 6]] = Err "Expected 2-dimensional tensor." ∧
  mm [tensor [4; 5]; tensor [5; 6]] = Ok [4; 6] ∧
  mm [tensor [4; 5]; tensor [7; 6]] =
    Err ("The size of tensor a (" +:+ fmt_zu 5 +:+
         ") at dimension 1 must match the size of tensor b (" +:+
         fmt_zu 7 +:+ ") at dimension 0.").
Proof.
  split; [|split].
  - destruct (mm_result (tensor [4]) (tensor [5; 6]) [4] [5; 6]
                eq_refl eq_refl) as [H _].
    apply H. left. unfold vsize. cbn. lia.
  - destruct (mm_result (tensor [4; 5]) (tensor [5; 6]) [4; 5] [5; 6]
                eq_refl eq_refl) as [_ H].
    exact (H 4 5 5 6 eq_refl eq_refl).
  - destruct (mm_result (tensor [4; 5]) (tensor [7; 6]) [4; 5] [7; 6]
                eq_refl eq_refl) as [_ H].
    exact (H 4 5 7 6 eq_refl eq_refl).
Defined.

(** X7.  [bmm] refuses operands that are not both of rank 3, then batches
    that differ, then inner extents that differ; on shapes [[n, a, k]] and
    [[n, k, b]] it returns [[n, a, b]]. *)
Theorem bmm_result (A B : VariableMeta) (t0 t1 : TensorShape) :
  shapeT A = Ok t0 -> shapeT B = Ok t1 ->
  (vsize t0 ≠ 3 ∨ vsize t1 ≠ 3 ->
   bmm [A; B] = Err "Expected 3-dimensional tensor.") ∧
  (∀ n n' a k k' b : Z, t0 = [n; a; k] -> t1 = [n'; k'; b] ->
   bmm [A; B] =
   if decide (n ≠ n') then
     Err "Expected tensors to have same size at dimension 0"
   else if decide (k ≠ k') then
     Err ("The size of tensor a (" +:+ fmt_zu k +:+
          ") at dimension 2 mustmatch the size of tensor b (" +:+
          fmt_zu k' +:+ ") at dimension 1")
   else Ok [n; a; b]).
Proof.
  intros HA HB. split; [by apply bmm_rank_is_checked|].
  intros n n' a k k' b -> ->. unfold bmm.
  change (vsize [A; B] =? 2) with true. cbn [negb].
  rewrite (vec_at_ok [A; B] 0 A), (vec_at_ok [A; B] 1 B) by vec_index.
  cbn [mbind Expected_bind]. rewrite HA, HB. cbn [mbind Expected_bind].
  change (vsize [n; a; k] =? 3) with true.
  change (vsize [n'; k'; b] =? 3) with true. cbn [andb negb].
  rewrite (vec_at_ok [n; a; k] 0 n), (vec_at_ok [n'; k'; b] 0 n')
    by vec_index.
  cbn [mbind Expected_bind].
  destruct (Z.eqb_spec n n'); case_decide; try done. cbn [negb].
  rewrite (vec_at_ok [n; a; k] 2 k), (vec_at_ok [n'; k'; b] 1 k')
    by vec_index.
  cbn [mbind Expected_bind].
  destruct (Z.eqb_spec k k'); case_decide; try done.
  all: cbn [negb];
    rewrite (vec_at_ok [n; a; k] 1 a), (vec_at_ok [n'; k'; b] 2 b)
      by vec_index; done.
Qed.

Lemma bmm_result_witness :
  bmm [tensor [4; 5]; tensor [2; 5; 6]] = Err "Expected 3-dimensional tensor." ∧
  bmm [tensor [2; 4; 5]; tensor [2; 5; 6]] = Ok [2; 4; 6] ∧
  bmm [tensor [2; 4; 5]; tensor [3; 5; 6]] =
    Err "Expected tensors to have same size at dimension 0".
Proof.
  split; [|split].
  - destruct (bmm_result (tensor [4; 5]) (tensor [2; 5; 6]) [4; 5] [2; 5; 6]
                eq_refl eq_refl) as [H _].
    apply H. left. unfold vsize. cbn. lia.
  - destruct (bmm_result (tensor [2; 4; 5]) (tensor [2; 5; 6]) [2; 4; 5]
                [2; 5; 6] eq_refl eq_refl) as [_ H].
    exact (H 2 2 4 5 5 6 eq_refl eq_refl).
  - destruct (bmm_result (tensor [2; 4; 5]) (tensor [3; 5; 6]) [2; 4; 5]
                [3; 5; 6] eq_refl eq_refl) as [_ H].
    exact (H 2 3 4 5 5 6 eq_refl eq_refl).
Defined.

(** X8.  [addmm] on a bias and two matrices of shapes [[a, k]] and
    [[k, b]] is the broadcast of the bias against [[a, b]]: it returns the
    standard broadcast shape when the bias is compatible and has no extent
    1 beyond rank 2.  When the third operand has rank 1 no product is
    formed: the result is [binaryOp] of the first two operands. *)
Theorem addmm_result (C A B : VariableMeta) (rest : MetaStack)
    (tc tb : TensorShape) :
  shapeT C = Ok tc -> shapeT B = Ok tb ->
  (∀ (a k b : Z) (s : TensorShape),
     shapeT A = Ok [a; k] -> tb = [k; b] ->
     broadcast_shape tc [a; b] = Some s ->
     1 ∉ take (length tc - 2) tc ->
     addmm (C :: A :: B :: rest) = Ok s) ∧
  (length tb = 1%nat -> addmm (C :: A :: B :: rest) = binaryOp [C; A]).
Proof.
  intros HC HB.
  assert (Hhead : addmm (C :: A :: B :: rest) =
    (t ← (if vsize tb =? 1 then Ok A
          else s ← mm [A; B]; Ok (mkMeta [ETensor s] [] Float));
     binaryOp [C; t])).
  { unfold addmm.
    replace (3 <=? vsize (C :: A :: B :: rest)) with true
      by (symmetry; apply Z.leb_le; unfold vsize; cbn [length]; lia).
    cbn [RETURN_ERR_IF_NOT mbind Expected_bind].
    rewrite (vec_at_ok (C :: A :: B :: rest) 0 C),
      (vec_at_ok (C :: A :: B :: rest) 1 A),
      (vec_at_ok (C :: A :: B :: rest) 2 B)
      by first [lia | reflexivity].
    cbn [mbind Expected_bind]. by rewrite HB. }
  rewrite Hhead. split.
  - intros a k b s HA -> Hs Hone.
    change (vsize [k; b] =? 1) with false. cbv iota.
    rewrite (mm_cases A B a k k b HA HB), decide_True by done. cbn [mbind Expected_bind].
    rewrite (binaryOp_unfold C _ [] tc [a; b]); [|done|done|cbn; lia].
    change (vsize [a; b] =? 1) with false. cbv iota.
    unfold broadcast_shape in Hs.
    destruct (broadcast_rev (reverse tc) (reverse [a; b])) as [rs|] eqn:Ers;
      [|done].
    injection Hs as <-.
    rewrite (binaryOp_rev_broadcast _ _ rs); [by rewrite app_nil_r|done|].
    rewrite length_reverse, drop_reverse, elem_of_reverse. done.
  - intros H1.
    replace (vsize tb =? 1) with true
      by (symmetry; apply Z.eqb_eq; unfold vsize; lia).
    done.
Qed.

Lemma addmm_result_witness :
  addmm [tensor [6]; tensor [4; 5]; tensor [5; 6]; scalar 1; scalar 1]
  = Ok [4; 6] ∧
  addmm [tensor [4; 5]; tensor [4; 5]; tensor [5]; scalar 1; scalar 1]
  = binaryOp [tensor [4; 5]; tensor [4; 5]].
Proof.
  split.
  - destruct (addmm_result (tensor [6]) (tensor [4; 5]) (tensor [5; 6])
                [scalar 1; scalar 1] [6] [5; 6] eq_refl eq_refl) as [H _].
    apply (H 4 5 6 [4; 6]); try reflexivity.
    simpl. apply not_elem_of_nil.
  - destruct (addmm_result (tensor [4; 5]) (tensor [4; 5]) (tensor [5])
                [scalar 1; scalar 1] [4; 5] [5] eq_refl eq_refl) as [_ H].
    apply H. reflexivity.
Defined.

(** X9.  [t] returns a shape of rank 1 unchanged and swaps the two extents
    of a shape of rank 2, where it agrees with [transpose] on the axes 0 and
    1; every other rank, rank 0 included, is refused with the failure that
    names the rank. *)
Theorem t_result (A : VariableMeta) (s : TensorShape) :
  shapeT A = Ok s ->
  (length s = 1%nat -> t [A] = Ok s) ∧
  (∀ a b : Z, s = [a; b] ->
     t [A] = Ok [b; a] ∧ t [A] = transpose [A; scalar 0; scalar 1]) ∧
  (length s ≠ 1%nat -> length s ≠ 2%nat ->
   t [A] = Err ("Expected tensor <= 2-D, got " +:+ fmt_zu (vsize s) +:+ "-D.")).
Proof.
  intros HA.
  assert (Hhead : t [A] =
    if vsize s =? 1 then Ok s
    else if vsize s =? 2 then
      a1 ← vec_at s 1; a0 ← vec_at s 0; Ok [a1; a0]
    else Err ("Expected tensor <= 2-D, got " +:+ fmt_zu (vsize s) +:+ "-D.")).
  { unfold t. change (vsize [A] =? 1) with true.
    cbn [RETURN_ERR_IF_NOT mbind Expected_bind].
    rewrite (vec_at_ok [A] 0 A) by vec_index. cbn [mbind Expected_bind].
    by rewrite HA. }
  rewrite Hhead. split; [|split].
  - intros H1. by replace (vsize s =? 1) with true
      by (symmetry; apply Z.eqb_eq; unfold vsize; lia).
  - intros a b ->. split; [done|].
    rewrite (transpose_swap A (scalar 0) (scalar 1) [a; b] 0 1);
      first [done | unfold vsize; cbn; lia].
  - intros H1 H2.
    replace (vsize s =? 1) with false
      by (symmetry; apply Z.eqb_neq; unfold vsize; lia).
    by replace (vsize s =? 2) with false
      by (symmetry; apply Z.eqb_neq; unfold vsize; lia).
Qed.

Lemma t_result_witness :
  t [tensor [7]] = Ok [7] ∧
  (t [tensor [2; 3]] = Ok [3; 2] ∧
   t [tensor [2; 3]] = transpose [tensor [2; 3]; scalar 0; scalar 1]) ∧
  t [tensor [2; 3; 4]] =
    Err ("Expected tensor <= 2-D, got " +:+ fmt_zu (vsize [2; 3; 4]) +:+ "-D.").
Proof.
  split; [|split].
  - destruct (t_result (tensor [7]) [7] eq_refl) as (H & _ & _).
    apply H. reflexivity.
  - destruct (t_result (tensor [2; 3]) [2; 3] eq_refl) as (_ & H & _).
    exact (H 2 3 eq_refl).
  - destruct (t_result (tensor [2; 3; 4]) [2; 3; 4] eq_refl) as (_ & _ & H).
    apply H; cbn; lia.
Defined.

(** ** More on [binaryOp] *)

Lemma binaryOp_rev_same (r acc : list Z) :
  binaryOp_rev r r acc = Ok (reverse r ++ acc).
Proof.
  revert acc. induction r as [|x r IH]; intros acc; [done|].
  cbn [binaryOp_rev]. rewrite Z.eqb_refl. cbn [negb].
  rewrite !IH, reverse_cons, <- app_assoc. by destruct (x =? 1).
Qed.

(** X10.  [binaryOp] on two operands of the same shape returns that shape,
    whatever its rank and extents; and a first operand of shape [[1]]
    against a shape of rank 2 or more returns that shape. *)
Theorem binaryOp_same_or_unit (A B : VariableMeta) (rest : MetaStack)
    (t0 t1 : TensorShape) :
  shapeT A = Ok t0 -> shapeT B = Ok t1 -> (length rest <= 1)%nat ->
  (t0 = t1 -> binaryOp (A :: B :: rest) = Ok t1) ∧
  (t0 = [1] -> (2 <= length t1)%nat -> binaryOp (A :: B :: rest) = Ok t1).
Proof.
  intros HA HB Hrest. rewrite (binaryOp_unfold A B rest t0 t1 HA HB Hrest).
  split.
  - intros ->. destruct (vsize t1 =? 1); [done|].
    by rewrite binaryOp_rev_same, reverse_involutive, app_nil_r.
  - intros -> Hlen.
    replace (vsize t1 =? 1) with false
      by (symmetry; apply Z.eqb_neq; unfold vsize; lia).
    rewrite <- (reverse_involutive t1) at 2.
    destruct (reverse t1) as [|y r] eqn:Er.
    { apply (f_equal length) in Er. rewrite length_reverse in Er.
      cbn in Er. lia. }
    change (reverse [1]) with [1].
    change (binaryOp_rev [1] (y :: r) []) with (binaryOp_rev [] r [y]).
    by rewrite binaryOp_rev_nil, reverse_cons.
Qed.

Lemma binaryOp_same_or_unit_witness :
  binaryOp [tensor [3; 1; 4]; tensor [3; 1; 4]] = Ok [3; 1; 4] ∧
  binaryOp [scalar 2; tensor [3; 4]] = Ok [3; 4].
Proof.
  split.
  - destruct (binaryOp_same_or_unit (tensor [3; 1; 4]) (tensor [3; 1; 4]) []
                [3; 1; 4] [3; 1; 4] eq_refl eq_refl) as [H _]; [cbn; lia|].
    apply H. reflexivity.
  - destruct (binaryOp_same_or_unit (scalar 2) (tensor [3; 4]) []
                [1] [3; 4] eq_refl eq_refl) as [_ H]; [cbn; lia|].
    apply H; [reflexivity|cbn; lia].
Defined.

(** ** [flatten] and [permute] *)

Lemma upto_shift (b n : Z) :
  0 <= b ->
  (fun i => b + i) <$> upto n = Z.of_nat <$> seq (Z.to_nat b) (Z.to_nat n).
Proof.
  intros Hb. unfold upto. rewrite <- list_fmap_compose.
  replace (seq (Z.to_nat b) (Z.to_nat n))
    with (Nat.add (Z.to_nat b) <$> seq 0 (Z.to_nat n))
    by (rewrite fmap_add_seq; f_equal; lia).
  rewrite <- list_fmap_compose.
  apply list_fmap_ext. intros i x _. cbn. lia.
Qed.

Lemma upto_seq (n : Z) : upto n = Z.of_nat <$> seq 0 (Z.to_nat n).
Proof. done. Qed.

Lemma forM_product (l : list Z) (p : Z) :
  forM (fun x acc => Ok (mul64 acc x)) l (wrap64 p) = Ok (wrap64 (p * product l)).
Proof.
  revert p. induction l as [|x l IH]; intros p.
  - cbn. do 2 f_equal. unfold product. cbn. lia.
  - cbn [forM mbind Expected_bind]. rewrite mul64_wrap_l, IH, product_cons.
    do 2 f_equal. lia.
Qed.

Lemma forM_product_1 (l : list Z) :
  forM (fun x acc => Ok (mul64 acc x)) l 1 = Ok (wrap64 (product l)).
Proof.
  change (forM (fun x acc => Ok (mul64 acc x)) l 1)
    with (forM (fun x acc => Ok (mul64 acc x)) l (wrap64 1)).
  by rewrite forM_product, Z.mul_1_l.
Qed.

(** X11.  [flatten] with valid axes refuses a start axis after the end
    axis; otherwise it keeps the extents before the start axis and after
    the end axis and puts the product of the extents from start to end in
    between, so that, when this product fits in 64 bits, the number of
    elements is unchanged. *)
Theorem flatten_result (A D0 D1 : VariableMeta) (t : TensorShape) (d0 d1 : Z) :
  shapeT A = Ok t -> intValue D0 = [d0] -> intValue D1 = [d1] ->
  - vsize t <= d0 < vsize t -> - vsize t <= d1 < vsize t ->
  let ws := Z.to_nat (wrap_axis d0 (vsize t)) in
  let we := Z.to_nat (wrap_axis d1 (vsize t)) in
  let mid := take (we - ws + 1) (drop ws t) in
  ((we < ws)%nat ->
   flatten [A; D0; D1] =
     Err "start dimension should not be larger than end dimension") ∧
  ((ws <= we)%nat ->
   flatten [A; D0; D1] =
     Ok (take ws t ++ [wrap64 (product mid)] ++ drop (S we) t)) ∧
  ((ws <= we)%nat -> - 2 ^ 63 <= product mid < 2 ^ 63 ->
   ∃ s : TensorShape,
     flatten [A; D0; D1] = Ok s ∧ product s = product t ∧
     length s = (length t - (we - ws))%nat).
Proof.
  intros HA H0 H1 R0 R1 ws we mid.
  pose proof (wrap_axis_range d0 (vsize t) R0) as W0.
  pose proof (wrap_axis_range d1 (vsize t) R1) as W1.
  assert (Hhead : flatten [A; D0; D1] =
    if wrap_axis d1 (vsize t) <? wrap_axis d0 (vsize t) then
      Err "start dimension should not be larger than end dimension"
    else Ok (take ws t ++ [wrap64 (product mid)] ++ drop (S we) t)).
  { unfold flatten. change (vsize [A; D0; D1] =? 3) with true. cbn [negb].
    rewrite (vec_at_ok [A; D0; D1] 0 A), (vec_at_ok [A; D0; D1] 1 D0),
      (vec_at_ok [A; D0; D1] 2 D1) by vec_index.
    cbn [mbind Expected_bind]. rewrite H0, H1, HA.
    cbn [vsize length Z.of_nat Z.eqb RETURN_ERR_IF_NOT mbind Expected_bind].
    rewrite (vec_at_ok [d0] 0 d0), (vec_at_ok [d1] 0 d1) by vec_index.
    cbn [mbind Expected_bind].
    change (Z.of_nat (length t)) with (vsize t).
    rewrite !maybe_wrap_dim_ok by done. cbn [mbind Expected_bind].
    destruct (Z.ltb_spec (wrap_axis d1 (vsize t)) (wrap_axis d0 (vsize t)))
      as [Hlt|Hle]; [done|].
    rewrite (upto_seq (wrap_axis d0 (vsize t))), !upto_shift by lia.
    rewrite (forM_index t (fun x acc => Ok (acc ++ [x])))
      by (unfold vsize in *; lia).
    rewrite forM_push, drop_0. cbn [mbind Expected_bind app].
    rewrite (forM_index t (fun x acc => Ok (mul64 acc x)))
      by (unfold vsize in *; lia).
    rewrite forM_product_1. cbn [mbind Expected_bind].
    rewrite (forM_index t (fun x acc => Ok (acc ++ [x])))
      by (unfold vsize in *; lia).
    rewrite forM_push.
    replace (Z.to_nat (wrap_axis d1 (vsize t) - wrap_axis d0 (vsize t) + 1))
      with (we - ws + 1)%nat by (unfold we, ws; lia).
    replace (Z.to_nat (wrap_axis d1 (vsize t) + 1)) with (S we)
      by (unfold we; lia).
    fold ws. fold mid.
    rewrite (take_ge (drop (S we) t))
      by (rewrite length_drop; unfold we; unfold vsize in *; lia).
    by rewrite <- app_assoc. }
  rewrite Hhead. split; [|split].
  - intros Hlt.
    by replace (wrap_axis d1 (vsize t) <? wrap_axis d0 (vsize t)) with true
      by (symmetry; apply Z.ltb_lt; unfold ws, we in *; unfold vsize in *; lia).
  - intros Hle.
    by replace (wrap_axis d1 (vsize t) <? wrap_axis d0 (vsize t)) with false
      by (symmetry; apply Z.ltb_ge; unfold ws, we in *; unfold vsize in *; lia).
  - intros Hle Hfit.
    replace (wrap_axis d1 (vsize t) <? wrap_axis d0 (vsize t)) with false
      by (symmetry; apply Z.ltb_ge; unfold ws, we in *; unfold vsize in *; lia).
    eexists. split; [reflexivity|].
    rewrite wrap64_id by done.
    assert (Hsplit : t = take ws t ++ mid ++ drop (S we) t).
    { unfold mid. rewrite <- (take_drop ws t) at 1. f_equal.
      rewrite <- (take_drop (we - ws + 1) (drop ws t)) at 1. f_equal.
      rewrite drop_drop. f_equal. lia. }
    split.
    + transitivity (product (take ws t ++ mid ++ drop (S we) t));
        [|by rewrite <- Hsplit].
      rewrite !product_app.
      change (product [product mid]) with (product mid * 1). lia.
    + rewrite !length_app, length_take, length_drop. cbn [length].
      unfold ws, we; unfold vsize in *; lia.
Qed.

Lemma flatten_result_witness :
  flatten [tensor [2; 3; 4; 5]; scalar 2; scalar 1] =
    Err "start dimension should not be larger than end dimension" ∧
  flatten [tensor [2; 3; 4; 5]; scalar 1; scalar (-2)] = Ok [2; 12; 5] ∧
  (∃ s : TensorShape,
     flatten [tensor [2; 3; 4; 5]; scalar 1; scalar (-2)] = Ok s ∧
     product s = product [2; 3; 4; 5] ∧
     length s = (length [2; 3; 4; 5] - (2 - 1))%nat).
Proof.
  split; [|split].
  - pose proof (flatten_result (tensor [2; 3; 4; 5]) (scalar 2) (scalar 1)
                  [2; 3; 4; 5] 2 1 eq_refl eq_refl eq_refl) as H.
    cbv zeta in H. destruct H as (H & _ & _); [unfold vsize; cbn; lia..|].
    apply H. closed_arith.
  - pose proof (flatten_result (tensor [2; 3; 4; 5]) (scalar 1) (scalar (-2))
                  [2; 3; 4; 5] 1 (-2) eq_refl eq_refl eq_refl) as H.
    cbv zeta in H. destruct H as (_ & H & _); [unfold vsize; cbn; lia..|].
    apply H. closed_arith.
  - pose proof (flatten_result (tensor [2; 3; 4; 5]) (scalar 1) (scalar (-2))
                  [2; 3; 4; 5] 1 (-2) eq_refl eq_refl eq_refl) as H.
    cbv zeta in H. destruct H as (_ & _ & H); [unfold vsize; cbn; lia..|].
    apply H; closed_arith.
Defined.

(** The loop of [permute] on axes that are all valid. *)
Lemma permute_loop_ok (t : TensorShape) (order acc : list Z) :
  (∀ d, d ∈ order -> 0 <= d < vsize t) ->
  forM (fun dim shape =>
          _ ← RETURN_ERR_IF_NOT (0 <=? dim)
                "Negative shuffle dimensions not supported by Glow yet.";
          _ ← RETURN_ERR_IF_NOT (dim <? vsize t)
                "All shuffle dimensions must be less than the rank of the input.";
          x ← vec_at t dim;
          Ok (shape ++ [x])) order acc
  = Ok (acc ++ ((fun d => default 0 (t !! Z.to_nat d)) <$> order)).
Proof.
  revert acc. induction order as [|d order IH]; intros acc H.
  - cbn. by rewrite app_nil_r.
  - pose proof (H d (list_elem_of_here _ _)) as Hd. cbn [forM].
    replace (0 <=? d) with true by (symmetry; apply Z.leb_le; lia).
    replace (d <? vsize t) with true by (symmetry; apply Z.ltb_lt; lia).
    cbn [RETURN_ERR_IF_NOT mbind Expected_bind].
    destruct (lookup_lt_is_Some_2 t (Z.to_nat d)) as [x Hx];
      [unfold vsize in Hd; lia|].
    rewrite (vec_at_ok t d x) by first [lia | done].
    cbn [mbind Expected_bind]. rewrite IH.
    + rewrite fmap_cons, <- app_assoc. cbv beta. cbn [app].
      do 3 f_equal. symmetry. exact (f_equal (default 0) Hx).
    + intros e He. apply H. by apply list_elem_of_further.
Qed.

(** X12.  [permute] refuses an axis list whose length is not the rank;
    with every axis in [[0, rank)] it returns the extents in the order of
    the list, repeated axes included; and at the first axis that is
    negative, or not below the rank, it fails with the failure for that
    case. *)
Theorem permute_result (A R : VariableMeta) (t : TensorShape) :
  shapeT A = Ok t ->
  (length (intValue R) ≠ length t ->
   permute [A; R] =
     Err "Shuffle for permute must has the same number of dimensions as the input tensor.") ∧
  (length (intValue R) = length t ->
   (∀ d, d ∈ intValue R -> 0 <= d < vsize t) ->
   permute [A; R] =
     Ok ((fun d => default 0 (t !! Z.to_nat d)) <$> intValue R)) ∧
  (length (intValue R) = length t ->
   ∀ (good rest : list Z) (d : Z),
     intValue R = good ++ d :: rest ->
     (∀ d', d' ∈ good -> 0 <= d' < vsize t) ->
     (d < 0 ->
      permute [A; R] =
        Err "Negative shuffle dimensions not supported by Glow yet.") ∧
     (vsize t <= d ->
      permute [A; R] =
        Err "All shuffle dimensions must be less than the rank of the input.")).
Proof.
  intros HA.
  assert (Hhead : permute [A; R] =
    (_ ← RETURN_ERR_IF_NOT (vsize t =? vsize (intValue R))
           "Shuffle for permute must has the same number of dimensions as the input tensor.";
     forM (fun dim shape =>
          _ ← RETURN_ERR_IF_NOT (0 <=? dim)
                "Negative shuffle dimensions not supported by Glow yet.";
          _ ← RETURN_ERR_IF_NOT (dim <? vsize t)
                "All shuffle dimensions must be less than the rank of the input.";
          x ← vec_at t dim;
          Ok (shape ++ [x])) (intValue R) [])).
  { unfold permute. change (vsize [A; R] =? 2) with true.
    cbn [RETURN_ERR_IF_NOT mbind Expected_bind].
    rewrite (vec_at_ok [A; R] 0 A), (vec_at_ok [A; R] 1 R) by vec_index.
    cbn [mbind Expected_bind]. by rewrite HA. }
  rewrite Hhead. split; [|split].
  - intros Hne.
    by replace (vsize t =? vsize (intValue R)) with false
      by (symmetry; apply Z.eqb_neq; unfold vsize; lia).
  - intros Hlen Hall.
    replace (vsize t =? vsize (intValue R)) with true
      by (symmetry; apply Z.eqb_eq; unfold vsize; lia).
    cbn [RETURN_ERR_IF_NOT mbind Expected_bind].
    by rewrite permute_loop_ok.
  - intros Hlen good rest d Hord Hgood.
    replace (vsize t =? vsize (intValue R)) with true
      by (symmetry; apply Z.eqb_eq; unfold vsize; lia).
    cbn [RETURN_ERR_IF_NOT mbind Expected_bind].
    rewrite Hord, forM_app, permute_loop_ok by done.
    cbn [mbind Expected_bind forM]. split; intros Hd.
    + by replace (0 <=? d) with false by (symmetry; apply Z.leb_gt; lia).
    + replace (0 <=? d) with true
        by (symmetry; apply Z.leb_le; pose proof (Nat2Z.is_nonneg (length t));
            unfold vsize in Hd; lia).
      by replace (d <? vsize t) with false by (symmetry; apply Z.ltb_ge; lia).
Qed.

Lemma permute_result_witness :
  permute [tensor [2; 3; 4]; intList [1; 0]] =
    Err "Shuffle for permute must has the same number of dimensions as the input tensor." ∧
  permute [tensor [2; 3; 4]; intList [2; 0; 0]] = Ok [4; 2; 2] ∧
  permute [tensor [2; 3; 4]; intList [2; -1; 0]] =
    Err "Negative shuffle dimensions not supported by Glow yet." ∧
  permute [tensor [2; 3; 4]; intList [2; 3; 0]] =
    Err "All shuffle dimensions must be less than the rank of the input.".
Proof.
  split; [|split; [|split]].
  - destruct (permute_result (tensor [2; 3; 4]) (intList [1; 0]) [2; 3; 4]
                eq_refl) as (H & _ & _).
    apply H. cbn. lia.
  - destruct (permute_result (tensor [2; 3; 4]) (intList [2; 0; 0]) [2; 3; 4]
                eq_refl) as (_ & H & _).
    apply H; [reflexivity|]. cbn [intList intValue]. intros d Hd.
    repeat (apply elem_of_cons in Hd as [->|Hd]; [unfold vsize; cbn; lia|]).
    by apply elem_of_nil in Hd.
  - destruct (permute_result (tensor [2; 3; 4]) (intList [2; -1; 0]) [2; 3; 4]
                eq_refl) as (_ & _ & H).
    destruct (H eq_refl [2] [0] (-1) eq_refl) as [H1 _].
    + intros d Hd. apply list_elem_of_singleton in Hd as ->.
      unfold vsize. cbn. lia.
    + apply H1. lia.
  - destruct (permute_result (tensor [2; 3; 4]) (intList [2; 3; 0]) [2; 3; 4]
                eq_refl) as (_ & _ & H).
    destruct (H eq_refl [2] [0] 3 eq_refl) as [_ H2].
    + intros d Hd. apply list_elem_of_singleton in Hd as ->.
      unfold vsize. cbn. lia.
    + apply H2. unfold vsize. cbn. lia.
Defined.

(** ** Concatenation: [cat] and [fusedConcat] *)

Lemma zsum_cons (x : Z) (l : list Z) : zsum (x :: l) = x + zsum l.
Proof. done. Qed.

Lemma extent_at_lookup (w : nat) (s : list Z) :
  (w < length s)%nat -> s !! w = Some (extent_at w s).
Proof.
  intros H. unfold extent_at.
  destruct (s !! w) eqn:E; [done|]. apply lookup_ge_None in E. lia.
Qed.

(** Sums that stay below 2^63 are not wrapped. *)
Lemma foldl_add64 (l : list Z) (acc : Z) :
  0 <= acc -> Forall (fun x => 0 <= x) l -> acc + zsum l < 2 ^ 63 ->
  foldl add64 acc l = acc + zsum l.
Proof.
  revert acc. induction l as [|x l IH]; intros acc Hacc Hl Hsum.
  - cbn. unfold zsum. cbn. lia.
  - apply Forall_cons in Hl as [Hx Hl]. rewrite zsum_cons in Hsum.
    assert (0 <= zsum l).
    { clear -Hl. induction Hl; [done|]. rewrite zsum_cons. lia. }
    cbn [foldl]. unfold add64 at 2. rewrite wrap64_id by lia.
    rewrite IH by (done || lia). rewrite zsum_cons. lia.
Qed.

Section Concat.

(** The first shape [s0] and the wrapped axis [w] of a concatenation. *)
Context (s0 : list Z) (w : nat).
Hypothesis Hw : (w < length s0)%nat.

Lemma cat_test_cases (ti : list Z) :
  length ti = length s0 ->
  (agree w s0 ti -> cat_test s0 w ti tt = Ok tt) ∧
  ((∃ j : nat, j ≠ w ∧ ti !! j ≠ s0 !! j) ->
   cat_test s0 w ti tt = Err (cat_mismatch (Z.of_nat w))) ∧
  (cat_test s0 w ti tt = Ok tt ∨ cat_test s0 w ti tt = Err (cat_mismatch (Z.of_nat w))).
Proof.
  intros Hlen. unfold cat_test.
  replace (vsize s0 =? vsize ti) with true
    by (symmetry; apply Z.eqb_eq; unfold vsize; lia).
  cbn [RETURN_ERR_IF_NOT mbind Expected_bind].
  set (body := fun j (_ : unit) => _).
  assert (Hbody : ∀ j, j ∈ upto (vsize s0) ->
    ∃ a b, s0 !! Z.to_nat j = Some a ∧ ti !! Z.to_nat j = Some b ∧
      body j tt = if j =? Z.of_nat w then Ok tt
                  else RETURN_ERR_IF_NOT (a =? b) (cat_mismatch (Z.of_nat w))).
  { intros j Hj%upto_bound. unfold vsize in Hj.
    destruct (lookup_lt_is_Some_2 s0 (Z.to_nat j)) as [a Ha]; [lia|].
    destruct (lookup_lt_is_Some_2 ti (Z.to_nat j)) as [b Hb]; [lia|].
    exists a, b. split; [done|]. split; [done|]. unfold body.
    destruct (j =? Z.of_nat w); [done|].
    rewrite (vec_at_ok s0 j a), (vec_at_ok ti j b) by first [lia | done].
    done. }
  assert (Hdich : ∀ j, j ∈ upto (vsize s0) ->
    body j tt = Ok tt ∨ body j tt = Err (cat_mismatch (Z.of_nat w))).
  { intros j Hj. destruct (Hbody j Hj) as (a & b & _ & _ & ->).
    destruct (j =? Z.of_nat w); [by left|]. destruct (a =? b); [by left|by right]. }
  split; [|split].
  - intros [_ Hag]. apply forM_tests_pass. intros j Hj.
    destruct (Hbody j Hj) as (a & b & Ha & Hb & ->).
    destruct (Z.eqb_spec j (Z.of_nat w)) as [|Hjw]; [done|].
    rewrite Hag, Ha in Hb by (apply upto_bound in Hj; lia).
    injection Hb as ->. by rewrite Z.eqb_refl.
  - intros (j & Hjw & Hne). apply forM_tests_fail; [done|].
    assert (Hj : (j < length s0)%nat).
    { destruct (decide (j < length s0)%nat); [done|].
      exfalso. apply Hne. transitivity (@None Z);
        [apply lookup_ge_None_2; lia | symmetry; apply lookup_ge_None_2; lia]. }
    exists (Z.of_nat j). split.
    + unfold upto. apply list_elem_of_fmap. exists j. split; [done|].
      apply list_elem_of_In, in_seq. unfold vsize. lia.
    + destruct (Hbody (Z.of_nat j)) as (a & b & Ha & Hb & ->).
      { unfold upto. apply list_elem_of_fmap. exists j. split; [done|].
        apply list_elem_of_In, in_seq. unfold vsize. lia. }
      rewrite Nat2Z.id in Ha, Hb.
      replace (Z.of_nat j =? Z.of_nat w) with false
        by (symmetry; apply Z.eqb_neq; lia).
      replace (a =? b) with false; [done|].
      symmetry. apply Z.eqb_neq. intros ->. congruence.
  - clear Hbody. induction (upto (vsize s0)) as [|j l IH]; [by left|].
    cbn [forM]. destruct (Hdich j (list_elem_of_here _ _)) as [-> | ->];
      cbn [mbind Expected_bind]; [|by right].
    apply IH. intros j' Hj'. apply Hdich. by apply list_elem_of_further.
Qed.

(** The loop of [cat] that adds up the extents at the axis. *)
Lemma cat_sum_loop (rest : list (list Z)) (acc : Z) :
  Forall (fun ti => length ti = length s0) rest ->
  forM (fun ti shape =>
          a ← vec_at shape (Z.of_nat w);
          b ← vec_at ti (Z.of_nat w);
          vec_set shape (Z.of_nat w) (add64 a b))
    rest (<[w := acc]> s0)
  = Ok (<[w := foldl add64 acc (extent_at w <$> rest)]> s0).
Proof.
  revert acc. induction rest as [|ti rest IH]; intros acc Hlen; [done|].
  apply Forall_cons in Hlen as [Hti Hlen]. cbn [forM].
  rewrite (vec_at_nat (<[w := acc]> s0) w acc)
    by (by apply list_lookup_insert_eq).
  rewrite (vec_at_nat ti w (extent_at w ti))
    by (apply extent_at_lookup; lia).
  cbn [mbind Expected_bind].
  rewrite vec_set_ok by (unfold vsize; rewrite length_insert; lia).
  cbn [mbind Expected_bind]. rewrite Nat2Z.id, list_insert_insert_eq.
  by rewrite IH.
Qed.

End Concat.

(** [cat] on a list of two or more shapes, up to its two loops. *)
Lemma cat_unfold_at (L D : VariableMeta) (s0 : list Z)
    (rest : list (list Z)) (d : Z) (w : nat) :
  shapeL L = Ok (s0 :: rest) -> intValue D !! 0%nat = Some d ->
  rest ≠ [] -> maybe_wrap_dim d (vsize s0) = Ok (Z.of_nat w) ->
  cat [L; D] =
  (_ ← forM (cat_test s0 w) rest tt;
   forM (fun ti shape =>
           a ← vec_at shape (Z.of_nat w);
           b ← vec_at ti (Z.of_nat w);
           vec_set shape (Z.of_nat w) (add64 a b)) rest s0).
Proof.
  intros HL HD Hrest Hwrap.
  unfold cat. change (vsize [L; D] =? 2) with true.
  cbn [RETURN_ERR_IF_NOT mbind Expected_bind].
  rewrite (vec_at_ok [L; D] 0 L), (vec_at_ok [L; D] 1 D) by vec_index.
  cbn [mbind Expected_bind]. rewrite HL. cbn [mbind Expected_bind].
  unfold TensorShape in *.
  rewrite (vec_at_ok (s0 :: rest) 0 s0) by vec_index.
  cbn [mbind Expected_bind].
  replace (vsize (s0 :: rest) =? 1) with false
    by (symmetry; apply Z.eqb_neq; destruct rest; [done|unfold vsize; cbn; lia]).
  rewrite (vec_at_ok (intValue D) 0 d) by first [lia | done].
  cbn [mbind Expected_bind]. rewrite Hwrap.
  cbn [mbind Expected_bind].
  rewrite tail_upto.
  replace (Z.to_nat (vsize (s0 :: rest)) - 1)%nat with (length rest)
    by (unfold vsize; cbn [length]; lia).
  match goal with
  | |- context [forM ?f (Z.of_nat <$> seq 1 (length rest)) tt] =>
      change f with (fun (i : Z) (s : unit) =>
                       x ← vec_at (s0 :: rest) i; cat_test s0 w x s)
  end.
  rewrite (forM_index (s0 :: rest) (cat_test s0 w) (length rest) 1 tt)
    by (cbn [length]; lia).
  rewrite (forM_index (s0 :: rest)
             (fun ti shape =>
                a ← vec_at shape (Z.of_nat w);
                b ← vec_at ti (Z.of_nat w);
                vec_set shape (Z.of_nat w) (add64 a b)) (length rest) 1 s0)
    by (cbn [length]; lia).
  cbn [drop]. rewrite drop_0. by rewrite firstn_all.
Qed.

Lemma cat_unfold (L D : VariableMeta) (s0 : list Z) (rest : list (list Z))
    (d : Z) :
  shapeL L = Ok (s0 :: rest) -> intValue D !! 0%nat = Some d ->
  rest ≠ [] -> - vsize s0 <= d < vsize s0 ->
  let w := Z.to_nat (wrap_axis d (vsize s0)) in
  cat [L; D] =
  (_ ← forM (cat_test s0 w) rest tt;
   forM (fun ti shape =>
           a ← vec_at shape (Z.of_nat w);
           b ← vec_at ti (Z.of_nat w);
           vec_set shape (Z.of_nat w) (add64 a b)) rest s0).
Proof.
  intros HL HD Hrest Hd w.
  pose proof (wrap_axis_range d (vsize s0) Hd) as Hw.
  apply (cat_unfold_at L D s0 rest d w HL HD Hrest).
  rewrite maybe_wrap_dim_ok by done. f_equal. unfold w. lia.
Qed.

(** X13.  [cat] returns the single shape of a one-element list unchanged.
    On more shapes that agree with the first one everywhere but at the
    wrapped axis it returns the first shape with, at that axis, the sum of
    all the extents there; on shapes of equal rank of which one differs
    from the first at another axis it fails, naming the axis. *)
Theorem cat_result (L D : VariableMeta) (s0 : list Z) (rest : list (list Z))
    (d : Z) :
  shapeL L = Ok (s0 :: rest) -> intValue D !! 0%nat = Some d ->
  (rest = [] -> cat [L; D] = Ok s0) ∧
  (rest ≠ [] -> - vsize s0 <= d < vsize s0 ->
   let w := Z.to_nat (wrap_axis d (vsize s0)) in
   (Forall (agree w s0) rest ->
    Forall (fun s => 0 <= extent_at w s) (s0 :: rest) ->
    zsum (extent_at w <$> s0 :: rest) < 2 ^ 63 ->
    cat [L; D] = Ok (<[w := zsum (extent_at w <$> s0 :: rest)]> s0)) ∧
   (Forall (fun s => length s = length s0) rest ->
    Exists (fun s => ∃ j : nat, j ≠ w ∧ s !! j ≠ s0 !! j) rest ->
    cat [L; D] = Err (cat_mismatch (Z.of_nat w)))).
Proof.
  intros HL HD. split.
  - intros ->. unfold cat. change (vsize [L; D] =? 2) with true.
    cbn [RETURN_ERR_IF_NOT mbind Expected_bind].
    rewrite (vec_at_ok [L; D] 0 L) by vec_index.
    cbn [mbind Expected_bind]. rewrite HL. done.
  - intros Hrest Hd w.
    pose proof (wrap_axis_range d (vsize s0) Hd) as Hwr.
    assert (Hw : (w < length s0)%nat) by (unfold w, vsize in *; lia).
    rewrite (cat_unfold L D s0 rest d HL HD Hrest Hd). fold w. split.
    + intros Hag Hpos Hsum.
      rewrite forM_tests_pass.
      2:{ intros ti Hti. rewrite Forall_forall in Hag.
          destruct (cat_test_cases s0 w Hw ti) as [H _]; [apply (Hag ti Hti)|].
          by apply H, Hag. }
      cbn [mbind Expected_bind].
      rewrite <- (list_insert_id s0 w (extent_at w s0)) at 1
        by (by apply extent_at_lookup).
      rewrite (cat_sum_loop s0 w Hw).
      2:{ eapply Forall_impl; [exact Hag|]. by intros ti [? _]. }
      apply Forall_cons in Hpos as [Hp0 Hpos]. rewrite fmap_cons, zsum_cons in *.
      rewrite foldl_add64; [done|done| |done].
      by apply Forall_fmap.
    + intros Hlen Hbad. rewrite forM_tests_fail with (msg := cat_mismatch (Z.of_nat w)).
      * done.
      * intros ti Hti. rewrite Forall_forall in Hlen.
        by destruct (cat_test_cases s0 w Hw ti (Hlen ti Hti)) as (_ & _ & H).
      * apply Exists_exists in Hbad as (ti & Hti & Hj).
        exists ti. split; [done|]. rewrite Forall_forall in Hlen.
        destruct (cat_test_cases s0 w Hw ti (Hlen ti Hti)) as (_ & H & _).
        by apply H.
Qed.

Lemma cat_result_witness :
  cat [mkMeta [EList [[2; 3]]] [] Float; scalar 1] = Ok [2; 3] ∧
  cat [mkMeta [EList [[2; 3]; [2; 4]]] [] Float; scalar (-1)] = Ok [2; 7] ∧
  cat [mkMeta [EList [[2; 3]; [5; 3]]] [] Float; scalar 1]
  = Err (cat_mismatch 1).
Proof.
  split; [|split].
  - destruct (cat_result (mkMeta [EList [[2; 3]]] [] Float) (scalar 1)
                [2; 3] [] 1 eq_refl eq_refl) as [H _].
    by apply H.
  - destruct (cat_result (mkMeta [EList [[2; 3]; [2; 4]]] [] Float)
                (scalar (-1)) [2; 3] [[2; 4]] (-1) eq_refl eq_refl) as [_ H].
    assert (Hne : [[2; 4]] ≠ ([] : list (list Z))) by done.
    assert (Hd : - vsize [2; 3] <= -1 < vsize [2; 3]) by closed_arith.
    pose proof (H Hne Hd) as H'. cbv zeta in H'. destruct H' as [H1 _].
    apply H1.
    + constructor; [|constructor]. split; [reflexivity|].
      intros [|[|j]] Hj; [reflexivity|by destruct Hj|reflexivity].
    + repeat constructor; closed_arith.
    + closed_arith.
  - destruct (cat_result (mkMeta [EList [[2; 3]; [5; 3]]] [] Float)
                (scalar 1) [2; 3] [[5; 3]] 1 eq_refl eq_refl) as [_ H].
    assert (Hne : [[5; 3]] ≠ ([] : list (list Z))) by done.
    assert (Hd : - vsize [2; 3] <= 1 < vsize [2; 3]) by closed_arith.
    pose proof (H Hne Hd) as H'. cbv zeta in H'. destruct H' as [_ H2].
    apply H2.
    + by repeat constructor.
    + apply Exists_cons_hd. exists 0%nat. split; [closed_arith|discriminate].
Defined.

(** ** [fusedConcat] against [cat] *)

(** A loop that reads each element through [f] is a loop over the values
    read. *)
Lemma forM_read {A B S} (f : A -> Expected B) (H : B -> S -> Expected S)
    (ms : list A) (bs : list B) (s : S) :
  Forall2 (fun m b => f m = Ok b) ms bs ->
  forM (fun m s => b ← f m; H b s) ms s = forM H bs s.
Proof.
  intros HF. revert s. induction HF as [|m b ms bs Hm _ IH]; intros s; [done|].
  cbn [forM]. rewrite Hm. cbn [mbind Expected_bind].
  destruct (H b s); cbn [mbind Expected_bind]; [|done..]. apply IH.
Qed.

Lemma cat_single (L D : VariableMeta) (s0 : list Z) :
  shapeL L = Ok [s0] -> cat [L; D] = Ok s0.
Proof.
  intros HL. unfold cat. change (vsize [L; D] =? 2) with true.
  cbn [RETURN_ERR_IF_NOT mbind Expected_bind].
  rewrite (vec_at_ok [L; D] 0 L) by vec_index.
  cbn [mbind Expected_bind]. rewrite HL. done.
Qed.

Section Fused.

Context (s0 : list Z) (w : nat).
Hypothesis Hw : (w < length s0)%nat.

Lemma cat_add_step (ti : list Z) (acc : Z) :
  length ti = length s0 ->
  cat_add w ti (<[w := acc]> s0) = Ok (<[w := add64 acc (extent_at w ti)]> s0).
Proof.
  intros Hti. unfold cat_add.
  rewrite (vec_at_nat (<[w := acc]> s0) w acc)
    by (by apply list_lookup_insert_eq).
  rewrite (vec_at_nat ti w (extent_at w ti))
    by (apply extent_at_lookup; lia).
  cbn [mbind Expected_bind].
  rewrite vec_set_ok by (unfold vsize; rewrite length_insert; lia).
  by rewrite Nat2Z.id, list_insert_insert_eq.
Qed.

Lemma cat_test_length (ti : list Z) :
  cat_test s0 w ti tt = Ok tt -> length ti = length s0.
Proof.
  unfold cat_test. destruct (Z.eqb_spec (vsize s0) (vsize ti)) as [E|E].
  - intros _. unfold vsize in E. lia.
  - discriminate.
Qed.

(** The pass of [fusedConcat] over the axes, from axis [k] on. *)
Lemma fused_inner (ti : list Z) (acc : Z) (m k : nat) :
  length ti = length s0 -> (k + m = length s0)%nat ->
  forM (fun j shape =>
          if j =? Z.of_nat w then
            a ← vec_at shape (Z.of_nat w);
            b ← vec_at ti (Z.of_nat w);
            vec_set shape (Z.of_nat w) (add64 a b)
          else
            a ← vec_at shape j;
            b ← vec_at ti j;
            _ ← RETURN_ERR_IF_NOT (a =? b) (cat_mismatch (Z.of_nat w));
            Ok shape)
    (Z.of_nat <$> seq k m)
    (<[w := if decide (k <= w)%nat then acc
            else add64 acc (extent_at w ti)]> s0)
  = (_ ← forM (fun j (_ : unit) =>
                 if j =? Z.of_nat w then Ok tt
                 else
                   a ← vec_at s0 j;
                   b ← vec_at ti j;
                   RETURN_ERR_IF_NOT (a =? b) (cat_mismatch (Z.of_nat w)))
          (Z.of_nat <$> seq k m) tt;
     Ok (<[w := add64 acc (extent_at w ti)]> s0)).
Proof.
  intros Hti. revert k. induction m as [|m IH]; intros k Hk.
  - cbn. destruct (decide (k <= w)%nat); [lia|done].
  - rewrite upto_from. cbn [forM]. specialize (IH (S k) ltac:(lia)).
    destruct (decide (k = w)) as [->|Hkw].
    + rewrite Z.eqb_refl. cbn [mbind Expected_bind].
      destruct (decide (w <= w)%nat); [|lia].
      destruct (decide (S w <= w)%nat); [lia|].
      pose proof (cat_add_step ti acc Hti) as Hadd. unfold cat_add in Hadd.
      rewrite Hadd. cbn [mbind Expected_bind]. exact IH.
    + replace (Z.of_nat k =? Z.of_nat w) with false
        by (symmetry; apply Z.eqb_neq; lia).
      destruct (lookup_lt_is_Some_2 s0 k) as [a Ha]; [lia|].
      destruct (lookup_lt_is_Some_2 ti k) as [b Hb]; [lia|].
      set (cur := if decide (k <= w)%nat then _ else _) in *.
      rewrite (vec_at_nat (<[w := cur]> s0) k a)
        by (by rewrite list_lookup_insert_ne).
      rewrite (vec_at_nat s0 k a), (vec_at_nat ti k b) by done.
      cbn [mbind Expected_bind].
      destruct (a =? b); cbn [RETURN_ERR_IF_NOT mbind Expected_bind]; [|done].
      subst cur.
      destruct (decide (k <= w)%nat), (decide (S k <= w)%nat);
        try lia; exact IH.
Qed.

Lemma fused_step_eq (ti : list Z) (acc : Z) :
  fused_step s0 w ti (<[w := acc]> s0)
  = (_ ← cat_test s0 w ti tt; Ok (<[w := add64 acc (extent_at w ti)]> s0)).
Proof.
  unfold fused_step, cat_test.
  destruct (Z.eqb_spec (vsize s0) (vsize ti)) as [E|E];
    cbn [RETURN_ERR_IF_NOT mbind Expected_bind]; [|done].
  rewrite upto_seq.
  pose proof (fused_inner ti acc (Z.to_nat (vsize s0)) 0) as H.
  destruct (decide (0 <= w)%nat); [|lia].
  apply H; unfold vsize in *; lia.
Qed.

(** Testing and adding shape by shape gives what testing every shape and
    then adding every shape gives. *)
Lemma fused_loop (rest : list (list Z)) (acc : Z) :
  forM (fused_step s0 w) rest (<[w := acc]> s0)
  = (_ ← forM (cat_test s0 w) rest tt; forM (cat_add w) rest (<[w := acc]> s0)).
Proof.
  revert acc. induction rest as [|ti rest IH]; intros acc; [done|].
  cbn [forM]. rewrite fused_step_eq.
  destruct (cat_test s0 w ti tt) as [[]| |] eqn:E;
    cbn [mbind Expected_bind]; [|done..].
  rewrite IH, (cat_add_step ti acc (cat_test_length ti E)).
  done.
Qed.

End Fused.

(** [fusedConcat] on two or more tensors, up to its loop. *)
Lemma fusedConcat_unfold_at (metas : MetaStack) (s0 : list Z)
    (rest : list (list Z)) (d : Z) (w : nat) :
  Forall2 (fun m s => shapeT m = Ok s) metas (s0 :: rest) ->
  rest ≠ [] -> maybe_wrap_dim d (vsize s0) = Ok (Z.of_nat w) ->
  fusedConcat metas d = forM (fused_step s0 w) rest s0.
Proof.
  intros HF Hrest Hwrap.
  inversion HF as [|m0 ? ms ? Hm0 Hms]; subst.
  pose proof (Forall2_length _ _ _ Hms) as Hlen.
  unfold fusedConcat.
  replace (1 <=? vsize (m0 :: ms)) with true
    by (symmetry; apply Z.leb_le; unfold vsize; cbn [length]; lia).
  cbn [RETURN_ERR_IF_NOT mbind Expected_bind].
  rewrite (vec_at_ok (m0 :: ms) 0 m0) by vec_index.
  cbn [mbind Expected_bind].
  replace (vsize (m0 :: ms) =? 1) with false
    by (symmetry; apply Z.eqb_neq; destruct rest; [done|];
        unfold vsize; cbn [length] in *; lia).
  rewrite Hm0. cbn [mbind Expected_bind]. unfold TensorShape in *.
  rewrite Hwrap. cbn [mbind Expected_bind].
  rewrite tail_upto.
  replace (Z.to_nat (vsize (m0 :: ms)) - 1)%nat with (length ms)
    by (unfold vsize; cbn [length]; lia).
  transitivity
    (forM (fun mi shape => ti ← shapeT mi; fused_step s0 w ti shape)
       (take (length ms) (drop 1 (m0 :: ms))) s0).
  { refine (forM_index (m0 :: ms)
              (fun mi shape => ti ← shapeT mi; fused_step s0 w ti shape)
              (length ms) 1 s0 _). cbn [length]. lia. }
  cbn [drop]. rewrite drop_0, firstn_all.
  by apply (forM_read shapeT (fused_step s0 w)).
Qed.

Lemma fusedConcat_unfold (metas : MetaStack) (s0 : list Z)
    (rest : list (list Z)) (d : Z) :
  Forall2 (fun m s => shapeT m = Ok s) metas (s0 :: rest) ->
  rest ≠ [] -> - vsize s0 <= d < vsize s0 ->
  fusedConcat metas d
  = forM (fused_step s0 (Z.to_nat (wrap_axis d (vsize s0)))) rest s0.
Proof.
  intros HF Hrest Hd.
  pose proof (wrap_axis_range d (vsize s0) Hd) as Hw.
  apply (fusedConcat_unfold_at metas s0 rest d _ HF Hrest).
  rewrite maybe_wrap_dim_ok by done. f_equal. lia.
Qed.



(** X14.  On tensors of rank 1 or more and an axis in range,
    [fusedConcat] computes, result or failure, what [cat] computes on the
    list of their shapes. *)
Theorem fusedConcat_cat (metas : MetaStack) (L D : VariableMeta)
    (s0 : list Z) (rest : list (list Z)) (d : Z) :
  Forall2 (fun m s => shapeT m = Ok s) metas (s0 :: rest) ->
  shapeL L = Ok (s0 :: rest) -> intValue D !! 0%nat = Some d ->
  - vsize s0 <= d < vsize s0 ->
  fusedConcat metas d = cat [L; D].
Proof.
  intros HF HL HD Hd. destruct (decide (rest = [])) as [->|Hrest].
  - rewrite (cat_single L D s0 HL).
    inversion HF as [|m0 ? ms ? Hm0 Hms]; subst.
    inversion Hms; subst. unfold fusedConcat.
    change (1 <=? vsize [m0]) with true.
    cbn [RETURN_ERR_IF_NOT mbind Expected_bind].
    rewrite (vec_at_ok [m0] 0 m0) by vec_index. done.
  - pose proof (wrap_axis_range d (vsize s0) Hd) as Hwr.
    rewrite (fusedConcat_unfold metas s0 rest d HF Hrest Hd).
    rewrite (cat_unfold L D s0 rest d HL HD Hrest Hd).
    set (w := Z.to_nat (wrap_axis d (vsize s0))).
    assert (Hw : (w < length s0)%nat) by (unfold w, vsize in *; lia).
    pose proof (fused_loop s0 w Hw rest (extent_at w s0)) as H.
    rewrite (list_insert_id s0 w (extent_at w s0)) in H
      by (by apply extent_at_lookup).
    exact H.
Qed.

Lemma fusedConcat_cat_witness :
  fusedConcat [tensor [2; 3]; tensor [2; 4]] (-1)
  = cat [mkMeta [EList [[2; 3]; [2; 4]]] [] Float; scalar (-1)].
Proof.
  apply (fusedConcat_cat [tensor [2; 3]; tensor [2; 4]]
           (mkMeta [EList [[2; 3]; [2; 4]]] [] Float) (scalar (-1))
           [2; 3] [[2; 4]] (-1)).
  - repeat constructor.
  - reflexivity.
  - reflexivity.
  - unfold vsize. cbn. lia.
Defined.

(** X15.  On two or more tensors of rank 0 the two concatenations part:
    [fusedConcat] returns the empty shape, [cat] reads the extent at axis
    0 of the empty shape, out of range. *)
Theorem concat_rank0 (metas : MetaStack) (L D : VariableMeta)
    (rest : list (list Z)) (d : Z) :
  Forall2 (fun m s => shapeT m = Ok s) metas ([] :: rest) ->
  shapeL L = Ok ([] :: rest) -> intValue D !! 0%nat = Some d ->
  rest ≠ [] -> Forall (fun s => s = []) rest -> -1 <= d < 1 ->
  fusedConcat metas d = Ok [] ∧ cat [L; D] = Crash OutOfRange.
Proof.
  intros HF HL HD Hrest Hall Hd.
  assert (Hwrap : maybe_wrap_dim d (vsize ([] : list Z)) = Ok (Z.of_nat 0)).
  { unfold maybe_wrap_dim. change (vsize [] <=? 0) with true. cbv iota.
    destruct (Z.ltb_spec d (- (1))); [lia|].
    destruct (Z.leb_spec 1 d); [lia|]. cbn [orb].
    destruct (Z.ltb_spec d 0); f_equal; cbn; lia. }
  split.
  - rewrite (fusedConcat_unfold_at metas [] rest d 0 HF Hrest Hwrap).
    clear -Hall. induction Hall as [|s rest -> _ IH]; [done|].
    cbn [forM]. by rewrite <- IH.
  - rewrite (cat_unfold_at L D [] rest d 0 HL HD Hrest Hwrap).
    rewrite forM_tests_pass.
    + destruct rest as [|s rest']; done.
    + intros s Hs. rewrite Forall_forall in Hall. by rewrite (Hall s Hs).
Qed.

Lemma concat_rank0_witness :
  fusedConcat [tensor []; tensor []] 0 = Ok [] ∧
  cat [mkMeta [EList [[]; []]] [] Float; scalar 0] = Crash OutOfRange.
Proof.
  apply (concat_rank0 [tensor []; tensor []]
           (mkMeta [EList [[]; []]] [] Float) (scalar 0) [[]] 0).
  - repeat constructor.
  - reflexivity.
  - reflexivity.
  - done.
  - repeat constructor.
  - lia.
Defined.

(** ** Stacking: [stack] and [fusedStack] *)

Lemma vec_insert_ok {A} (v : list A) (w : nat) (x : A) :
  (w <= length v)%nat ->
  vec_insert v (Z.of_nat w) x = Ok (take w v ++ x :: drop w v).
Proof.
  intros Hw. unfold vec_insert.
  replace ((0 <=? Z.of_nat w) && (Z.of_nat w <=? vsize v)) with true.
  - by rewrite Nat2Z.id.
  - symmetry. apply andb_true_iff. split; apply Z.leb_le; unfold vsize; lia.
Qed.

(** A loop of tests of equality with a given value. *)
Lemma forM_same {A} `{EqDecision A} (test : A -> bool) (msg : string)
    (l : list A) :
  (Forall (fun a => test a = true) l ->
   forM (fun a (_ : unit) => RETURN_ERR_IF_NOT (test a) msg) l tt = Ok tt) ∧
  (Exists (fun a => test a = false) l ->
   forM (fun a (_ : unit) => RETURN_ERR_IF_NOT (test a) msg) l tt = Err msg).
Proof.
  split.
  - intros H. apply forM_tests_pass. intros a Ha.
    rewrite Forall_forall in H. by rewrite (H a Ha).
  - intros H. apply forM_tests_fail.
    + intros a _. destruct (test a); [by left|by right].
    + apply Exists_exists in H as (a & Ha & Hf). exists a. by rewrite Hf.
Qed.

(** X16.  [stack] on a list of shapes and an axis in range for the first
    shape: when all shapes equal the first, the result is the first shape
    with the number of shapes inserted before the wrapped axis, which is
    never behind the last axis; when a shape differs, the call fails. *)
Theorem stack_result (L D : VariableMeta) (s0 : list Z) (rest : list (list Z))
    (d : Z) :
  shapeL L = Ok (s0 :: rest) -> intValue D !! 0%nat = Some d ->
  - vsize s0 <= d < vsize s0 ->
  let w := Z.to_nat (wrap_axis d (vsize s0)) in
  (w < length s0)%nat ∧
  (Forall (fun s => s = s0) rest ->
   stack [L; D] = Ok (insert_at w (vsize (s0 :: rest)) s0)) ∧
  (Exists (fun s => s ≠ s0) rest ->
   stack [L; D] = Err "All tensors need to be of the same shape.").
Proof.
  intros HL HD Hd w.
  pose proof (wrap_axis_range d (vsize s0) Hd) as Hwr.
  assert (Hw : (w < length s0)%nat) by (unfold w, vsize in *; lia).
  split; [exact Hw|].
  assert (Hstack : stack [L; D] =
    (_ ← forM (fun si (_ : unit) =>
                 RETURN_ERR_IF_NOT (bool_decide (s0 = si))
                   "All tensors need to be of the same shape.") rest tt;
     vec_insert s0 (Z.of_nat w) (vsize (s0 :: rest)))).
  { unfold stack. change (vsize [L; D] =? 2) with true.
    cbn [RETURN_ERR_IF_NOT mbind Expected_bind].
    rewrite (vec_at_ok [L; D] 0 L), (vec_at_ok [L; D] 1 D) by vec_index.
    cbn [mbind Expected_bind]. rewrite HL. cbn [mbind Expected_bind].
    unfold TensorShape in *.
    rewrite (vec_at_ok (s0 :: rest) 0 s0) by vec_index.
    rewrite (vec_at_ok (intValue D) 0 d) by first [lia | done].
    cbn [mbind Expected_bind]. rewrite maybe_wrap_dim_ok by done.
    cbn [mbind Expected_bind].
    replace (wrap_axis d (vsize s0)) with (Z.of_nat w) by (unfold w; lia).
    rewrite tail_upto.
    replace (Z.to_nat (vsize (s0 :: rest)) - 1)%nat with (length rest)
      by (unfold vsize; cbn [length]; lia).
    set (chk := forM _ (Z.of_nat <$> seq 1 (length rest)) tt).
    assert (Hchk : chk =
      forM (fun si (_ : unit) =>
              RETURN_ERR_IF_NOT (bool_decide (s0 = si))
                "All tensors need to be of the same shape.")
        (take (length rest) (drop 1 (s0 :: rest))) tt).
    { refine (forM_index (s0 :: rest) _ (length rest) 1 tt _).
      cbn [length]. lia. }
    rewrite Hchk. cbn [drop]. by rewrite drop_0, firstn_all. }
  rewrite Hstack.
  destruct (forM_same (fun si => bool_decide (s0 = si))
              "All tensors need to be of the same shape." rest) as [Hok Hbad].
  split.
  - intros Hall. rewrite Hok.
    + cbn [mbind Expected_bind]. by rewrite vec_insert_ok by lia.
    + eapply Forall_impl; [exact Hall|]. intros s ->.
      by apply bool_decide_eq_true_2.
  - intros Hex. rewrite Hbad; [done|].
    eapply Exists_impl; [exact Hex|]. intros s Hs.
    apply bool_decide_eq_false_2. congruence.
Qed.

Lemma stack_result_witness :
  stack [mkMeta [EList [[2; 3]; [2; 3]; [2; 3]]] [] Float; scalar (-1)]
  = Ok [2; 3; 3] ∧
  stack [mkMeta [EList [[2; 3]; [2; 4]]] [] Float; scalar 0]
  = Err "All tensors need to be of the same shape.".
Proof.
  split.
  - pose proof (stack_result (mkMeta [EList [[2; 3]; [2; 3]; [2; 3]]] [] Float)
                  (scalar (-1)) [2; 3] [[2; 3]; [2; 3]] (-1) eq_refl eq_refl)
      as H.
    cbv zeta in H. destruct H as (_ & H & _); [closed_arith|].
    apply H. by repeat constructor.
  - pose proof (stack_result (mkMeta [EList [[2; 3]; [2; 4]]] [] Float)
                  (scalar 0) [2; 3] [[2; 4]] 0 eq_refl eq_refl) as H.
    cbv zeta in H. destruct H as (_ & _ & H); [closed_arith|].
    apply H. by apply Exists_cons_hd.
Defined.

(** X17.  [fusedStack] returns the shape of a single tensor unchanged.  On
    more tensors and an axis in range for one more than their rank: when
    all shapes are equal the result is that shape with the number of
    tensors inserted before the wrapped axis, which may be behind the last
    axis; when a shape differs, the call fails. *)
Theorem fusedStack_result (metas : MetaStack) (s0 : list Z)
    (rest : list (list Z)) (d : Z) :
  Forall2 (fun m s => shapeT m = Ok s) metas (s0 :: rest) ->
  vsize s0 + 1 < 2 ^ 63 ->
  (rest = [] -> fusedStack metas d = Ok s0) ∧
  (rest ≠ [] -> - (vsize s0 + 1) <= d < vsize s0 + 1 ->
   let w := Z.to_nat (wrap_axis d (vsize s0 + 1)) in
   (w <= length s0)%nat ∧
   (Forall (fun s => s = s0) rest ->
    fusedStack metas d = Ok (insert_at w (vsize metas) s0)) ∧
   (Exists (fun s => s ≠ s0) rest ->
    fusedStack metas d = Err "All inputs must have same shape")).
Proof.
  intros HF Hsz.
  inversion HF as [|m0 ? ms ? Hm0 Hms]; subst.
  pose proof (Forall2_length _ _ _ Hms) as Hlen.
  assert (Hhead : ∀ k : list Z -> Expected (list Z),
    (_ ← RETURN_ERR_IF_NOT (1 <=? vsize (m0 :: ms))
           ("Expected at least 1 inputs, got " +:+
            fmt_zu (vsize (m0 :: ms)) +:+ ".");
     m ← vec_at (m0 :: ms) 0; shape ← shapeT m; k shape) = k s0).
  { intros k.
    replace (1 <=? vsize (m0 :: ms)) with true
      by (symmetry; apply Z.leb_le; unfold vsize; cbn [length]; lia).
    cbn [RETURN_ERR_IF_NOT mbind Expected_bind].
    rewrite (vec_at_ok (m0 :: ms) 0 m0) by vec_index.
    cbn [mbind Expected_bind]. by rewrite Hm0. }
  split.
  - intros ->. inversion Hms; subst. unfold fusedStack.
    by rewrite (Hhead (fun shape => if vsize [m0] =? 1 then Ok shape else _)).
  - intros Hrest Hd w.
    pose proof (wrap_axis_range d (vsize s0 + 1) Hd) as Hwr.
    assert (Hw : (w <= length s0)%nat) by (unfold w, vsize in *; lia).
    split; [exact Hw|].
    assert (Hfused : fusedStack (m0 :: ms) d =
      (_ ← forM (fun s (_ : unit) =>
                   RETURN_ERR_IF_NOT (bool_decide (s = s0))
                     "All inputs must have same shape") (s0 :: rest) tt;
       vec_insert s0 (Z.of_nat w) (vsize (m0 :: ms)))).
    { unfold fusedStack.
      rewrite (Hhead (fun shape =>
                 if vsize (m0 :: ms) =? 1 then Ok shape else _)).
      replace (vsize (m0 :: ms) =? 1) with false
        by (symmetry; apply Z.eqb_neq; destruct rest; [done|];
            unfold vsize; cbn [length] in *; lia).
      unfold add64. rewrite wrap64_id by (unfold vsize in *; lia).
      rewrite maybe_wrap_dim_ok by done. cbn [mbind Expected_bind].
      replace (wrap_axis d (vsize s0 + 1)) with (Z.of_nat w) by (unfold w; lia).
      set (chk := forM _ (m0 :: ms) tt).
      assert (Hchk : chk =
        forM (fun s (_ : unit) =>
                RETURN_ERR_IF_NOT (bool_decide (s = s0))
                  "All inputs must have same shape") (s0 :: rest) tt).
      { refine (forM_read shapeT _ (m0 :: ms) (s0 :: rest) tt HF). }
      by rewrite Hchk. }
    rewrite Hfused.
    destruct (forM_same (fun s => bool_decide (s = s0))
                "All inputs must have same shape" (s0 :: rest)) as [Hok Hbad].
    split.
    + intros Hall. rewrite Hok.
      * cbn [mbind Expected_bind]. by rewrite vec_insert_ok by lia.
      * constructor; [by apply bool_decide_eq_true_2|].
        eapply Forall_impl; [exact Hall|]. intros s ->.
        by apply bool_decide_eq_true_2.
    + intros Hex. rewrite Hbad; [done|]. apply Exists_cons_tl.
      eapply Exists_impl; [exact Hex|]. intros s Hs.
      by apply bool_decide_eq_false_2.
Qed.

Lemma fusedStack_result_witness :
  fusedStack [tensor [2; 3]] 5 = Ok [2; 3] ∧
  fusedStack [tensor [2; 3]; tensor [2; 3]] (-1) = Ok [2; 3; 2] ∧
  fusedStack [tensor [2; 3]; tensor [2; 4]] 0
  = Err "All inputs must have same shape".
Proof.
  split; [|split].
  - destruct (fusedStack_result [tensor [2; 3]] [2; 3] [] 5) as [H _].
    + by repeat constructor.
    + closed_arith.
    + by apply H.
  - destruct (fusedStack_result [tensor [2; 3]; tensor [2; 3]] [2; 3]
                [[2; 3]] (-1)) as [_ H].
    + by repeat constructor.
    + closed_arith.
    + assert (Hne : [[2; 3]] ≠ ([] : list (list Z))) by done.
      assert (Hd : - (vsize [2; 3] + 1) <= -1 < vsize [2; 3] + 1)
        by closed_arith.
      pose proof (H Hne Hd) as H'. cbv zeta in H'.
      destruct H' as (_ & H1 & _). apply H1. by repeat constructor.
  - destruct (fusedStack_result [tensor [2; 3]; tensor [2; 4]] [2; 3]
                [[2; 4]] 0) as [_ H].
    + by repeat constructor.
    + closed_arith.
    + assert (Hne : [[2; 4]] ≠ ([] : list (list Z))) by done.
      assert (Hd : - (vsize [2; 3] + 1) <= 0 < vsize [2; 3] + 1)
        by closed_arith.
      pose proof (H Hne Hd) as H'. cbv zeta in H'.
      destruct H' as (_ & _ & H2). apply H2. by apply Exists_cons_hd.
Defined.

(** ** Lists: [listConstruct] and [listUnpack] *)

(** The loop of [listConstruct] over integer records. *)
Lemma listConstruct_ints (metas : MetaStack) (vs acc : list Z) :
  Forall2 (fun m v => intValue m = [v]) metas vs ->
  forM (fun ele vals =>
          _ ← RETURN_ERR_IF_NOT (vsize (intValue ele) =? 1)
                "Expected int type input in listConstruct.";
          x ← vec_at (intValue ele) 0;
          Ok (vals ++ [x])) metas acc
  = Ok (acc ++ vs).
Proof.
  intros HF. revert acc. induction HF as [|m v ms vs Hm _ IH]; intros acc.
  - by rewrite app_nil_r.
  - cbn [forM]. rewrite Hm. change (vsize [v] =? 1) with true.
    cbn [RETURN_ERR_IF_NOT mbind Expected_bind].
    rewrite (vec_at_ok [v] 0 v) by vec_index. cbn [mbind Expected_bind].
    rewrite IH. by rewrite <- app_assoc.
Qed.

Lemma listConstruct_not_int (metas : MetaStack) (acc : list Z) :
  Exists (fun m => length (intValue m) ≠ 1%nat) metas ->
  forM (fun ele vals =>
          _ ← RETURN_ERR_IF_NOT (vsize (intValue ele) =? 1)
                "Expected int type input in listConstruct.";
          x ← vec_at (intValue ele) 0;
          Ok (vals ++ [x])) metas acc
  = Err "Expected int type input in listConstruct.".
Proof.
  revert acc. induction metas as [|m ms IH]; intros acc Hex.
  - by apply Exists_nil in Hex.
  - cbn [forM]. destruct (Z.eqb_spec (vsize (intValue m)) 1) as [E|E];
      cbn [RETURN_ERR_IF_NOT mbind Expected_bind]; [|done].
    apply Exists_cons in Hex as [Hm|Hex]; [unfold vsize in E; lia|].
    destruct (intValue m) as [|x [|]] eqn:Ei; try (unfold vsize in E; cbn in E; lia).
    rewrite (vec_at_ok [x] 0 x) by vec_index. cbn [mbind Expected_bind].
    by apply IH.
Qed.

(** The loop of [listConstruct] over tensor records, from index [k] on. *)
Lemma listConstruct_tensors (metas : MetaStack) (shapes : list (list Z))
    (m k : nat) :
  Forall2 (fun m s => shapeT m = Ok s) metas shapes ->
  (k + m = length metas)%nat ->
  forM (fun i listValueOrShape =>
          mi ← vec_at metas i;
          s ← shapeT mi;
          vec_set listValueOrShape i s)
    (Z.of_nat <$> seq k m) (take k shapes ++ replicate m [])
  = Ok shapes.
Proof.
  intros HF. pose proof (Forall2_length _ _ _ HF) as Hlen.
  unfold TensorShape in *.
  revert k. induction m as [|m IH]; intros k Hk.
  - cbn. by rewrite app_nil_r, take_ge by lia.
  - rewrite upto_from. cbn [forM].
    destruct (lookup_lt_is_Some_2 metas k) as [mi Hmi]; [lia|].
    destruct (Forall2_lookup_l _ _ _ _ _ HF Hmi) as (s & Hs & Hshape).
    rewrite (vec_at_nat metas k mi Hmi). cbn [mbind Expected_bind].
    rewrite Hshape. cbn [mbind Expected_bind].
    assert (Htk : length (take k shapes) = k) by (rewrite length_take; lia).
    rewrite vec_set_ok
      by (unfold vsize; rewrite length_app, Htk, length_replicate; lia).
    rewrite Nat2Z.id.
    replace (<[k := s]> (take k shapes ++ replicate (S m) []))
      with (take (S k) shapes ++ replicate m ([] : list Z)).
    + apply IH. lia.
    + rewrite (take_S_r _ _ _ Hs), <- app_assoc.
      rewrite insert_app_r_alt by lia.
      by replace (k - length (take k shapes))%nat with 0%nat by lia.
Qed.

(** [listConstruct] up to the test of the first record. *)
Lemma listConstruct_unfold (m0 : VariableMeta) (ms : MetaStack) :
  listConstruct (m0 :: ms) =
  (if vsize (intValue m0) =? 1 then
     vals ← forM (fun ele vals =>
                _ ← RETURN_ERR_IF_NOT (vsize (intValue ele) =? 1)
                      "Expected int type input in listConstruct.";
                x ← vec_at (intValue ele) 0;
                Ok (vals ++ [x]))
              (m0 :: ms) [];
     Ok [vals]
   else
     forM (fun i listValueOrShape =>
         mi ← vec_at (m0 :: ms) i;
         s ← shapeT mi;
         vec_set listValueOrShape i s)
       (upto (vsize (m0 :: ms)))
       (replicate (length (m0 :: ms)) [])).
Proof.
  unfold listConstruct.
  replace (1 <=? vsize (m0 :: ms)) with true
    by (symmetry; apply Z.leb_le; unfold vsize; cbn [length]; lia).
  cbn [RETURN_ERR_IF_NOT mbind Expected_bind].
  by rewrite (vec_at_ok (m0 :: ms) 0 m0) by vec_index.
Qed.

Lemma listConstruct_shapes (metas : MetaStack) (m0 : VariableMeta)
    (shapes : list (list Z)) :
  head metas = Some m0 -> length (intValue m0) ≠ 1%nat ->
  Forall2 (fun m s => shapeT m = Ok s) metas shapes ->
  listConstruct metas = Ok shapes.
Proof.
  intros Hhead Hmany HF. destruct metas as [|m ms]; [done|].
  injection Hhead as ->. rewrite listConstruct_unfold.
  replace (vsize (intValue m0) =? 1) with false
    by (symmetry; apply Z.eqb_neq; unfold vsize; lia).
  rewrite upto_seq.
  replace (Z.to_nat (vsize (m0 :: ms))) with (length (m0 :: ms))
    by (unfold vsize; lia).
  apply (listConstruct_tensors (m0 :: ms) shapes (length (m0 :: ms)) 0 HF).
  lia.
Qed.

(** X18.  [listConstruct] decides by the first record: when it carries one
    integer, every record must carry one integer and the result is the one
    list of these integers; otherwise the result is the list of the shapes
    of the records, in order. *)
Theorem listConstruct_result (metas : MetaStack) (m0 : VariableMeta) :
  head metas = Some m0 ->
  (length (intValue m0) = 1%nat ->
   (∀ vs, Forall2 (fun m v => intValue m = [v]) metas vs ->
          listConstruct metas = Ok [vs]) ∧
   (Exists (fun m => length (intValue m) ≠ 1%nat) metas ->
    listConstruct metas = Err "Expected int type input in listConstruct.")) ∧
  (length (intValue m0) ≠ 1%nat ->
   ∀ shapes, Forall2 (fun m s => shapeT m = Ok s) metas shapes ->
             listConstruct metas = Ok shapes).
Proof.
  intros Hhead. split.
  - intros Hone. destruct metas as [|m ms]; [done|]. injection Hhead as ->.
    rewrite listConstruct_unfold.
    replace (vsize (intValue m0) =? 1) with true
      by (symmetry; apply Z.eqb_eq; unfold vsize; lia).
    split.
    + intros vs HF. by rewrite (listConstruct_ints _ vs []).
    + intros Hex. by rewrite listConstruct_not_int.
  - intros Hmany shapes HF. by apply (listConstruct_shapes metas m0).
Qed.

Lemma listConstruct_result_witness :
  listConstruct [scalar 4; scalar 5] = Ok [[4; 5]] ∧
  listConstruct [scalar 4; tensor [2; 3]]
  = Err "Expected int type input in listConstruct." ∧
  listConstruct [tensor [2; 3]; scalar 4] = Ok [[2; 3]; [1]].
Proof.
  split; [|split].
  - destruct (listConstruct_result [scalar 4; scalar 5] (scalar 4) eq_refl)
      as [H _].
    destruct (H eq_refl) as [H1 _]. apply H1. by repeat constructor.
  - destruct (listConstruct_result [scalar 4; tensor [2; 3]] (scalar 4) eq_refl)
      as [H _].
    destruct (H eq_refl) as [_ H2]. apply H2.
    apply Exists_cons_tl, Exists_cons_hd. cbn. lia.
  - destruct (listConstruct_result [tensor [2; 3]; scalar 4] (tensor [2; 3])
                eq_refl) as [_ H].
    apply H; [cbn; lia|]. by repeat constructor.
Defined.

(** [listUnpack] returns the shapes of a list record, in order. *)
Lemma listUnpack_ok (L : VariableMeta) (l : list (list Z)) :
  shapeL L = Ok l -> listUnpack [L] = Ok l.
Proof.
  intros HL. unfold listUnpack. change (vsize [L] =? 1) with true.
  cbn [RETURN_ERR_IF_NOT mbind Expected_bind].
  rewrite (vec_at_ok [L] 0 L) by vec_index. cbn [mbind Expected_bind].
  rewrite HL. cbn [mbind Expected_bind]. unfold TensorShape in *.
  rewrite upto_seq.
  replace (Z.to_nat (vsize l)) with (length l) by (unfold vsize; lia).
  transitivity (forM (fun ti shapes => Ok (shapes ++ [ti]))
                  (take (length l) (drop 0 l)) []).
  { refine (forM_index l _ (length l) 0 [] _). lia. }
  by rewrite drop_0, firstn_all, forM_push.
Qed.

(** ** The dispatcher: storing results *)

Lemma entry_insert_eq (m : ShapeMap) (v : Value) (r : VariableMeta) :
  entry (<[v := r]> m) v = r.
Proof. unfold entry. by rewrite lookup_insert_eq. Qed.

Lemma entry_insert_ne (m : ShapeMap) (v u : Value) (r : VariableMeta) :
  v ≠ u -> entry (<[v := r]> m) u = entry m u.
Proof. intros H. unfold entry. by rewrite lookup_insert_ne. Qed.

Lemma vec_at_elem_of {A} (v : list A) (i : Z) (x : A) :
  vec_at v i = Ok x -> x ∈ v.
Proof.
  unfold vec_at. destruct (in_range v i); [|done].
  destruct (v !! Z.to_nat i) as [y|] eqn:E; [|done].
  intros [= ->]. by eapply list_elem_of_lookup_2.
Qed.

Lemma n_output_elem_of (node : Node) (out : Value) :
  n_output node = Ok out -> n_outputs node = [out].
Proof.
  unfold n_output. destruct (n_outputs node) as [|v [|]]; try done.
  by intros [= ->].
Qed.

Lemma extends_refl (outs : list Value) (m : ShapeMap) : extends outs m m.
Proof. split; [done|]. intros v. done. Qed.

Lemma extends_trans (outs : list Value) (m1 m2 m3 : ShapeMap) :
  extends outs m1 m2 -> extends outs m2 m3 -> extends outs m1 m3.
Proof.
  intros [H1 P1] [H2 P2]. split.
  - intros v Hv. by rewrite H2, H1.
  - intros v. etransitivity; [apply P1|apply P2].
Qed.

Lemma extends_emplace (outs : list Value) (m : ShapeMap) (out : Value)
    (e : ElemShape) :
  out ∈ outs -> extends outs m (emplace_shape m out e).
Proof.
  intros Hout. unfold emplace_shape. split.
  - intros v Hv. rewrite lookup_insert_ne; [done|]. by intros ->.
  - intros v. destruct (decide (out = v)) as [->|Hne].
    + rewrite entry_insert_eq. cbn [listOfShape]. by apply prefix_app_r.
    + by rewrite entry_insert_ne.
Qed.

Lemma extends_set_intValue (outs : list Value) (m : ShapeMap) (out : Value)
    (l : list Z) :
  out ∈ outs -> extends outs m (set_intValue m out l).
Proof.
  intros Hout. unfold set_intValue. split.
  - intros v Hv. rewrite lookup_insert_ne; [done|]. by intros ->.
  - intros v. destruct (decide (out = v)) as [->|Hne].
    + by rewrite entry_insert_eq.
    + by rewrite entry_insert_ne.
Qed.

(** The loop that stores the results position by position. *)
Lemma package_loop (outs : list Value) (shapes : list (list Z)) (n k : nat)
    (m : ShapeMap) :
  (k + n <= length outs)%nat -> (k + n <= length shapes)%nat ->
  forM (fun i shapeMap_ =>
          out ← vec_at outs i;
          s ← vec_at shapes i;
          Ok (emplace_shape shapeMap_ out (ETensor s)))
    (Z.of_nat <$> seq k n) m
  = Ok (store_outputs (take n (drop k outs)) (take n (drop k shapes)) m).
Proof.
  revert k m. induction n as [|n IH]; intros k m Ho Hs; [done|].
  destruct (lookup_lt_is_Some_2 outs k) as [o Hok]; [lia|].
  destruct (lookup_lt_is_Some_2 shapes k) as [s Hsk]; [lia|].
  rewrite upto_from. cbn [forM].
  rewrite (vec_at_nat outs k o Hok), (vec_at_nat shapes k s Hsk).
  cbn [mbind Expected_bind]. rewrite IH by lia.
  by rewrite (drop_lookup_S _ _ _ Hok), (drop_lookup_S _ _ _ Hsk).
Qed.

Lemma package_loop_extends (outs : list Value) (shapes : list (list Z))
    (l : list Z) (m m' : ShapeMap) :
  forM (fun i shapeMap_ =>
          out ← vec_at outs i;
          s ← vec_at shapes i;
          Ok (emplace_shape shapeMap_ out (ETensor s))) l m = Ok m' ->
  extends outs m m'.
Proof.
  revert m. induction l as [|i l IH]; intros m H.
  - injection H as ->. apply extends_refl.
  - cbn [forM] in H.
    destruct (vec_at outs i) as [o| |] eqn:Eo; [|done..].
    destruct (vec_at shapes i) as [s| |] eqn:Es; [|done..].
    cbn [mbind Expected_bind] in H.
    eapply extends_trans; [|by apply IH].
    apply extends_emplace. by eapply vec_at_elem_of.
Qed.

Ltac not_apart H :=
  unfold packaged_apart in H;
  repeat (apply not_elem_of_cons in H as [? H]);
  repeat match goal with
  | Hk : ?k ≠ ?s |- context [String.eqb ?k ?s] =>
    rewrite (proj2 (String.eqb_neq k s) Hk)
  end.

(** X19.  For an operator that is not stored in a way of its own,
    [package] stores the shapes for the outputs position by position: it
    drops the shapes behind the last output, and reads out of range when
    there are fewer shapes than outputs. *)
Theorem package_positional (node : Node) (shapes : list (list Z))
    (m : ShapeMap) :
  n_kind node ∉ packaged_apart ->
  ((length (n_outputs node) <= length shapes)%nat ->
   package node shapes m
   = Ok (store_outputs (n_outputs node) (take (length (n_outputs node)) shapes) m)) ∧
  ((length shapes < length (n_outputs node))%nat ->
   package node shapes m = Crash OutOfRange).
Proof.
  intros Hk. unfold package. cbv zeta beta. not_apart Hk.
  rewrite upto_seq.
  replace (Z.to_nat (vsize (n_outputs node))) with (length (n_outputs node))
    by (unfold vsize; lia).
  split; intros Hlen.
  - rewrite package_loop by lia. by rewrite drop_0, firstn_all.
  - replace (length (n_outputs node))
      with (length shapes + S (length (n_outputs node) - S (length shapes)))%nat
      by lia.
    rewrite seq_app, fmap_app, forM_app.
    rewrite package_loop by lia. cbn [mbind Expected_bind].
    rewrite upto_from. cbn [forM].
    destruct (lookup_lt_is_Some_2 (n_outputs node) (0 + length shapes))
      as [o Ho]; [lia|].
    rewrite (vec_at_nat _ _ _ Ho). cbn [mbind Expected_bind].
    rewrite (vec_at_out shapes) by (unfold vsize; lia). done.
Qed.

Lemma package_positional_witness :
  package (mkNode "aten::relu" [1%nat] [5%nat] TensorType ∅ None)
    [[2; 3]; [4]] ∅
  = Ok (store_outputs [5%nat] [[2; 3]] ∅) ∧
  package (mkNode "aten::relu" [1%nat] [5%nat; 6%nat] TensorType ∅ None)
    [[2; 3]] ∅
  = Crash OutOfRange.
Proof.
  assert (Hk : "aten::relu" ∉ packaged_apart).
  { unfold packaged_apart. intros H.
    repeat (apply elem_of_cons in H as [H|H]; [discriminate|]).
    by apply elem_of_nil in H. }
  split.
  - destruct (package_positional
                (mkNode "aten::relu" [1%nat] [5%nat] TensorType ∅ None)
                [[2; 3]; [4]] ∅ Hk) as [H _].
    apply H. cbn. lia.
  - destruct (package_positional
                (mkNode "aten::relu" [1%nat] [5%nat; 6%nat] TensorType ∅ None)
                [[2; 3]] ∅ Hk) as [_ H].
    apply H. cbn. lia.
Defined.

Lemma package_extends (node : Node) (shapes : list (list Z))
    (m m' : ShapeMap) :
  package node shapes m = Ok m' -> extends (n_outputs node) m m'.
Proof.
  unfold package. cbv zeta beta. unfold TensorShape.
  destruct (String.eqb (n_kind node) "prim::Constant").
  { destruct (n_output node) as [out| |] eqn:Eo; [|done..].
    apply n_output_elem_of in Eo. cbn [mbind Expected_bind].
    assert (Hin : out ∈ n_outputs node) by (rewrite Eo; apply list_elem_of_here).
    destruct (vec_at shapes 0) as [s| |]; cbn [mbind Expected_bind];
      destruct (bool_decide (n_type node = TensorType));
      cbn [mbind Expected_bind]; try done; intros [= <-].
    - by apply extends_emplace.
    - eapply extends_trans; [by apply extends_emplace|].
      by apply extends_set_intValue. }
  destruct (String.eqb (n_kind node) "prim::ListConstruct").
  { destruct (n_output node) as [out| |] eqn:Eo; [|done..].
    apply n_output_elem_of in Eo. cbn [mbind Expected_bind].
    assert (Hin : out ∈ n_outputs node) by (rewrite Eo; apply list_elem_of_here).
    destruct (tensorElem (n_type node)) as [[|]| |];
      cbn [mbind Expected_bind]; try done.
    - intros [= <-]. by apply extends_emplace.
    - destruct (vec_at shapes 0) as [s| |]; cbn [mbind Expected_bind];
        try done. intros [= <-].
      eapply extends_trans; [by apply extends_emplace|].
      by apply extends_set_intValue. }
  destruct (String.eqb (n_kind node) "aten::embedding_bag").
  { destruct (vec_at (n_outputs node) 0) as [out| |] eqn:Eo; [|done..].
    apply vec_at_elem_of in Eo. cbn [mbind Expected_bind].
    destruct (vec_at shapes 0) as [s| |]; cbn [mbind Expected_bind];
      try done. intros [= <-]. by apply extends_emplace. }
  destruct (String.eqb (n_kind node) "aten::chunk").
  { destruct (n_output node) as [out| |] eqn:Eo; [|done..].
    apply n_output_elem_of in Eo. cbn [mbind Expected_bind].
    intros [= <-]. apply extends_emplace. rewrite Eo. apply list_elem_of_here. }
  apply package_loop_extends.
Qed.

(** X20.  A visit of a node without a subgraph that succeeds leaves the
    entries of all values but the outputs of the node as they were, and
    only adds to shape lists: a value that had a shape before the visit
    shows the same first shape after it. *)
Theorem shapeOnNode_extends (hasEndOffset_ : bool) (node : Node)
    (m m' : ShapeMap) :
  shapeOnNode hasEndOffset_ node m = Ok m' ->
  extends (n_outputs node) m m' ∧
  (∀ v, listOfShape (entry m v) ≠ [] ->
        shapeT (entry m' v) = shapeT (entry m v) ∧
        shapeL (entry m' v) = shapeL (entry m v)).
Proof.
  intros H. assert (Hext : extends (n_outputs node) m m').
  { unfold shapeOnNode in H.
    destruct (getNodeInputShape node m) as [metas| |]; [|done..].
    cbn [mbind Expected_bind] in H.
    destruct (dispatch hasEndOffset_ node metas) as [shapes| |]; [|done..].
    by apply package_extends in H. }
  split; [exact Hext|]. intros v Hv.
  destruct Hext as [_ Hpre]. destruct (Hpre v) as [k Hk].
  unfold shapeT, shapeL. rewrite Hk.
  destruct (listOfShape (entry m v)); done.
Qed.

Lemma shapeOnNode_extends_witness :
  extends (n_outputs (mkNode "aten::relu" [1%nat] [1%nat] TensorType ∅ None))
    {[ 1%nat := tensor [2; 3] ]}
    (emplace_shape {[ 1%nat := tensor [2; 3] ]} 1%nat (ETensor [2; 3])) ∧
  (∀ v, listOfShape (entry {[ 1%nat := tensor [2; 3] ]} v) ≠ [] ->
        shapeT (entry (emplace_shape {[ 1%nat := tensor [2; 3] ]} 1%nat
                         (ETensor [2; 3])) v)
        = shapeT (entry {[ 1%nat := tensor [2; 3] ]} v) ∧
        shapeL (entry (emplace_shape {[ 1%nat := tensor [2; 3] ]} 1%nat
                         (ETensor [2; 3])) v)
        = shapeL (entry {[ 1%nat := tensor [2; 3] ]} v)).
Proof.
  apply (shapeOnNode_extends true
           (mkNode "aten::relu" [1%nat] [1%nat] TensorType ∅ None)).
  vm_compute. reflexivity.
Defined.

(** ** Visits of single nodes *)

(** Decide the comparisons of two literal types. *)
Ltac decide_types :=
  repeat match goal with
  | |- context [bool_decide (?a = ?b)] =>
    let r := eval vm_compute in (bool_decide (a = b)) in
    change (bool_decide (a = b)) with r
  end.

Lemma getNodeInputShape_missing (shapeMap_ : ShapeMap) (l : list Value)
    (acc : MetaStack) :
  Exists (fun v => shapeMap_ !! v = None) l ->
  forM (fun input inputMetas =>
          _ ← CHECK (bool_decide (is_Some (shapeMap_ !! input)));
          Ok (inputMetas ++ [entry shapeMap_ input])) l acc
  = Crash CheckFailed.
Proof.
  revert acc. induction l as [|v l IH]; intros acc Hex.
  - by apply Exists_nil in Hex.
  - cbn [forM]. destruct (shapeMap_ !! v) as [r|] eqn:E.
    + rewrite bool_decide_eq_true_2 by done. cbn [CHECK mbind Expected_bind].
      apply IH. apply Exists_cons in Hex as [Hv|Hex]; [congruence|done].
    + rewrite bool_decide_eq_false_2 by (by intros [? ?]). done.
Qed.

(** X21.  A node one of whose inputs has no entry in the map stops the
    visit on the check of the inputs, whatever its operator; with all
    inputs recorded, an operator outside the catalog is answered with the
    failure that names it. *)
Theorem shapeOnNode_rejects (hasEndOffset_ : bool) (node : Node)
    (m : ShapeMap) :
  (Exists (fun v => m !! v = None) (n_inputs node) ->
   shapeOnNode hasEndOffset_ node m = Crash CheckFailed) ∧
  (Forall (fun v => is_Some (m !! v)) (n_inputs node) ->
   n_kind node ∉ catalog ->
   shapeOnNode hasEndOffset_ node m
   = Err ("Node's operator " +:+ n_kind node +:+ " is not supported")).
Proof.
  split.
  - intros Hex. unfold shapeOnNode, getNodeInputShape.
    by rewrite getNodeInputShape_missing.
  - intros Hin Hk. unfold shapeOnNode.
    rewrite getNodeInputShape_ok by (by apply Forall_forall).
    cbn [mbind Expected_bind]. unfold dispatch. cbv zeta beta.
    unfold catalog in Hk. repeat (apply not_elem_of_cons in Hk as [? Hk]).
    repeat match goal with
    | Hne : n_kind node ≠ ?s |- context [String.eqb (n_kind node) ?s] =>
      rewrite (proj2 (String.eqb_neq (n_kind node) s) Hne)
    end.
    done.
Qed.

Lemma shapeOnNode_rejects_witness :
  shapeOnNode true (mkNode "aten::softmax" [9%nat] [2%nat] TensorType ∅ None)
    {[ 1%nat := tensor [2; 3] ]} = Crash CheckFailed ∧
  shapeOnNode true (mkNode "aten::softmax" [1%nat] [2%nat] TensorType ∅ None)
    {[ 1%nat := tensor [2; 3] ]}
  = Err ("Node's operator " +:+ "aten::softmax" +:+ " is not supported").
Proof.
  split.
  - destruct (shapeOnNode_rejects true
                (mkNode "aten::softmax" [9%nat] [2%nat] TensorType ∅ None)
                {[ 1%nat := tensor [2; 3] ]}) as [H _].
    apply H. apply Exists_cons_hd. reflexivity.
  - destruct (shapeOnNode_rejects true
                (mkNode "aten::softmax" [1%nat] [2%nat] TensorType ∅ None)
                {[ 1%nat := tensor [2; 3] ]}) as [_ H].
    apply H.
    + constructor; [by eexists|constructor].
    + unfold catalog. cbn [n_kind]. intros Hin.
      repeat (apply elem_of_cons in Hin as [Hin|Hin]; [discriminate|]).
      by apply elem_of_nil in Hin.
Defined.

(** X22.  What the visit of a constant whose output is new to the map
    records, by declared type: for an integer or a boolean the shape [[1]]
    with the value as payload; for a float the shape [[1]] with payload
    [[1]], the value being dropped; for None the shape [[1]] without
    payload; for a tensor its dimensions.  A constant that needs its value
    and has none stops the visit. *)
Theorem constant_records (hasEndOffset_ : bool) (node : Node) (out : Value)
    (m : ShapeMap) :
  n_kind node = "prim::Constant" -> n_outputs node = [out] ->
  Forall (fun v => is_Some (m !! v)) (n_inputs node) ->
  m !! out = None ->
  (n_type node = FloatType ->
   shapeOnNode hasEndOffset_ node m
   = Ok (<[out := mkMeta [ETensor [1]] [1] Float]> m)) ∧
  (∀ v, n_type node = IntType ∨ n_type node = BoolType ->
        n_attrs node !! "value" = Some (AInt v) ->
        shapeOnNode hasEndOffset_ node m = Ok (<[out := scalar v]> m)) ∧
  (n_type node = NoneType ->
   shapeOnNode hasEndOffset_ node m
   = Ok (<[out := mkMeta [ETensor [1]] [] Float]> m)) ∧
  (∀ sizes, n_type node = TensorType ->
            n_attrs node !! "value" = Some (ATensor sizes) ->
            shapeOnNode hasEndOffset_ node m = Ok (<[out := tensor sizes]> m)) ∧
  (n_type node ∈ [IntType; BoolType; TensorType] ->
   n_attrs node !! "value" = None ->
   shapeOnNode hasEndOffset_ node m = Crash TorchError).
Proof.
  intros Hk Hout Hin Hnew.
  assert (Hvisit : shapeOnNode hasEndOffset_ node m =
    (shapes ← single (primConstant node); package node shapes m)).
  { unfold shapeOnNode.
    rewrite getNodeInputShape_ok by (by apply Forall_forall).
    cbn [mbind Expected_bind]. unfold dispatch. rewrite Hk.
    cbv beta zeta. by decide_kinds. }
  assert (Hpack : ∀ s, package node [s] m =
    Ok (if bool_decide (n_type node = TensorType)
        then <[out := tensor s]> m
        else <[out := mkMeta [ETensor [1]] s Float]> m)).
  { intros s. unfold package. rewrite Hk. cbv beta zeta. decide_kinds.
    unfold n_output. rewrite Hout. cbn [mbind Expected_bind].
    change (vec_at [s] 0) with (Ok s).
    cbn [mbind Expected_bind]. unfold set_intValue, emplace_shape.
    rewrite entry_insert_eq. unfold entry. rewrite Hnew.
    cbn [default emptyMeta listOfShape intValue dtype app].
    destruct (bool_decide (n_type node = TensorType)); [done|].
    by rewrite insert_insert_eq. }
  rewrite Hvisit. unfold primConstant, n_output, n_i, n_t_sizes.
  rewrite Hout. cbn [mbind Expected_bind].
  repeat split.
  - intros Ht. rewrite Ht in *. decide_types.
    cbn [single mbind Expected_bind]. rewrite Hpack. by decide_types.
  - intros v [Ht | Ht] ->; rewrite Ht in *; decide_types;
      cbn [single mbind Expected_bind]; rewrite Hpack; by decide_types.
  - intros Ht. rewrite Ht in *. decide_types.
    cbn [single mbind Expected_bind]. rewrite Hpack. by decide_types.
  - intros sizes Ht ->. rewrite Ht in *. decide_types.
    cbn [single mbind Expected_bind]. rewrite Hpack. by decide_types.
  - intros Hty ->.
    repeat (apply elem_of_cons in Hty as [Ht | Hty];
            [rewrite Ht; by decide_types|]).
    by apply elem_of_nil in Hty.
Qed.

Lemma constant_records_witness :
  shapeOnNode true (mkNode "prim::Constant" [] [7%nat] FloatType ∅ None) ∅
  = Ok (<[7%nat := mkMeta [ETensor [1]] [1] Float]> ∅) ∧
  shapeOnNode true (mkNode "prim::Constant" [] [7%nat] IntType
                      {[ "value" := AInt 5 ]} None) ∅
  = Ok (<[7%nat := scalar 5]> ∅) ∧
  shapeOnNode true (mkNode "prim::Constant" [] [7%nat] NoneType ∅ None) ∅
  = Ok (<[7%nat := mkMeta [ETensor [1]] [] Float]> ∅) ∧
  shapeOnNode true (mkNode "prim::Constant" [] [7%nat] TensorType
                      {[ "value" := ATensor [2; 3] ]} None) ∅
  = Ok (<[7%nat := tensor [2; 3]]> ∅) ∧
  shapeOnNode true (mkNode "prim::Constant" [] [7%nat] BoolType ∅ None) ∅
  = Crash TorchError.
Proof.
  split; [|split; [|split; [|split]]].
  - destruct (constant_records true
                (mkNode "prim::Constant" [] [7%nat] FloatType ∅ None) 7%nat ∅
                eq_refl eq_refl (Forall_nil_2 _) (lookup_empty _)) as (H & _).
    by apply H.
  - destruct (constant_records true
                (mkNode "prim::Constant" [] [7%nat] IntType
                   {[ "value" := AInt 5 ]} None) 7%nat ∅
                eq_refl eq_refl (Forall_nil_2 _) (lookup_empty _)) as (_ & H & _).
    apply H; [by left|reflexivity].
  - destruct (constant_records true
                (mkNode "prim::Constant" [] [7%nat] NoneType ∅ None) 7%nat ∅
                eq_refl eq_refl (Forall_nil_2 _) (lookup_empty _)) as (_ & _ & H & _).
    by apply H.
  - destruct (constant_records true
                (mkNode "prim::Constant" [] [7%nat] TensorType
                   {[ "value" := ATensor [2; 3] ]} None) 7%nat ∅
                eq_refl eq_refl (Forall_nil_2 _) (lookup_empty _)) as (_ & _ & _ & H & _).
    apply H; reflexivity.
  - destruct (constant_records true
                (mkNode "prim::Constant" [] [7%nat] BoolType ∅ None) 7%nat ∅
                eq_refl eq_refl (Forall_nil_2 _) (lookup_empty _)) as (_ & _ & _ & _ & H).
    apply H; [|reflexivity]. cbn [n_type].
    apply list_elem_of_further, list_elem_of_here.
Defined.

(** X23.  A list built from tensors by [prim::ListConstruct] and taken
    apart by [prim::ListUnpack] gives the outputs of the second node the
    shapes of the inputs of the first, position by position. *)
Theorem list_round_trip (hasEndOffset_ : bool) (c u : Node) (l : Value)
    (m : ShapeMap) (shapes : list (list Z)) :
  n_kind c = "prim::ListConstruct" -> n_outputs c = [l] ->
  n_type c = ListType TensorType ->
  n_kind u = "prim::ListUnpack" -> n_inputs u = [l] ->
  Forall2 (fun v s => ∃ r, m !! v = Some r ∧ shapeT r = Ok s)
    (n_inputs c) shapes ->
  (∀ v r, head (n_inputs c) = Some v -> m !! v = Some r ->
          length (intValue r) ≠ 1%nat) ->
  n_inputs c ≠ [] -> m !! l = None ->
  length (n_outputs u) = length shapes ->
  ∃ m1, shapeOnNode hasEndOffset_ c m = Ok m1 ∧
        m1 !! l = Some (mkMeta [EList shapes] [] Float) ∧
        shapeOnNode hasEndOffset_ u m1
        = Ok (store_outputs (n_outputs u) shapes m1).
Proof.
  intros Hkc Hoc Htc Hku Hiu HF Hhead Hne Hnew Hlen.
  exists (<[l := mkMeta [EList shapes] [] Float]> m).
  assert (Hres : ∀ v, v ∈ n_inputs c -> is_Some (m !! v)).
  { intros v Hv. apply list_elem_of_lookup in Hv as [i Hi].
    destruct (Forall2_lookup_l _ _ _ _ _ HF Hi) as (s & _ & r & Hr & _).
    by rewrite Hr. }
  assert (Hmetas : Forall2 (fun r s => shapeT r = Ok s)
                     (entry m <$> n_inputs c) shapes).
  { apply Forall2_fmap_l. eapply Forall2_impl; [exact HF|].
    intros v s (r & Hr & Hs). unfold compose, entry. by rewrite Hr. }
  split; [|split].
  - unfold shapeOnNode. rewrite getNodeInputShape_ok by done.
    cbn [mbind Expected_bind]. unfold dispatch. rewrite Hkc.
    cbv beta zeta. decide_kinds.
    destruct (n_inputs c) as [|v0 vs] eqn:Ein; [done|].
    destruct (Hres v0) as [r0 Hr0]; [apply list_elem_of_here|].
    rewrite (listConstruct_shapes _ (entry m v0) shapes); [|done| |done].
    + cbn [mbind Expected_bind]. unfold package. rewrite Hkc.
      cbv beta zeta. decide_kinds. unfold n_output. rewrite Hoc, Htc.
      cbn [mbind Expected_bind tensorElem]. unfold emplace_shape, entry.
      by rewrite Hnew.
    + unfold entry. rewrite Hr0. by apply (Hhead v0 r0).
  - by rewrite lookup_insert_eq.
  - unfold shapeOnNode. rewrite getNodeInputShape_ok.
    2:{ intros v. rewrite Hiu. intros ->%list_elem_of_singleton.
        by rewrite lookup_insert_eq. }
    cbn [mbind Expected_bind]. unfold dispatch. rewrite Hku.
    cbv beta zeta. decide_kinds. rewrite Hiu. cbn [fmap list_fmap].
    rewrite entry_insert_eq.
    rewrite (listUnpack_ok _ shapes) by done.
    cbn [mbind Expected_bind]. unfold package. rewrite Hku.
    cbv beta zeta. decide_kinds. rewrite upto_seq.
    replace (Z.to_nat (vsize (n_outputs u))) with (length (n_outputs u))
      by (unfold vsize; lia).
    rewrite package_loop by lia.
    by rewrite drop_0, firstn_all, Hlen, firstn_all.
Qed.

Lemma list_round_trip_witness :
  ∃ m1, shapeOnNode true
          (mkNode "prim::ListConstruct" [1%nat; 2%nat] [3%nat]
             (ListType TensorType) ∅ None)
          {[ 1%nat := tensor [2; 3]; 2%nat := tensor [4] ]} = Ok m1 ∧
        m1 !! 3%nat = Some (mkMeta [EList [[2; 3]; [4]]] [] Float) ∧
        shapeOnNode true
          (mkNode "prim::ListUnpack" [3%nat] [4%nat; 5%nat] TensorType ∅ None)
          m1
        = Ok (store_outputs
                (n_outputs (mkNode "prim::ListUnpack" [3%nat] [4%nat; 5%nat]
                              TensorType ∅ None))
                [[2; 3]; [4]] m1).
Proof.
  apply (list_round_trip true
           (mkNode "prim::ListConstruct" [1%nat; 2%nat] [3%nat]
              (ListType TensorType) ∅ None)
           (mkNode "prim::ListUnpack" [3%nat] [4%nat; 5%nat] TensorType ∅ None)
           3%nat {[ 1%nat := tensor [2; 3]; 2%nat := tensor [4] ]}
           [[2; 3]; [4]]).
  - reflexivity.
  - reflexivity.
  - reflexivity.
  - reflexivity.
  - reflexivity.
  - cbn [n_inputs]. constructor; [by exists (tensor [2; 3])|].
    constructor; [by exists (tensor [4])|]. constructor.
  - cbn [n_inputs head]. intros v r [= <-]. vm_compute. intros [= <-]. cbn. lia.
  - done.
  - reflexivity.
  - reflexivity.
Defined.

(** ** [run] and the walk *)

(** X24.  After a walk that succeeds, [run] adds the records of the graph
    outputs, in order, behind the output records that the engine held
    before, and keeps the map of the walk; a graph output without an entry
    in that map stops [run] on the check. *)
Theorem run_outputs (e : ShapeInferenceEngine) (m : ShapeMap) :
  vsize (inputs_ e) = vsize (g_inputs (graph_ e)) ->
  runRecursively (fusionNodeSymbol_ e) (hasEndOffset_ e) (graph_ e) (inputs_ e)
    (shapeMap_ e) = Ok m ->
  (Forall (fun v => is_Some (m !! v)) (g_outputs (graph_ e)) ->
   run e = Ok (mkEngine (graph_ e) (inputs_ e) (fusionNodeSymbol_ e)
                 (hasEndOffset_ e) m
                 (outputShape_ e ++ (entry m <$> g_outputs (graph_ e))))) ∧
  (Exists (fun v => m !! v = None) (g_outputs (graph_ e)) ->
   run e = Crash CheckFailed).
Proof.
  intros Hlen Hwalk.
  assert (Hrun : run e =
    (out ← generateGraphOutputShape (g_outputs (graph_ e)) m (outputShape_ e);
     Ok (mkEngine (graph_ e) (inputs_ e) (fusionNodeSymbol_ e)
           (hasEndOffset_ e) m out))).
  { unfold run. rewrite Hlen, Z.eqb_refl.
    cbn [RETURN_ERR_IF_NOT mbind Expected_bind]. by rewrite Hwalk. }
  rewrite Hrun. unfold generateGraphOutputShape. split.
  - intros Hall. rewrite getNodeInputShape_loop by (by apply Forall_forall).
    done.
  - intros Hex. by rewrite getNodeInputShape_missing.
Qed.

Lemma run_outputs_witness :
  run (mkEngine (mkGraph [1%nat] [] [1%nat; 1%nat]) [IInt 3]
         "glow::FusionGroup" true ∅ [tensor [9]])
  = Ok (mkEngine (mkGraph [1%nat] [] [1%nat; 1%nat]) [IInt 3]
          "glow::FusionGroup" true {[ 1%nat := scalar 3 ]}
          [tensor [9]; scalar 3; scalar 3]) ∧
  run (mkEngine (mkGraph [1%nat] [] [1%nat; 2%nat]) [IInt 3]
         "glow::FusionGroup" true ∅ [])
  = Crash CheckFailed.
Proof.
  split.
  - destruct (run_outputs
                (mkEngine (mkGraph [1%nat] [] [1%nat; 1%nat]) [IInt 3]
                   "glow::FusionGroup" true ∅ [tensor [9]])
                {[ 1%nat := scalar 3 ]}) as [H _].
    + reflexivity.
    + vm_compute. reflexivity.
    + apply H. cbn [g_outputs graph_]. by repeat constructor.
  - destruct (run_outputs
                (mkEngine (mkGraph [1%nat] [] [1%nat; 2%nat]) [IInt 3]
                   "glow::FusionGroup" true ∅ [])
                {[ 1%nat := scalar 3 ]}) as [_ H].
    + reflexivity.
    + vm_compute. reflexivity.
    + apply H. cbn [g_outputs graph_].
      apply Exists_cons_tl, Exists_cons_hd. reflexivity.
Defined.

(** X25.  [run] ends with the failure of the first node whose visit fails,
    be it a typed failure or a stop, whatever the nodes behind it are:
    they are not visited and the graph outputs are not collected. *)
Theorem run_first_failure (e : ShapeInferenceEngine)
    (before after : list Node) (node : Node) (m0 m1 : ShapeMap) :
  vsize (inputs_ e) = vsize (g_inputs (graph_ e)) ->
  g_nodes (graph_ e) = before ++ node :: after ->
  getGraphInputShape (g_inputs (graph_ e)) (inputs_ e) (shapeMap_ e) = Ok m0 ->
  forM (visitNode (fusionNodeSymbol_ e) (hasEndOffset_ e)) before m0 = Ok m1 ->
  (∀ msg, visitNode (fusionNodeSymbol_ e) (hasEndOffset_ e) node m1 = Err msg ->
          run e = Err msg) ∧
  (∀ f, visitNode (fusionNodeSymbol_ e) (hasEndOffset_ e) node m1 = Crash f ->
        run e = Crash f).
Proof.
  intros Hlen Hn Hseed Hbefore.
  assert (Hrun : run e =
    (m ← (m2 ← visitNode (fusionNodeSymbol_ e) (hasEndOffset_ e) node m1;
          forM (visitNode (fusionNodeSymbol_ e) (hasEndOffset_ e)) after m2);
     out ← generateGraphOutputShape (g_outputs (graph_ e)) m (outputShape_ e);
     Ok (mkEngine (graph_ e) (inputs_ e) (fusionNodeSymbol_ e)
           (hasEndOffset_ e) m out))).
  { unfold run. rewrite Hlen, Z.eqb_refl.
    cbn [RETURN_ERR_IF_NOT mbind Expected_bind].
    rewrite runRecursively_eq, Hseed, Hn. cbn [mbind Expected_bind].
    rewrite forM_app, Hbefore. done. }
  rewrite Hrun. split.
  - intros msg ->. done.
  - intros f ->. done.
Qed.

Lemma run_first_failure_witness :
  run (mkEngine
         (mkGraph [1%nat]
            [mkNode "aten::mm" [1%nat; 1%nat] [2%nat] TensorType ∅ None;
             mkNode "aten::relu" [2%nat] [3%nat] TensorType ∅ None]
            [3%nat])
         [ITensor [2; 3] Float] "glow::FusionGroup" true ∅ [])
  = Err ("The size of tensor a (" +:+ fmt_zu 3 +:+
         ") at dimension 1 must match the size of tensor b (" +:+
         fmt_zu 2 +:+ ") at dimension 0.") ∧
  run (mkEngine
         (mkGraph [1%nat]
            [mkNode "aten::relu" [1%nat] [2%nat] TensorType ∅ None;
             mkNode "aten::relu" [9%nat] [3%nat] TensorType ∅ None]
            [3%nat])
         [ITensor [2; 3] Float] "glow::FusionGroup" true ∅ [])
  = Crash CheckFailed.
Proof.
  split.
  - destruct (run_first_failure
                (mkEngine
                   (mkGraph [1%nat]
                      [mkNode "aten::mm" [1%nat; 1%nat] [2%nat] TensorType ∅ None;
                       mkNode "aten::relu" [2%nat] [3%nat] TensorType ∅ None]
                      [3%nat])
                   [ITensor [2; 3] Float] "glow::FusionGroup" true ∅ [])
                [] [mkNode "aten::relu" [2%nat] [3%nat] TensorType ∅ None]
                (mkNode "aten::mm" [1%nat; 1%nat] [2%nat] TensorType ∅ None)
                {[ 1%nat := tensor [2; 3] ]} {[ 1%nat := tensor [2; 3] ]})
      as [H _].
    + reflexivity.
    + reflexivity.
    + vm_compute. reflexivity.
    + reflexivity.
    + apply H. vm_compute. reflexivity.
  - destruct (run_first_failure
                (mkEngine
                   (mkGraph [1%nat]
                      [mkNode "aten::relu" [1%nat] [2%nat] TensorType ∅ None;
                       mkNode "aten::relu" [9%nat] [3%nat] TensorType ∅ None]
                      [3%nat])
                   [ITensor [2; 3] Float] "glow::FusionGroup" true ∅ [])
                [mkNode "aten::relu" [1%nat] [2%nat] TensorType ∅ None] []
                (mkNode "aten::relu" [9%nat] [3%nat] TensorType ∅ None)
                {[ 1%nat := tensor [2; 3] ]}
                {[ 1%nat := tensor [2; 3]; 2%nat := tensor [2; 3] ]})
      as [_ H].
    + reflexivity.
    + reflexivity.
    + vm_compute. reflexivity.
    + vm_compute. reflexivity.
    + apply H. vm_compute. reflexivity.
Defined.

(** ** The inputs of a subgraph *)

Lemma torch_empty_ok (s : list Z) (dt : ScalarType) :
  Forall (fun x => 0 <= x) s -> torch_empty s dt = Ok (ITensor s dt).
Proof.
  intros H. unfold torch_empty.
  replace (forallb (fun x => 0 <=? x) s) with true; [done|].
  symmetry. apply forallb_forall. intros x Hx%list_elem_of_In.
  rewrite Forall_forall in H. apply Z.leb_le. by apply H.
Qed.

Lemma subgraphInputs_loop (m : ShapeMap) (l : list Value) (acc : list IValue) :
  Forall (fun v => ∃ r s, m !! v = Some r ∧ shapeT r = Ok s ∧
                          Forall (fun x => 0 <= x) s) l ->
  ∃ ins, forM (fun i subgraphInputs =>
                 _ ← CHECK (bool_decide (is_Some (m !! i)));
                 s ← shapeT (entry m i);
                 x ← torch_empty s (dtype (entry m i));
                 Ok (subgraphInputs ++ [x])) l acc = Ok (acc ++ ins) ∧
         Forall2 (fun v x => ∃ r s, m !! v = Some r ∧ shapeT r = Ok s ∧
                                    x = ITensor s (dtype r)) l ins.
Proof.
  revert acc. induction l as [|v l IH]; intros acc Hall.
  - exists []. split; [by rewrite app_nil_r|constructor].
  - apply Forall_cons in Hall as [(r & s & Hr & Hs & Hpos) Hall].
    cbn [forM]. rewrite bool_decide_eq_true_2 by (by rewrite Hr).
    cbn [CHECK mbind Expected_bind].
    assert (He : entry m v = r) by (unfold entry; by rewrite Hr).
    rewrite He, Hs. cbn [mbind Expected_bind].
    rewrite torch_empty_ok by done. cbn [mbind Expected_bind].
    destruct (IH (acc ++ [ITensor s (dtype r)]) Hall) as (ins & -> & HF).
    exists (ITensor s (dtype r) :: ins). split; [by rewrite <- app_assoc|].
    constructor; [by exists r, s|done].
Qed.

(** Seeding with tensors leaves no integers at the graph inputs. *)
Lemma seed_tensors_payload (gs : list Value) (ins : list IValue)
    (m m0 : ShapeMap) (g : Value) :
  Forall (fun x => ∃ s dt, x = ITensor s dt) ins ->
  seed_inputs gs ins m = Ok m0 ->
  g ∈ take (length ins) gs ∨ intValue (entry m g) = [] ->
  intValue (entry m0 g) = [].
Proof.
  revert gs m. induction ins as [|x ins IH]; intros gs m Hall Hseed Hg.
  - cbn in Hseed. injection Hseed as <-.
    destruct Hg as [Hg|Hg]; [|done]. rewrite take_0 in Hg.
    by apply elem_of_nil in Hg.
  - apply Forall_cons in Hall as [(s & dt & ->) Hall].
    destruct gs as [|g0 gs]; [done|]. cbn [seed_inputs classifyInput] in Hseed.
    cbn [mbind Expected_bind] in Hseed.
    apply (IH gs _ Hall Hseed).
    destruct (decide (g0 = g)) as [->|Hne].
    + right. unfold entry. rewrite seed_step_lookup. by case_decide.
    + destruct Hg as [Hg|Hg].
      * left. cbn [length take] in Hg.
        apply elem_of_cons in Hg as [Hg|Hg]; [congruence|done].
      * right. unfold entry. rewrite seed_step_lookup.
        case_decide; [done|]. exact Hg.
Qed.

(** X26.  The inputs that a fusion node hands to its subgraph are empty
    tensors of the recorded shapes and element types: whatever integers the
    records of the inputs hold, every graph input of the subgraph starts
    the walk of the subgraph without integers. *)
Theorem subgraph_inputs_are_tensors (node : Node) (m : ShapeMap) :
  Forall (fun v => ∃ r s, m !! v = Some r ∧ shapeT r = Ok s ∧
                          Forall (fun x => 0 <= x) s) (n_inputs node) ->
  ∃ ins, subgraphInputs node m = Ok ins ∧
         Forall2 (fun v x => ∃ r s, m !! v = Some r ∧ shapeT r = Ok s ∧
                                    x = ITensor s (dtype r))
           (n_inputs node) ins ∧
         ∀ gs m0, getGraphInputShape gs ins m = Ok m0 ->
                  length gs = length ins ->
                  Forall (fun g => intValue (entry m0 g) = []) gs.
Proof.
  intros Hall. unfold subgraphInputs.
  destruct (subgraphInputs_loop m (n_inputs node) [] Hall) as (ins & -> & HF).
  exists ins. split; [done|]. split; [done|].
  intros gs m0 Hseed Hlen. rewrite getGraphInputShape_seed in Hseed.
  apply Forall_forall. intros g Hg.
  apply (seed_tensors_payload gs ins m m0 g); [|done|].
  - clear -HF. induction HF as [|v x vs xs (r & s & _ & _ & ->) _ IH];
      constructor; [by eexists _, _|done].
  - left. by rewrite <- Hlen, firstn_all.
Qed.

Lemma subgraph_inputs_are_tensors_witness :
  ∃ ins, subgraphInputs
           (mkNode "glow::FusionGroup" [1%nat] [3%nat] TensorType ∅
              (Some (mkGraph [4%nat] [] [4%nat])))
           {[ 1%nat := scalar 7 ]} = Ok ins ∧
         Forall2 (fun v x => ∃ r s,
                    ({[ 1%nat := scalar 7 ]} : ShapeMap) !! v = Some r ∧
                    shapeT r = Ok s ∧ x = ITensor s (dtype r))
           (n_inputs (mkNode "glow::FusionGroup" [1%nat] [3%nat] TensorType ∅
                        (Some (mkGraph [4%nat] [] [4%nat])))) ins ∧
         ∀ gs m0, getGraphInputShape gs ins {[ 1%nat := scalar 7 ]} = Ok m0 ->
                  length gs = length ins ->
                  Forall (fun g => intValue (entry m0 g) = []) gs.
Proof.
  apply (subgraph_inputs_are_tensors
           (mkNode "glow::FusionGroup" [1%nat] [3%nat] TensorType ∅
              (Some (mkGraph [4%nat] [] [4%nat])))
           {[ 1%nat := scalar 7 ]}).
  cbn [n_inputs]. constructor; [|constructor].
  exists (scalar 7), [1]. split; [reflexivity|]. split; [reflexivity|].
  constructor; [lia|constructor].
Defined.

(** ** Instances of the statements on [slice] and [reshape] *)

Lemma slice_in_range_witness :
  slice [tensor [10; 4]; scalar 0; scalar 2; scalar 9; scalar 3] =
    Ok (<[Z.to_nat 0 := py_slice_len 10 2 9 3]> [10; 4]) ∧
  py_slice_len 10 2 9 3 =
    (if (10 <=? 2) || (9 <=? - 10) then 0
     else
       let lo := if 2 <=? - 10 then 0
                 else if 2 <? 0 then 2 + 10 else 2 in
       let hi := if 10 <? 9 then 10
                 else if 9 <? 0 then 9 + 10 else 9 in
       if hi <=? lo then 0 else ceil_div (hi - lo) 3).
Proof.
  apply (slice_in_range (tensor [10; 4]) (scalar 0) (scalar 2) (scalar 9)
           (scalar 3) [10; 4] 0 2 9 3); try reflexivity; lia.
Defined.

Lemma reshape_two_unknowns_witness :
  reshape [tensor [2; 3]; intList [-1; -1]]
  = Err "Unable to infer undetermined dimension".
Proof.
  apply (reshape_two_unknowns (tensor [2; 3]) (intList [-1; -1]) [2; 3]).
  - reflexivity.
  - unfold unknowns. simpl. lia.
Defined.

Lemma reshape_indivisible_witness :
  reshape [tensor [2; 3]; intList [4; -1]]
  = Err "Reshape size is invalid for input size.".
Proof.
  apply (reshape_indivisible (tensor [2; 3]) (intList [4; -1]) [2; 3]).
  - reflexivity.
  - unfold unknowns. simpl. lia.
  - vm_compute. split; reflexivity.
  - vm_compute. split; reflexivity.
  - vm_compute. discriminate.
  - intros [c Hc]. change (6 = c * 4) in Hc. lia.
Defined.

Lemma reshape_resolved_witness :
  let out := resolve (intValue (intList [3; -1]))
               (product [2; 3] / known_product (intValue (intList [3; -1]))) in
  reshape [tensor [2; 3]; intList [3; -1]] = Ok out ∧
  (unknowns (intValue (intList [3; -1])) = 1%nat ->
   product out = product [2; 3]).
Proof.
  apply (reshape_resolved (tensor [2; 3]) (intList [3; -1]) [2; 3]).
  - reflexivity.
  - unfold unknowns. simpl. lia.
  - vm_compute. split; reflexivity.
  - vm_compute. split; reflexivity.
  - vm_compute. discriminate.
  - exists 2. reflexivity.
Defined.

Lemma arity_is_checked_witness :
  (∃ msg, mm [tensor [2; 3]] = Err msg) ∧
  (∃ msg, binaryOp [tensor [2; 3]] = Err msg) ∧
  (∃ msg, slice [tensor [2; 3]; scalar 0] = Err msg) ∧
  (∃ msg, listConstruct [] = Err msg).
Proof.
  split; [|split; [|split]].
  - destruct (arity_is_checked true [tensor [2; 3]] 0 0) as (_ & H & _).
    destruct H as (H & _); [closed_arith|]. exact H.
  - destruct (arity_is_checked true [tensor [2; 3]] 0 0) as (_ & _ & H & _).
    apply H; closed_arith.
  - destruct (arity_is_checked true [tensor [2; 3]; scalar 0] 0 0)
      as (_ & _ & _ & _ & _ & H & _).
    apply H. closed_arith.
  - destruct (arity_is_checked true [] 0 0)
      as (_ & _ & _ & _ & _ & _ & H & _).
    destruct H as (_ & H & _); [closed_arith|]. exact H.
Defined.
